(** * FireDM controller: a shallow embedding of [firedm/controller.py]

    The controller owns the download list [d_map], admits downloads under
    a concurrency ceiling, retries failed transfers after refreshing the
    url, aggregates property-change events for the view and watches for
    the completion of all downloads.

    Python objects have identity: the same download item is reachable from
    [d_map], from the pending queue and from the thread that drives it.
    Items therefore live in a heap (a list indexed by object number) and
    every container holds object numbers.  Everything the controller does
    to the outside world (log lines, view updates, threads started,
    commands run) is appended to an output trace in program order. *)

From stdpp Require Import gmap strings list fin_maps.
From Stdlib Require Import ZArith Lia.

Open Scope string_scope.
Open Scope Z_scope.
Open Scope list_scope.

(** ** Values and dictionaries *)

(** Python values the controller handles inside event dictionaries. *)
Inductive pyval :=
| VNone
| VInt (z : Z)
| VStr (s : string).

#[global] Instance pyval_eq_dec : EqDecision pyval.
Proof. solve_decision. Defined.

(** Truth value of a Python object in an [if]. *)
Definition truthy (v : pyval) : bool :=
  match v with
  | VNone => false
  | VInt z => negb (z =? 0)%Z
  | VStr s => negb (String.eqb s "")
  end.

(** A keyword dictionary, e.g. [{'uid': ..., 'downloaded': ...}]. *)
Abbreviation Item := (gmap string pyval).

(** [dict.get(key)], with [None] for a missing key. *)
Definition dict_get (kw : Item) (key : string) : pyval :=
  default VNone (kw !! key).

(** [dict.setdefault(key, v)] on a keyword dictionary. *)
Definition dict_setdefault (kw : Item) (key : string) (v : pyval) : Item :=
  match kw !! key with
  | Some _ => kw
  | None => <[key := v]> kw
  end.

(** [old.update] with the keywords of [new]: keys of [new] win, other
    keys of [old] stay. *)
Definition dict_update (old new : Item) : Item := new ∪ old.

(** ** config.Status and config.MediaType *)

(** Modelled from the spec: [config.Status] is imported from config.py,
    which is not part of the sources; the statuses and the active set
    are those of the data model and the glossary. *)
Module Status.
Inductive t :=
| pending | scheduled | downloading | refreshing_url
| completed | cancelled | error.

#[global] Instance eq_dec : EqDecision t.
Proof. solve_decision. Defined.

Definition active_states : list t := [downloading; refreshing_url].

(** [status in Status.active_states] *)
Definition is_active (s : t) : bool := bool_decide (s ∈ active_states).
End Status.

(** [config.MediaType] is not part of the sources either.  The
    controller compares the type of an item with the literal 'video' as
    well as with [MediaType.video]; [audio] and [key] stand for the two
    other members it tests. *)
Module MediaType.
Definition video : string := "video".
Definition audio : string := "audio".
Definition key : string := "key".
End MediaType.

(** ** Download items *)

(** The attributes of [ObservableDownloadItem] the controller reads or
    writes.  [callback] records [register_callback(self.observer)]. *)
Record Job := mkJob {
  uid : string;
  name : string;
  folder : string;
  url : string;
  eff_url : string;
  type : string;
  subtype_list : list string;
  status : Status.t;
  total_size : Z;
  downloaded : Z;
  resumable : bool;
  errors : Z;
  sched : option Z;
  on_completion_command : string;
  shutdown_pc : bool;
  thumbnail_url : string;
  accept_html : bool;
  progress : Z;
  speed : Z;
  eta : Z;
  callback : bool
}.

Definition set_status (s : Status.t) (d : Job) : Job :=
  mkJob (uid d) (name d) (folder d) (url d) (eff_url d) (type d)
    (subtype_list d) s (total_size d) (downloaded d) (resumable d)
    (errors d) (sched d) (on_completion_command d) (shutdown_pc d)
    (thumbnail_url d) (accept_html d) (progress d) (speed d) (eta d)
    (callback d).

Definition set_errors (n : Z) (d : Job) : Job :=
  mkJob (uid d) (name d) (folder d) (url d) (eff_url d) (type d)
    (subtype_list d) (status d) (total_size d) (downloaded d) (resumable d)
    n (sched d) (on_completion_command d) (shutdown_pc d)
    (thumbnail_url d) (accept_html d) (progress d) (speed d) (eta d)
    (callback d).

Definition set_sched (t : option Z) (d : Job) : Job :=
  mkJob (uid d) (name d) (folder d) (url d) (eff_url d) (type d)
    (subtype_list d) (status d) (total_size d) (downloaded d) (resumable d)
    (errors d) t (on_completion_command d) (shutdown_pc d)
    (thumbnail_url d) (accept_html d) (progress d) (speed d) (eta d)
    (callback d).

Definition set_downloaded (n : Z) (d : Job) : Job :=
  mkJob (uid d) (name d) (folder d) (url d) (eff_url d) (type d)
    (subtype_list d) (status d) (total_size d) n (resumable d)
    (errors d) (sched d) (on_completion_command d) (shutdown_pc d)
    (thumbnail_url d) (accept_html d) (progress d) (speed d) (eta d)
    (callback d).

Definition set_folder (f : string) (d : Job) : Job :=
  mkJob (uid d) (name d) f (url d) (eff_url d) (type d)
    (subtype_list d) (status d) (total_size d) (downloaded d) (resumable d)
    (errors d) (sched d) (on_completion_command d) (shutdown_pc d)
    (thumbnail_url d) (accept_html d) (progress d) (speed d) (eta d)
    (callback d).

Definition set_name_uid (n u : string) (d : Job) : Job :=
  mkJob u n (folder d) (url d) (eff_url d) (type d)
    (subtype_list d) (status d) (total_size d) (downloaded d) (resumable d)
    (errors d) (sched d) (on_completion_command d) (shutdown_pc d)
    (thumbnail_url d) (accept_html d) (progress d) (speed d) (eta d)
    (callback d).

Definition set_eff_url (u : string) (d : Job) : Job :=
  mkJob (uid d) (name d) (folder d) (url d) u (type d)
    (subtype_list d) (status d) (total_size d) (downloaded d) (resumable d)
    (errors d) (sched d) (on_completion_command d) (shutdown_pc d)
    (thumbnail_url d) (accept_html d) (progress d) (speed d) (eta d)
    (callback d).

Definition set_accept_html (b : bool) (d : Job) : Job :=
  mkJob (uid d) (name d) (folder d) (url d) (eff_url d) (type d)
    (subtype_list d) (status d) (total_size d) (downloaded d) (resumable d)
    (errors d) (sched d) (on_completion_command d) (shutdown_pc d)
    (thumbnail_url d) b (progress d) (speed d) (eta d)
    (callback d).

Definition set_shutdown_pc (b : bool) (d : Job) : Job :=
  mkJob (uid d) (name d) (folder d) (url d) (eff_url d) (type d)
    (subtype_list d) (status d) (total_size d) (downloaded d) (resumable d)
    (errors d) (sched d) (on_completion_command d) b
    (thumbnail_url d) (accept_html d) (progress d) (speed d) (eta d)
    (callback d).

Definition set_callback (b : bool) (d : Job) : Job :=
  mkJob (uid d) (name d) (folder d) (url d) (eff_url d) (type d)
    (subtype_list d) (status d) (total_size d) (downloaded d) (resumable d)
    (errors d) (sched d) (on_completion_command d) (shutdown_pc d)
    (thumbnail_url d) (accept_html d) (progress d) (speed d) (eta d)
    b.

(** [d.target_file]: the folder joined with the name. *)
Definition target_file (d : Job) : string :=
  (folder d ++ "/" ++ name d)%string.

(** ** Configuration, the outside world and the controller state *)

(** The settings of config.py the controller reads. *)
Module config.
Record t := mk {
  max_concurrent_downloads : Z;
  refresh_url_retries : Z;
  simulator : bool;
  test_mode : bool;
  download_thumbnail : bool;
  checksum : bool;
  use_server_timestamp : bool;
  on_completion_command : string;
  shutdown_pc : bool;
  shutdown : bool;
  auto_rename : bool;
  download_folder : string;
  operating_system : string;
  current_directory : string;
  global_sett_folder : string;
  on_download_notification : bool
}.
End config.

(** What the controller does to the outside, in program order. *)
Inductive Event :=
| Log (msg : string) (showpopup : bool)     (* log(msg, showpopup=...) *)
| ViewUpdate (kw : Item)                    (* self.view.update_view(kw) *)
| ReportD (o : nat) (command : option string) (* self.report_d(d, command=...) *)
| ThreadStart (o : nat)                     (* Thread(target=brain or simulator, args=(d,)).start() *)
| RefreshUrl (o : nat)                      (* self.auto_refresh_url(d) *)
| DownloadFfmpeg                            (* self._download_ffmpeg() *)
| Popup (popup_id : nat)                    (* self.get_user_response(popup_id=...) *)
| RunCommand (cmd : string)                 (* run_command(cmd) *)
| DeleteFile (path : string)                (* delete_file(path) *)
| DeleteTempfiles (o : nat)                 (* d.delete_tempfiles() *)
| FetchThumbnail (o : nat)                  (* download(d.thumbnail_url, fp=...) *)
| CalcChecksum (o : nat)                    (* calc_md5_sha256(fp=d.target_file) *)
| Utime (o : nat) (t : Z)                   (* os.utime(d.target_file, (t, t)) *)
| OsNotify (o : nat)                        (* notify(...) *)
| SaveSettings                              (* self._save_settings() *)
| ViewQuit                                  (* self.view.hide(); self.view.quit() *)
| Sleep (ms : Z).                           (* time.sleep(ms / 1000) *)

#[global] Instance Event_eq_dec : EqDecision Event.
Proof. solve_decision. Defined.

(** Outcome of writing the test file into the destination folder. *)
Inductive FolderProbe :=
| FolderOk | FolderNotFound | FolderNoPermission | FolderOtherError.

(** The helpers of utils.py, model.py, video.py and the operating system
    are not part of the sources: their results are parameters. *)
Record Env := mkEnv {
  user_response : nat → string;          (* get_user_response; popup 0: no popup id *)
  folder_probe : string → FolderProbe;   (* open(folder/test_file_.firedm, 'w') *)
  listdir : string → option (list string); (* os.listdir, None when it raises *)
  auto_rename : string → list string → string;
  calculate_uid : string → string → string;  (* from name and folder *)
  update_object : Job → Item → Job;
  run_command : string → bool * string;  (* (error, output) *)
  last_modified : Job → option (option Z); (* get_headers + strptime; None when it raises *)
  thumbnail_fetch_ok : Job → bool;       (* download(url, fp) does not raise *)
  utime_ok : Job → bool;                 (* os.utime does not raise *)
  checksum_ok : Job → bool;              (* calc_md5_sha256 does not raise *)
  refresh_headers : string → string * string; (* get_headers(url): eff_url, content-type *)
  refresh_media : Job → option Job;      (* create_video_playlist and stream selection *)
  brain : nat → Job → Job;               (* the transfer engine, by attempt *)
  recursion_limit : nat;                 (* sys.getrecursionlimit() *)
  path_join : string → string → string;  (* os.path.join *)
  realpath : string → string             (* os.path.realpath *)
}.

(** The controller: [heap] holds the download items by object number;
    [ffmpeg_actual_path] is the one setting of config.py that the
    controller itself writes (in [check_ffmpeg]), kept apart from the
    settings it only reads. *)
Record Controller := mkCtl {
  heap : list Job;
  d_map : gmap string nat;
  pending_downloads_q : list nat;
  observer_q : list Item;
  playlist : list nat;
  files : gset string;
  cfg : config.t;
  ffmpeg_actual_path : string;
  out : list Event
}.

Definition with_heap (h : list Job) (c : Controller) : Controller :=
  mkCtl h (d_map c) (pending_downloads_q c) (observer_q c) (playlist c)
        (files c) (cfg c) (ffmpeg_actual_path c) (out c).

Definition with_d_map (m : gmap string nat) (c : Controller) : Controller :=
  mkCtl (heap c) m (pending_downloads_q c) (observer_q c) (playlist c)
        (files c) (cfg c) (ffmpeg_actual_path c) (out c).

Definition with_pending (q : list nat) (c : Controller) : Controller :=
  mkCtl (heap c) (d_map c) q (observer_q c) (playlist c)
        (files c) (cfg c) (ffmpeg_actual_path c) (out c).

Definition with_observer_q (q : list Item) (c : Controller) : Controller :=
  mkCtl (heap c) (d_map c) (pending_downloads_q c) q (playlist c)
        (files c) (cfg c) (ffmpeg_actual_path c) (out c).

Definition with_files (f : gset string) (c : Controller) : Controller :=
  mkCtl (heap c) (d_map c) (pending_downloads_q c) (observer_q c) (playlist c)
        f (cfg c) (ffmpeg_actual_path c) (out c).

Definition with_ffmpeg_actual_path (p : string) (c : Controller) : Controller :=
  mkCtl (heap c) (d_map c) (pending_downloads_q c) (observer_q c) (playlist c)
        (files c) (cfg c) p (out c).

Definition with_cfg (g : config.t) (c : Controller) : Controller :=
  mkCtl (heap c) (d_map c) (pending_downloads_q c) (observer_q c) (playlist c)
        (files c) g (ffmpeg_actual_path c) (out c).

(** Append to the output trace. *)
Definition emit (e : Event) (c : Controller) : Controller :=
  mkCtl (heap c) (d_map c) (pending_downloads_q c) (observer_q c) (playlist c)
        (files c) (cfg c) (ffmpeg_actual_path c) (out c ++ [e]).

(** Mutate object [o] in place; nothing happens for a dangling number. *)
Definition modify (o : nat) (f : Job → Job) (c : Controller) : Controller :=
  match heap c !! o with
  | Some d => with_heap (<[o := f d]> (heap c)) c
  | None => c
  end.

(** Status of object [o], if it exists. *)
Definition status_of (c : Controller) (o : nat) : option Status.t :=
  status <$> heap c !! o.

(** [d.status in Status.active_states] for the object [o]. *)
Definition active_obj (c : Controller) (o : nat) : bool :=
  match status_of c o with
  | Some s => Status.is_active s
  | None => false
  end.

(** [self.d_map.values()]; the order is that of the map's listing. *)
Definition d_map_values (c : Controller) : list nat :=
  (map_to_list (d_map c)).*2.

(** [len([d for d in self.d_map.values() if d.status in Status.active_states])] *)
Definition active_downloads (c : Controller) : Z :=
  Z.of_nat (length (filter (λ o, active_obj c o = true) (d_map_values c))).

(** ** Updating the view: [observer], [_observer], [_update_view] *)

(** [observer]: called by a download item whenever a property changes;
    it only queues the keywords. *)
Definition observer (kwargs : Item) (c : Controller) : Controller :=
  with_observer_q (observer_q c ++ [kwargs]) c.

(** [self.d_map.get(uid, None)] for a Python value used as key: the keys
    of [d_map] are strings, any other value finds nothing. *)
Definition d_map_get (c : Controller) (uid : pyval) : option Job :=
  match uid with
  | VStr s => d_map c !! s ≫= λ o, heap c !! o
  | _ => None
  end.

(** [sum([d.speed for d in self.d_map.values() if d.status == Status.downloading])] *)
Definition total_speed (c : Controller) : Z :=
  foldr Z.add 0
    (omap (λ o, match heap c !! o with
                | Some d => if decide (status d = Status.downloading)
                            then Some (speed d) else None
                | None => None
                end) (d_map_values c)).

(** The keywords of the [total_speed] notification. *)
Definition total_speed_kw (c : Controller) : Item :=
  {[ "command" := VStr "total_speed"; "total_speed" := VInt (total_speed c) ]}.

(** [{k: getattr(d, k, None) for k in ['progress', 'speed', 'eta']}] *)
Definition extra (d : Job) : Item :=
  {[ "progress" := VInt (progress d); "speed" := VInt (speed d);
     "eta" := VInt (eta d) ]}.

(** The keywords [_update_view] passes on to the view: the command
    defaults to 'update', and the read-only properties are added when the
    item is in [d_map] and the keywords carry a non-zero [downloaded]. *)
Definition view_kwargs (c : Controller) (kwargs : Item) : Item :=
  let kwargs := dict_setdefault kwargs "command" (VStr "update") in
  let uid := dict_get kwargs "uid" in
  match d_map_get c uid with
  | Some d =>
      if truthy (dict_get kwargs "downloaded")
      then dict_update kwargs (extra d)
      else kwargs
  | None => kwargs
  end.

(** [_update_view]: the total speed is computed and sent first, then the
    keywords themselves.  (The [try] only guards against the view.) *)
Definition _update_view (kwargs : Item) (c : Controller) : Controller :=
  let kwargs := view_kwargs c kwargs in
  let c := emit (ViewUpdate (total_speed_kw c)) c in
  emit (ViewUpdate kwargs) c.

(** [buffer.setdefault(uid, item).update(item)] on the insertion-ordered
    [buffer]: a new uid is appended with the item itself (updating a
    dictionary with itself changes nothing), a known uid keeps its place
    and its dictionary is updated with the item. *)
Fixpoint buffer_put (buffer : list (pyval * Item)) (uid : pyval) (item : Item)
  : list (pyval * Item) :=
  match buffer with
  | [] => [(uid, item)]
  | (k, v) :: rest =>
      if decide (k = uid) then (k, dict_update v item) :: rest
      else (k, v) :: buffer_put rest uid item
  end.

(** One item taken from the queue: [uid = item.get('uid')], buffered only
    [if uid]. *)
Definition observer_take (buffer : list (pyval * Item)) (item : Item)
  : list (pyval * Item) :=
  let uid := dict_get item "uid" in
  if truthy uid then buffer_put buffer uid item else buffer.

(** The buffer after the [for i in range(self.observer_q.qsize())] loop. *)
Definition observer_buffer (items : list Item) : list (pyval * Item) :=
  fold_left observer_take items [].

(** [report_interval = 0.5], in milliseconds. *)
Definition report_interval : Z := 500.

(** One turn of the [while True] loop of [_observer]: drain the queue
    into the buffer, update the view once per buffered value, clear the
    buffer, sleep. *)
Definition _observer_iteration (c : Controller) : Controller :=
  let buffer := observer_buffer (observer_q c) in
  let c := with_observer_q [] c in
  let c := fold_left (λ c v, _update_view v c) buffer.*2 c in
  emit (Sleep report_interval) c.

(** ** Effects: a state and exception monad over the controller *)

(** A Python call either returns or raises. *)
Inductive Outcome (A : Type) :=
| Ret (a : A)
| Raise.
Arguments Ret {A} a.
Arguments Raise {A}.

Definition M (A : Type) : Type := Controller → Controller * Outcome A.

Definition ret {A} (a : A) : M A := λ c, (c, Ret a).
Definition raise {A} : M A := λ c, (c, Raise).

Definition bind {A B} (m : M A) (k : A → M B) : M B :=
  λ c, match m c with
       | (c', Ret a) => k a c'
       | (c', Raise) => (c', Raise)
       end.

Notation "x <- m ;; k" := (bind m (λ x, k))
  (at level 100, m at next level, right associativity).
Notation "m ;;; k" := (bind m (λ _, k))
  (at level 100, right associativity).

(** [try: m  except Exception: h] *)
Definition try_except {A} (m : M A) (h : M A) : M A :=
  λ c, match m c with
       | (c', Ret a) => (c', Ret a)
       | (c', Raise) => h c'
       end.

(** Run a state change that cannot raise. *)
Definition act (f : Controller → Controller) : M unit := λ c, (f c, Ret tt).

(** Read the controller. *)
Definition ask : M Controller := λ c, (c, Ret c).

(** Read object [o]; a dangling number is an error (it cannot arise). *)
Definition deref (o : nat) : M Job :=
  λ c, match heap c !! o with
       | Some d => (c, Ret d)
       | None => (c, Raise)
       end.

Definition log (msg : string) (showpopup : bool) : M unit :=
  act (emit (Log msg showpopup)).

(** [when b: m] *)
Definition when (b : bool) (m : M unit) : M unit := if b then m else ret tt.

(** ** Looking items up, stopping and scheduling *)

(** [l[i]] with Python's negative indices; [None] stands for IndexError. *)
Definition py_index {A} (l : list A) (i : Z) : option A :=
  if (0 <=? i)%Z then l !! Z.to_nat i
  else if (- Z.of_nat (length l) <=? i)%Z then l !! Z.to_nat (Z.of_nat (length l) + i)
  else None.

(** [get_d]: by uid in [d_map], else by index in the playlist, else the
    first playlist entry; any exception gives [None]. *)
Definition get_d (c : Controller) (uid : option string) (video_idx : option Z)
  : option nat :=
  if bool_decide (uid ≠ None ∧ uid ≠ Some "") then
    d_map c !! default "" uid
  else if bool_decide (video_idx ≠ None ∧ video_idx ≠ Some 0%Z) then
    py_index (playlist c) (default 0%Z video_idx)
  else
    py_index (playlist c) 0.

(** [stop_download]: only an active or pending item is cancelled. *)
Definition stop_download (uid : string) (c : Controller) : Controller :=
  match d_map c !! uid with
  | Some o =>
      match status_of c o with
      | Some s =>
          if bool_decide (s ∈ Status.active_states ++ [Status.pending])
          then modify o (set_status Status.cancelled) c
          else c
      | None => c
      end
  | None => c
  end.

(** The [target_date] argument of [schedule_start]: a [datetime] (as a
    timestamp) or some other Python value. *)
Inductive pyarg :=
| PyDatetime (t : Z)
| PyOther (v : pyval).

(** [schedule_start], with [now] the value of [datetime.now()]. *)
Definition schedule_start (now : Z) (uid : option string) (video_idx : option Z)
    (target_date : pyarg) (c : Controller) : Controller :=
  match get_d c uid video_idx, target_date with
  | Some o, PyDatetime t =>
      if (t <? now)%Z then
        emit (Log "Can not Schedule something in the past" true) c
      else
        let c := emit (Log "Schedule at" false) c in
        let c := modify o (set_sched (Some t)) c in
        modify o (set_status Status.scheduled) c
  | _, _ => c
  end.

(** [schedule_cancel] *)
Definition schedule_cancel (uid : option string) (video_idx : option Z)
    (c : Controller) : Controller :=
  match get_d c uid video_idx with
  | Some o =>
      if bool_decide (status_of c o = Some Status.scheduled) then
        let c := emit (Log "Schedule has been cancelled" false) c in
        let c := modify o (set_status Status.cancelled) c in
        modify o (set_sched None) c
      else c
  | None => c
  end.

(** ** Shutting down and the completion watchdog *)

(** [Controller.shutdown_pc]: save the settings, issue the shutdown
    command, and offer to abort it. *)
Definition Controller_shutdown_pc (E : Env) : M unit :=
  c <- ask ;;
  let windows := bool_decide (config.operating_system (cfg c) = "Windows") in
  let cmd := if windows then "shutdown -s -t 120" else "shutdown --poweroff +2" in
  let abort_cmd := if windows then "shutdown -a" else "shutdown -c" in
  act (emit SaveSettings) ;;;
  act (emit (RunCommand cmd)) ;;;
  if (run_command E cmd).1 then log "error:" true
  else
    act (emit (Popup 0)) ;;;
    if bool_decide (user_response E 0%nat = "ABORT!")
    then act (emit (RunCommand abort_cmd))
    else act (emit ViewQuit).

(** [any([d.status in Status.active_states for d in self.d_map.values()])] *)
Definition any_active (c : Controller) : bool :=
  existsb (active_obj c) (d_map_values c).

(** [d.status == Status.completed] for the object [o]. *)
Definition completed_obj (c : Controller) (o : nat) : bool :=
  bool_decide (status_of c o = Some Status.completed).

(** [all([d.status == Status.completed for d in self.d_map.values()])] *)
Definition all_completed (c : Controller) : bool :=
  forallb (completed_obj c) (d_map_values c).

(** [any((config.on_completion_command, config.shutdown_pc))] *)
Definition on_completion_configured (c : Controller) : bool :=
  negb (String.eqb (config.on_completion_command (cfg c)) "")
  || config.shutdown_pc (cfg c).

(** What the watchdog runs once all items are completed: the command,
    then the shutdown, each if configured. *)
Definition post_batch_action (E : Env) : M unit :=
  c <- ask ;;
  when (negb (String.eqb (config.on_completion_command (cfg c)) ""))
       (act (emit (RunCommand (config.on_completion_command (cfg c))))) ;;;
  when (config.shutdown_pc (cfg c)) (Controller_shutdown_pc E).

(** The watchdog sleeps five seconds between polls. *)
Definition watchdog_interval : Z := 5000.

(** One turn of the [while True] loop of [_on_completion_watchdog] with
    the local variable [trigger]; [None] is the [break] on
    [config.shutdown]. *)
Definition watchdog_poll (E : Env) (trigger : bool) (c : Controller)
  : option (Controller * bool) :=
  if config.shutdown (cfg c) then None
  else
    let '(c', trigger') :=
      if on_completion_configured c then
        if any_active c then (c, true)
        else if trigger then
          if all_completed c then ((post_batch_action E c).1, false)
          else (c, trigger)
        else (c, trigger)
      else (c, false)
    in
    Some (emit (Sleep watchdog_interval) c', trigger').

(** ** After a download: thumbnail, checksum, timestamp, command, shutdown *)

(** [download_thumbnail]: any exception is logged, and raised again only
    in test mode. *)
Definition download_thumbnail (E : Env) (o : nat) : M unit :=
  try_except
    (d <- deref o ;;
     if bool_decide (status d = Status.completed)
        && negb (String.eqb (thumbnail_url d) "")
     then
       act (emit (FetchThumbnail o)) ;;;
       if thumbnail_fetch_ok E d then ret tt else raise
     else ret tt)
    (log "controller._download_thumbnail()> error:" false ;;;
     c <- ask ;;
     if config.test_mode (cfg c) then raise else ret tt).

(** [write_timestamp]: copy the server's last-modified time to the file;
    any exception is logged, and raised again only in test mode. *)
Definition write_timestamp (E : Env) (o : nat) : M unit :=
  try_except
    (d <- deref o ;;
     if bool_decide (status d = Status.completed) then
       match last_modified E d with
       | None => raise
       | Some None => ret tt
       | Some (Some t) =>
           log "writing last modified timestamp" false ;;;
           act (emit (Utime o t)) ;;;
           if utime_ok E d then ret tt else raise
       end
     else ret tt)
    (log "controller._write_timestamp()> error:" false ;;;
     c <- ask ;;
     if config.test_mode (cfg c) then raise else ret tt).

(** [_post_download]: the actions after a completed download, in order.
    The checksum is computed without a [try]. *)
Definition _post_download (E : Env) (o : nat) : M unit :=
  d <- deref o ;;
  c <- ask ;;
  if bool_decide (status d = Status.completed) then
    when (config.download_thumbnail (cfg c)) (download_thumbnail E o) ;;;
    when (config.checksum (cfg c))
      (log "" false ;;;
       log "Calculating MD5 and SHA256" false ;;;
       act (emit (CalcChecksum o)) ;;;
       (if checksum_ok E d then ret tt else raise) ;;;
       log "MD5:" false ;;;
       log "SHA256:" false) ;;;
    when (config.use_server_timestamp (cfg c)) (write_timestamp E o) ;;;
    when (negb (String.eqb (on_completion_command d) ""))
      (act (emit (RunCommand (on_completion_command d))) ;;;
       when (run_command E (on_completion_command d)).1
            (log "error executing command:" false)) ;;;
    when (shutdown_pc d)
      (act (modify o (set_shutdown_pc false)) ;;;
       Controller_shutdown_pc E)
  else ret tt.

(** ** Checks before a download *)

(** [str.isspace] for one character; the characters of a string are
    code points below 256. *)
Definition is_space (a : Ascii.ascii) : bool :=
  let n := Ascii.nat_of_ascii a in
  ((9 <=? n) && (n <=? 13) || (28 <=? n) && (n <=? 32)
   || (n =? 133) || (n =? 160))%nat.

Fixpoint lstrip (s : string) : string :=
  match s with
  | String a s' => if is_space a then lstrip s' else s
  | EmptyString => EmptyString
  end.

Fixpoint rstrip (s : string) : string :=
  match s with
  | String a s' =>
      match rstrip s' with
      | EmptyString => if is_space a then EmptyString else String a EmptyString
      | r => String a r
      end
  | EmptyString => EmptyString
  end.

(** [s.strip()] *)
Definition strip (s : string) : string := rstrip (lstrip s).

(** The search of [check_ffmpeg] through the application folders: an
    exception of [os.listdir] ends the search ([except: pass]). *)
Fixpoint search_ffmpeg (E : Env) (folders : list string) : option string :=
  match folders with
  | [] => None
  | folder :: rest =>
      match listdir E folder with
      | None => None
      | Some files =>
          if bool_decide ("ffmpeg.exe" ∈ files)
          then Some (path_join E folder "ffmpeg.exe")
          else search_ffmpeg E rest
      end
  end.

(** [check_ffmpeg]: the application folders first (on Windows), then the
    system, whose answer is stripped of white space and resolved; the
    path found is stored in [config.ffmpeg_actual_path]. *)
Definition check_ffmpeg (E : Env) : M bool :=
  log "check ffmpeg availability?" false ;;;
  c <- ask ;;
  let windows := bool_decide (config.operating_system (cfg c) = "Windows") in
  let local :=
    if windows
    then search_ffmpeg E [config.current_directory (cfg c);
                          config.global_sett_folder (cfg c)]
    else None in
  found <- match local with
           | Some p => act (with_ffmpeg_actual_path p) ;;; ret true
           | None =>
               let cmd := if windows then "where ffmpeg" else "which ffmpeg" in
               act (emit (RunCommand cmd)) ;;;
               if (run_command E cmd).1 then ret false
               else
                 let output := strip (run_command E cmd).2 in
                 act (with_ffmpeg_actual_path (realpath E output)) ;;;
                 ret true
           end ;;
  if found then log "ffmpeg checked ok! - at: " false ;;; ret true
  else log "can not find ffmpeg!!, install it, or add executable location to PATH"
           false ;;; ret false.

(** [rename]: a new name that is not in the folder, and the uid that
    goes with it. *)
Definition rename (E : Env) (o : nat) : M unit :=
  d <- deref o ;;
  match listdir E (folder d) with
  | None => raise
  | Some forbidden_names =>
      let n := auto_rename E (name d) forbidden_names in
      act (modify o (set_name_uid n (calculate_uid E n (folder d))))
  end.

(** [delete_file] *)
Definition delete_file (path : string) : M unit :=
  act (λ c, emit (DeleteFile path) (with_files (files c ∖ {[path]}) c)).

(** The last check: a download that can not be resumed needs the user's
    consent unless silent. *)
Definition check_resumable (E : Env) (o : nat) (silent : bool) : M bool :=
  d <- deref o ;;
  if negb (resumable d) && negb silent then
    act (emit (Popup 5)) ;;;
    if bool_decide (user_response E 5%nat ≠ "Yes") then ret false else ret true
  else ret true.

(** The search of [d_map] for an item with the same uid: resume when the
    sizes match, else rename and check again with [again]. *)
Definition check_d_map (E : Env) (again : M bool) (o : nat) (silent : bool)
  : M bool :=
  d <- deref o ;;
  c <- ask ;;
  match d_map c !! uid d with
  | Some o' =>
      log "download item already in list, check resume availability" false ;;;
      d_from_list <- deref o' ;;
      if bool_decide (total_size d = total_size d_from_list) then
        log "resume is possible" false ;;;
        act (modify o (set_downloaded (downloaded d_from_list))) ;;;
        check_resumable E o silent
      else
        log "Rename File" false ;;;
        rename E o ;;;
        again
  | None =>
      log "fresh file download" false ;;;
      check_resumable E o silent
  end.

(** The check for an existing file with the same name: rename and check
    again, or overwrite, or give up. *)
Definition check_target_file (E : Env) (again : M bool) (o : nat) (silent : bool)
  : M bool :=
  d <- deref o ;;
  c <- ask ;;
  if bool_decide (target_file d ∈ files c) then
    action <- (if config.auto_rename (cfg c) || silent then ret "Rename"
               else act (emit (Popup 4)) ;;; ret (user_response E 4%nat)) ;;
    if bool_decide (action ∉ ["Overwrite"; "Rename"]) then
      log "Download cancelled by user" false ;;; ret false
    else if bool_decide (action = "Rename") then
      rename E o ;;;
      log "File with the same name exist in download folder, generate new name:"
          false ;;;
      again
    else
      delete_file (target_file d) ;;;
      check_d_map E again o silent
  else check_d_map E again o silent.

(** The destination folder: write a test file into it and delete it,
    unless the test file is already there (left by another thread), in
    which case nothing is tried and nothing can fail.  [again] stands for
    the recursive call after a rename. *)
Definition check_folder (E : Env) (again : M bool) (o : nat) (silent : bool)
  : M bool :=
  let showpopup := negb silent in
  d <- deref o ;;
  c <- ask ;;
  let folder := if String.eqb (folder d) "" then config.download_folder (cfg c)
                else folder d in
  let failed (msg : string) : M bool :=
    log msg showpopup ;;;
    if config.test_mode (cfg c) then raise else ret false in
  let test_file_path := path_join E folder "test_file_.firedm" in
  match (if bool_decide (test_file_path ∈ files c) then FolderOk
         else folder_probe E folder) with
  | FolderNotFound => failed "destination folder does not exist"
  | FolderNoPermission =>
      failed "you don't have enough permission for destination folder"
  | FolderOtherError => failed "problem in destination folder"
  | FolderOk =>
      when (bool_decide (test_file_path ∉ files c))
           (act (emit (DeleteFile test_file_path))) ;;;
      act (modify o (set_folder folder)) ;;;
      d <- deref o ;;
      if String.eqb (name d) "" then
        log "File name can't be empty!!" showpopup ;;; ret false
      else check_target_file E again o silent
  end.

(** The body of [_pre_download_checks], with [again] for the recursive
    call.  The first test of the source, [not (d or d.url)], is never
    true for a download item and is left out. *)
Definition pre_download_checks_body (E : Env) (again : M bool) (o : nat)
    (silent : bool) : M bool :=
  let showpopup := negb silent in
  d <- deref o ;;
  c <- ask ;;
  html <- (if String.eqb (type d) "" || String.eqb (type d) "text/html" then
             if negb silent then
               act (emit (Popup 1)) ;;;
               when (bool_decide (user_response E 1%nat = "Ok"))
                    (act (modify o (set_accept_html true))) ;;;
               ret true
             else ret false
           else ret true) ;;
  if negb html then ret false
  else if Status.is_active (status d) then
    log "download is already in progress for this item" false ;;; ret false
  else
    match filter (λ item, item ∈ subtype_list d) ["f4m"; "ism"] with
    | _ :: _ =>
        log "unsupported protocol: stream type is not supported yet" showpopup ;;;
        ret false
    | [] =>
        ffmpeg <- (if bool_decide (type d ∈ [MediaType.video; MediaType.audio;
                                              MediaType.key]) then
                     found <- check_ffmpeg E ;;
                     if found then ret true
                     else
                       (if negb silent
                           && bool_decide (config.operating_system (cfg c) = "Windows")
                        then
                          act (emit (Popup 2)) ;;;
                          when (bool_decide (user_response E 2%nat = "Download"))
                               (act (emit DownloadFfmpeg))
                        else log "FFMPEG is missing" showpopup) ;;;
                       ret false
                   else ret true) ;;
        if negb ffmpeg then ret false
        else check_folder E again o silent
    end.

(** [_pre_download_checks]: it calls itself after every rename, with no
    bound of its own; the interpreter's recursion limit ends it with a
    RecursionError. *)
Fixpoint pre_download_checks_rec (E : Env) (depth : nat) (o : nat) (silent : bool)
  : M bool :=
  match depth with
  | O => raise
  | S depth =>
      pre_download_checks_body E (pre_download_checks_rec E depth o silent)
                               o silent
  end.

Definition _pre_download_checks (E : Env) (o : nat) (silent : bool) : M bool :=
  pre_download_checks_rec E (recursion_limit E) o silent.

(** ** Downloading *)

(** [report_d] runs in a thread of its own and sends all the properties
    of the item to the view; the call is recorded. *)
Definition report_d (o : nat) (command : option string) : M unit :=
  act (emit (ReportD o command)).

(** [copy(d)]: a new object with the same attributes. *)
Definition copy (o : nat) : M nat :=
  d <- deref o ;;
  c <- ask ;;
  act (with_heap (heap c ++ [d])) ;;;
  ret (length (heap c)).

(** The character [;]. *)
Definition semicolon : Ascii.ascii := Ascii.ascii_of_nat 59.

(** [s.split(sep)[0]]: what comes before the first [sep]. *)
Fixpoint split_head (sep : Ascii.ascii) (s : string) : string :=
  match s with
  | String a s' =>
      if Ascii.eqb a sep then EmptyString else String a (split_head sep s')
  | EmptyString => EmptyString
  end.

(** [auto_refresh_url]: a fresh effective url for a plain file unless the
    server now answers with a web page (the content type is read up to
    its first semicolon); for video and audio the item is replaced by a
    newly extracted one and observed again.  The extraction is taken
    with its own handler: an exception that [create_video_playlist]
    raises again in test mode is not followed here. *)
Definition auto_refresh_url (E : Env) (o : nat) : M unit :=
  act (emit (RefreshUrl o)) ;;;
  log "auto refresh url for:" false ;;;
  d <- deref o ;;
  if bool_decide (type d ∉ [MediaType.video; MediaType.audio]) then
    let '(eff_url, header) := refresh_headers E (url d) in
    let content_type := split_head semicolon header in
    when (bool_decide (content_type ≠ "text/html"))
         (act (modify o (set_eff_url eff_url)))
  else
    match refresh_media E d with
    | Some refreshed_d => act (modify o (λ _, set_callback true refreshed_d))
    | None => ret tt
    end.

(** The loop of [download_simulator]: 100 KiB every half second until
    the size is reached or the item is cancelled. *)
Fixpoint simulator_loop (turns : nat) (d : Job) : Job :=
  match turns with
  | O => d
  | S turns =>
      let d := set_downloaded (downloaded d + 200 / 2 * 1024) d in
      if (downloaded d >=? total_size d)%Z then
        set_downloaded (total_size d) (set_status Status.completed d)
      else if bool_decide (status d = Status.cancelled) then d
      else simulator_loop turns d
  end.

(** [download_simulator], run to its end with nobody else touching the
    item: the number of turns is what the remaining size needs. *)
Definition download_simulator (d : Job) : Job :=
  let d := set_status Status.downloading d in
  let d := if (downloaded d >=? total_size d)%Z then set_downloaded 0 d else d in
  simulator_loop (Z.to_nat ((total_size d - downloaded d) / (200 / 2 * 1024)) + 1) d.

(** [range(n)] *)
Definition py_range (n : Z) : list Z := Z.of_nat <$> seq 0 (Z.to_nat n).

(** [t.start(); t.join()]: one transfer attempt, by the simulator or by
    the engine, which leaves the item as it is when the thread ends. *)
Definition run_thread (E : Env) (o : nat) (n : Z) : M unit :=
  act (emit (ThreadStart o)) ;;;
  c <- ask ;;
  act (modify o (if config.simulator (cfg c) then download_simulator
                 else brain E (Z.to_nat n))).

(** The rest of the loop body after [t.join()] in attempt [n]; [false]
    is the [break]. *)
Definition after_join (E : Env) (o : nat) (silent : bool) (n : Z) : M bool :=
  d <- deref o ;;
  c <- ask ;;
  if bool_decide (status d ≠ Status.error) then ret false
  else if (n >=? config.refresh_url_retries (cfg c))%Z then
    log "controller: too many connection errors" (negb silent) ;;;
    ret true
  else
    act (modify o (set_status Status.refreshing_url)) ;;;
    act (modify o (set_errors 0)) ;;;
    report_d o None ;;;
    auto_refresh_url E o ;;;
    ret true.

(** [for n in range(config.refresh_url_retries + 1)] over the remaining
    values [ns] of [n]. *)
Fixpoint retry_loop (E : Env) (o : nat) (silent : bool) (ns : list Z) : M unit :=
  match ns with
  | [] => ret tt
  | n :: ns =>
      run_thread E o n ;;;
      continue <- after_join E o silent n ;;
      if continue then retry_loop E o silent ns else ret tt
  end.

(** The admission test: with [config.max_concurrent_downloads] active
    items or more the item becomes pending and is queued ([true]). *)
Definition admission (o : nat) : M bool :=
  c <- ask ;;
  if (active_downloads c >=? config.max_concurrent_downloads (cfg c))%Z then
    act (modify o (set_status Status.pending)) ;;;
    act (λ c, with_pending (pending_downloads_q c ++ [o]) c) ;;;
    ret true
  else ret false.

(** After the checks have passed: tell the view, observe the item and
    put it into [d_map]. *)
Definition register (o : nat) : M unit :=
  report_d o (Some "new") ;;;
  act (modify o (set_callback true)) ;;;
  d <- deref o ;;
  act (λ c, with_d_map (<[uid d := o]> (d_map c)) c).

(** The end of [download]: the view, the actions after the download and
    the report of a completed file. *)
Definition download_done (E : Env) (o : nat) : M unit :=
  report_d o None ;;;
  _post_download E o ;;;
  d <- deref o ;;
  c <- ask ;;
  if bool_decide (status d = Status.completed) then
    when (config.on_download_notification (cfg c)) (act (emit (OsNotify o))) ;;;
    log "File saved at:" false
  else ret tt.

(** [except Exception as e] of [download] *)
Definition download_except : M unit :=
  log "download()> error:" false ;;;
  c <- ask ;;
  if config.test_mode (cfg c) then raise else ret tt.

(** The part of [download] inside the [try], up to the retry loop: the
    checks, the registration and the admission. *)
Definition check_and_admit (E : Env) (o : nat) (silent download_later : bool)
  : M (option nat) :=
  pre_checks <- _pre_download_checks E o silent ;;
  if pre_checks then
    register o ;;;
    if negb download_later then
      queued <- admission o ;;
      if queued then ret None else ret (Some o)
    else download_done E o ;;; ret None
  else ret None.

(** [download] up to the retry loop: look the item up, copy it, then
    check it, register it and decide on its admission.  The result is the
    object to transfer, or [None] when the call is over (nothing to
    download, a failed check, a queued item, or [download_later]).  The
    [try] of the source spans this part and the next one; its handler is
    attached to both. *)
Definition download_begin (E : Env) (d : option nat) (uid : option string)
    (video_idx : option Z) (silent download_later : bool) (kwargs : Item)
  : M (option nat) :=
  c <- ask ;;
  match (match d with Some o => Some o | None => get_d c uid video_idx end) with
  | None => log "Nothing to download" (negb silent) ;;; ret None
  | Some d =>
      o <- copy d ;;
      act (modify o (λ d, update_object E d kwargs)) ;;;
      try_except (check_and_admit E o silent download_later)
                 (download_except ;;; ret None)
  end.

(** The retry loop and the end of [download], every transfer attempt
    awaited in turn. *)
Definition download_attempts (E : Env) (o : nat) (silent : bool) : M unit :=
  try_except
    (c <- ask ;;
     retry_loop E o silent (py_range (config.refresh_url_retries (cfg c) + 1)) ;;;
     download_done E o)
    download_except.

(** [download], run in one go. *)
Definition download (E : Env) (d : option nat) (uid : option string)
    (video_idx : option Z) (silent download_later : bool) (kwargs : Item)
  : M unit :=
  admitted <- download_begin E d uid video_idx silent download_later kwargs ;;
  match admitted with
  | Some o => download_attempts E o silent
  | None => ret tt
  end.

(** [delete]: the item leaves [d_map] and is cancelled; a uid that is
    not there is a KeyError. *)
Definition Controller_delete (uid : string) : M unit :=
  c <- ask ;;
  match d_map c !! uid with
  | None => raise
  | Some o =>
      act (λ c, with_d_map (delete uid (d_map c)) c) ;;;
      act (modify o (set_status Status.cancelled)) ;;;
      act (emit (DeleteTempfiles o))
  end.

(** ** The controller's threads, step by step

    [download] is [@threaded]: a call returns at once and the body runs
    in a thread of its own, so the calls made by the user interface and
    by the two handlers run side by side, and each of them waits in
    [t.join()] while its transfer runs.  A download thread is followed
    through four places: called and not yet run; admitted and at the
    head of its loop, the transfer not yet under way; waiting in
    [t.join()] while the transfer runs; and with the transfer over,
    [t.join()] about to return.  A thread in its loop is recorded with
    the object it drives and the values of [n] the loop still has to go
    through (the head is the current attempt).  What a thread does
    between two of these places is taken as one step; the transfer is
    under way from the moment it has marked its item as downloading. *)

Inductive LoopPc :=
| AtStart    (* at the head of the loop body, the transfer not under way *)
| InJoin     (* in [t.join()], the transfer running *)
| Joined.    (* the transfer has ended, [t.join()] is about to return *)

Inductive DlThread :=
| Called (d : option nat) (uid : option string) (video_idx : option Z)
         (silent download_later : bool) (kwargs : Item)
| Looping (o : nat) (silent : bool) (ns : list Z) (pc : LoopPc)
| Ended.

(** Where the pending handler is: at the test of the active downloads or
    inside [self.pending_downloads_q.get()], which blocks on an empty
    queue. *)
Inductive DrainPc := AtCheck | InGet.

Record System := mkSys {
  ctl : Controller;
  threads : list DlThread;
  drain_pc : DrainPc
}.

(** Modelled from the spec: the transfer engine (brain.py) is not part of
    the sources.  As in the state machine of the retry protocol, and as
    [download_simulator] does in its first statement, the engine marks
    the item as downloading when its thread starts; when it ends the item
    is completed, cancelled or in error. *)
Definition begin_attempt (o : nat) : M unit :=
  act (emit (ThreadStart o)) ;;;
  act (modify o (set_status Status.downloading)).

Definition terminal_states : list Status.t :=
  [Status.completed; Status.cancelled; Status.error].

(** The head of the loop for the remaining values [ns]: the thread is
    about to start the next transfer, or the loop is over and [download]
    runs to its end. *)
Definition next_attempt (E : Env) (o : nat) (silent : bool) (ns : list Z)
  : M DlThread :=
  match ns with
  | [] => download_done E o ;;; ret Ended
  | _ :: _ => ret (Looping o silent ns AtStart)
  end.

(** The thread of a call of [download] from its first statement to the
    head of the loop: the checks, the registration and the admission
    test.  No transfer is started here. *)
Definition submit (E : Env) (d : option nat) (uid : option string)
    (video_idx : option Z) (silent download_later : bool) (kwargs : Item)
  : M DlThread :=
  admitted <- download_begin E d uid video_idx silent download_later kwargs ;;
  match admitted with
  | Some o =>
      try_except
        (c <- ask ;;
         next_attempt E o silent
           (py_range (config.refresh_url_retries (cfg c) + 1)))
        (download_except ;;; ret Ended)
  | None => ret Ended
  end.

(** A download thread from the return of [t.join()] to the head of the
    loop, or to its end. *)
Definition resume (E : Env) (o : nat) (silent : bool) (ns : list Z)
  : M DlThread :=
  match ns with
  | [] => ret Ended
  | n :: ns =>
      try_except
        (continue <- after_join E o silent n ;;
         next_attempt E o silent (if continue then ns else []))
        (download_except ;;; ret Ended)
  end.

(** What is left of a thread after a step; an exception ends it. *)
Definition after (r : Outcome DlThread) : DlThread :=
  match r with
  | Ret t => t
  | Raise => Ended
  end.

(** The pause of the pending handler between two turns. *)
Definition drain_interval : Z := 3000.

(** [_pending_downloads_handler], the test at the head of a turn: with a
    free slot the handler goes on to take an item from the queue, else it
    sleeps and tests again. *)
Definition drain_check (c : Controller) : Controller * DrainPc :=
  if (active_downloads c <? config.max_concurrent_downloads (cfg c))%Z
  then (c, InGet)
  else (emit (Sleep drain_interval) c, AtCheck).

(** [self.download(d, silent=True)], as both handlers call it. *)
Definition silent_call (o : nat) : DlThread :=
  Called (Some o) None None true false ∅.

(** [_pending_downloads_handler], once [get()] has an item: the head of
    the queue is taken and, if it is still pending, [download] is called
    for it; then the handler sleeps.  [None]: the queue is empty and
    [get()] blocks.  The result lists the calls made. *)
Definition drain_take (c : Controller) : option (Controller * list DlThread) :=
  match pending_downloads_q c with
  | [] => None
  | o :: q =>
      let c := with_pending q c in
      let calls := if bool_decide (status_of c o = Some Status.pending)
                   then [silent_call o] else [] in
      Some (emit (Sleep drain_interval) c, calls)
  end.

(** The handler of scheduled downloads sleeps a minute between turns. *)
Definition sched_interval : Z := 60000.

(** [d.sched and datetime.fromisoformat(d.sched) <= current_datetime] *)
Definition due (now : Z) (d : Job) : bool :=
  match sched d with
  | Some t => (t <=? now)%Z
  | None => false
  end.

(** [for d in sched_downloads]: [download(d, silent=True)] is called for
    every item whose time has come. *)
Definition scheduled_calls (now : Z) (c : Controller) (ds : list nat)
  : list DlThread :=
  omap (λ o, match heap c !! o with
             | Some d => if due now d then Some (silent_call o) else None
             | None => None
             end) ds.

(** One turn of the [while True] loop of [_scheduled_downloads_handler],
    with [now] the value of [datetime.now()]: the calls, then the
    sleep. *)
Definition scheduled_turn (now : Z) (c : Controller)
  : Controller * list DlThread :=
  let sched_downloads :=
    filter (λ o, status_of c o = Some Status.scheduled) (d_map_values c) in
  (emit (Sleep sched_interval) c, scheduled_calls now c sched_downloads).

(** What happens next in the application. *)
Inductive Action :=
| ADownload (d : option nat) (uid : option string) (video_idx : option Z)
            (silent download_later : bool) (kwargs : Item)
                                       (* [download] is called *)
| ABegin (i : nat)                     (* thread [i] runs up to its loop *)
| AStart (i : nat)                     (* the transfer of thread [i] starts *)
| AEngineEnd (i : nat) (s : Status.t)  (* the transfer of thread [i] ends *)
| AJoin (i : nat)                      (* [t.join()] returns in thread [i] *)
| ADrain                               (* the pending handler moves on *)
| AScheduled (now : Z)                 (* a turn of the scheduled handler *)
| AStop (uid : string)
| ADelete (uid : string)
| AScheduleStart (now : Z) (uid : option string) (video_idx : option Z)
                 (target_date : pyarg)
| AScheduleCancel (uid : option string) (video_idx : option Z).

(** One step of the application; [None] when the action can not happen
    (no such thread, a thread that is elsewhere, an empty queue).
    Threads are numbered in the order of their calls. *)
Definition exec (E : Env) (a : Action) (s : System) : option System :=
  match a with
  | ADownload d uid video_idx silent download_later kwargs =>
      Some (mkSys (ctl s)
                  (threads s ++ [Called d uid video_idx silent download_later
                                        kwargs])
                  (drain_pc s))
  | ABegin i =>
      match threads s !! i with
      | Some (Called d uid video_idx silent download_later kwargs) =>
          let '(c, r) :=
            submit E d uid video_idx silent download_later kwargs (ctl s) in
          Some (mkSys c (<[i := after r]> (threads s)) (drain_pc s))
      | _ => None
      end
  | AStart i =>
      match threads s !! i with
      | Some (Looping o silent ns AtStart) =>
          Some (mkSys (begin_attempt o (ctl s)).1
                      (<[i := Looping o silent ns InJoin]> (threads s))
                      (drain_pc s))
      | _ => None
      end
  | AEngineEnd i st =>
      match threads s !! i with
      | Some (Looping o silent ns InJoin) =>
          if bool_decide (st ∈ terminal_states) then
            Some (mkSys (modify o (set_status st) (ctl s))
                        (<[i := Looping o silent ns Joined]> (threads s))
                        (drain_pc s))
          else None
      | _ => None
      end
  | AJoin i =>
      match threads s !! i with
      | Some (Looping o silent ns Joined) =>
          let '(c, r) := resume E o silent ns (ctl s) in
          Some (mkSys c (<[i := after r]> (threads s)) (drain_pc s))
      | _ => None
      end
  | ADrain =>
      match drain_pc s with
      | AtCheck =>
          let '(c, pc) := drain_check (ctl s) in
          Some (mkSys c (threads s) pc)
      | InGet =>
          match drain_take (ctl s) with
          | Some (c, calls) => Some (mkSys c (threads s ++ calls) AtCheck)
          | None => None
          end
      end
  | AScheduled now =>
      let '(c, calls) := scheduled_turn now (ctl s) in
      Some (mkSys c (threads s ++ calls) (drain_pc s))
  | AStop uid => Some (mkSys (stop_download uid (ctl s)) (threads s) (drain_pc s))
  | ADelete uid =>
      Some (mkSys (Controller_delete uid (ctl s)).1 (threads s) (drain_pc s))
  | AScheduleStart now uid video_idx target_date =>
      Some (mkSys (schedule_start now uid video_idx target_date (ctl s))
                  (threads s) (drain_pc s))
  | AScheduleCancel uid video_idx =>
      Some (mkSys (schedule_cancel uid video_idx (ctl s)) (threads s) (drain_pc s))
  end.

(** A run of the application. *)
Fixpoint run (E : Env) (acts : list Action) (s : System) : option System :=
  match acts with
  | [] => Some s
  | a :: acts =>
      match exec E a s with
      | Some s' => run E acts s'
      | None => None
      end
  end.

(** ** The watchdog over its polls *)

(** The events of the actions the watchdog runs when all is completed. *)
Definition is_action_event (e : Event) : bool :=
  match e with
  | RunCommand _ | SaveSettings => true
  | _ => false
  end.

(** A poll that took the controller from [c] to [c'] has fired when it
    ran a command or began the shutdown. *)
Definition poll_fired (c c' : Controller) : bool :=
  existsb is_action_event (drop (length (out c)) (out c')).

(** The watchdog thread meets the controller in the states [polls], one
    per wake-up, starting with the given [trigger]; the result tells for
    each poll whether it fired.  The list ends early at the [break]. *)
Fixpoint watchdog_fires (E : Env) (trigger : bool) (polls : list Controller)
  : list bool :=
  match polls with
  | [] => []
  | c :: polls =>
      match watchdog_poll E trigger c with
      | None => []
      | Some (c', trigger') =>
          poll_fired c c' :: watchdog_fires E trigger' polls
      end
  end.

(** ** A small installation for the examples *)

Definition demo_cfg : config.t :=
  config.mk 1 1 false false false false false "" false false false
            "/dl" "Linux" "/app" "/home/.config" false.

Definition demo_job (n : string) (s : Status.t) : Job :=
  mkJob ("uid_" ++ n)%string n "/dl" ("http://host/" ++ n)%string
        ("http://host/" ++ n)%string "application/zip" [] s 1000 0 true 0
        None "" false "" false 0 0 0 false.

(** A world in which nothing fails except the transfer, which always
    ends in error. *)
Definition demo_env : Env :=
  mkEnv (λ _, "") (λ _, FolderOk) (λ _, Some [])
        (λ n _, (n ++ "_2")%string) (λ n _, ("uid_" ++ n)%string)
        (λ d _, d) (λ _, (false, "")) (λ _, Some None) (λ _, true)
        (λ _, true) (λ _, true) (λ u, (u, "application/zip")) (λ _, None)
        (λ _ d, set_status Status.error d) 1000%nat
        (λ a b, (a ++ "/" ++ b)%string) (λ p, p).

(** Two items in the playlist, nothing in [d_map] yet. *)
Definition demo_ctl : Controller :=
  mkCtl [demo_job "a" Status.cancelled; demo_job "b" Status.cancelled]
        ∅ [] [] [0%nat; 1%nat] ∅ demo_cfg "" [].

(** One item in [d_map] with the given status. *)
Definition demo_one (s : Status.t) : Controller :=
  mkCtl [demo_job "a" s] {[ "uid_a" := 0%nat ]} [] [] [] ∅ demo_cfg "" [].

Definition demo_sys : System := mkSys demo_ctl [] AtCheck.

(** ** Vocabulary of the statements *)

(** A target the scheduler turns down: a date before [now], or a value
    that is not a date at all. *)
Definition rejected_target (now : Z) (target_date : pyarg) : Prop :=
  match target_date with
  | PyDatetime t => t < now
  | PyOther _ => True
  end.

(** The identifiers carried by the events of a flush window, in order
    of arrival; events without a usable uid are ignored by [_observer]. *)
Definition window_uids (items : list Item) : list pyval :=
  filter (λ u, truthy u = true) ((λ item, dict_get item "uid") <$> items).

(** Identifiers in the order in which they were first seen. *)
Fixpoint first_seen (uids : list pyval) : list pyval :=
  match uids with
  | [] => []
  | u :: uids => u :: filter (λ v, v ≠ u) (first_seen uids)
  end.

(** The value of field [k] for identifier [u] after the events [items]:
    the one set by the last event of [u] that has the field. *)
Fixpoint last_write (u : pyval) (k : string) (items : list Item) : option pyval :=
  match items with
  | [] => None
  | item :: items =>
      match last_write u k items with
      | Some x => Some x
      | None => if decide (dict_get item "uid" = u) then item !! k else None
      end
  end.

(** The identifier a notification to the view is about. *)
Definition event_uid (e : Event) : pyval :=
  match e with
  | ViewUpdate kw => dict_get kw "uid"
  | _ => VNone
  end.

(** The [total_speed] notifications among some events. *)
Definition is_total_speed (e : Event) : bool :=
  match e with
  | ViewUpdate kw => bool_decide (kw !! "command" = Some (VStr "total_speed"))
  | _ => false
  end.

(** The events a step added to the trace. *)
Definition new_events (c c' : Controller) : list Event :=
  drop (length (out c)) (out c').

(** The value the buffer holds for a uid. *)
Fixpoint buffer_get (buffer : list (pyval * Item)) (uid : pyval) : option Item :=
  match buffer with
  | [] => None
  | (k, v) :: rest => if decide (k = uid) then Some v else buffer_get rest uid
  end.

(** What one flush sends for a consolidated event [v]. *)
Definition flush_of (c : Controller) (v : Item) : list Event :=
  [ViewUpdate (total_speed_kw c); ViewUpdate (view_kwargs c v)].

(** The running example of the aggregator: one downloading item and two
    progress events for it in the queue. *)
Definition demo_window : Controller :=
  with_observer_q
    [ {[ "uid" := VStr "uid_a"; "downloaded" := VInt 100 ]};
      {[ "uid" := VStr "uid_a"; "downloaded" := VInt 250 ]} ]
    (demo_one Status.downloading).

(** Two downloading items, one event for each in the queue. *)
Definition demo_two_uids : Controller :=
  mkCtl [demo_job "a" Status.downloading; demo_job "b" Status.downloading]
        {[ "uid_a" := 0%nat; "uid_b" := 1%nat ]} []
        [ {[ "uid" := VStr "uid_a"; "downloaded" := VInt 100 ]};
          {[ "uid" := VStr "uid_b"; "downloaded" := VInt 200 ]} ]
        [] ∅ demo_cfg "" [].

(** How often the transfer of object [o] was started, and how often its
    url was refreshed, among some events. *)
Definition thread_starts (o : nat) (evs : list Event) : nat :=
  length (filter (λ e, e = ThreadStart o) evs).

Definition refreshes (o : nat) (evs : list Event) : nat :=
  length (filter (λ e, e = RefreshUrl o) evs).

(** The failure message at the end of the retries. *)
Definition too_many_errors (silent : bool) : Event :=
  Log "controller: too many connection errors" (negb silent).

(** The events of attempt [n] when the transfer ends in error. *)
Definition failed_attempt (retries : Z) (o : nat) (silent : bool) (n : Z)
  : list Event :=
  ThreadStart o
  :: (if (n >=? retries)%Z then [too_many_errors silent]
      else [ReportD o None; RefreshUrl o; Log "auto refresh url for:" false]).

(** ** Calls that leave the download list alone *)

Definition is_thread_start (e : Event) : bool :=
  match e with
  | ThreadStart _ => true
  | _ => false
  end.

(** [quiet c c']: from [c] to [c'] nothing was put into or taken out of
    [d_map], the pending queue and the settings; no object was created,
    no status changed, no observer was registered, and no transfer
    thread was started.  Other attributes of the items, the files and
    the trace may have changed. *)
Record quiet (c c' : Controller) : Prop := mkQuiet {
  quiet_d_map : d_map c' = d_map c;
  quiet_cfg : cfg c' = cfg c;
  quiet_pending : pending_downloads_q c' = pending_downloads_q c;
  quiet_length : length (heap c') = length (heap c);
  quiet_status : ∀ o, status_of c' o = status_of c o;
  quiet_callback : ∀ o, callback <$> heap c' !! o = callback <$> heap c !! o;
  quiet_out : ∃ evs, out c' = out c ++ evs
                     ∧ forallb (λ e, negb (is_thread_start e)) evs = true
}.

(** A call is quiet when it is so from every state, whatever it returns
    or raises. *)
Definition M_quiet {A} (m : M A) : Prop :=
  ∀ c c' r, m c = (c', r) → quiet c c'.

(** A web page in the playlist: its content type is text/html. *)
Definition demo_html : Controller :=
  mkCtl [mkJob "uid_page" "page" "/dl" "http://host/page" "http://host/page"
               "text/html" [] Status.cancelled 1000 0 true 0 None "" false ""
               false 0 0 0 false]
        ∅ [] [] [0%nat] ∅ demo_cfg "" [].

(** Append several events to the trace. *)
Definition emit_all (evs : list Event) (c : Controller) : Controller :=
  mkCtl (heap c) (d_map c) (pending_downloads_q c) (observer_q c) (playlist c)
        (files c) (cfg c) (ffmpeg_actual_path c) (out c ++ evs).

(** ** What the actions leave in the trace *)

(** [Controller.shutdown_pc]: the settings are saved, the shutdown
    command is issued, and either its failure is shown, or the user is
    offered to abort and the command is taken back or the view closed. *)
Definition shutdown_events (E : Env) (c : Controller) : list Event :=
  let windows := bool_decide (config.operating_system (cfg c) = "Windows") in
  let cmd := if windows then "shutdown -s -t 120" else "shutdown --poweroff +2" in
  let abort_cmd := if windows then "shutdown -a" else "shutdown -c" in
  [SaveSettings; RunCommand cmd]
  ++ (if (run_command E cmd).1 then [Log "error:" true]
      else [Popup 0;
            if bool_decide (user_response E 0%nat = "ABORT!")
            then RunCommand abort_cmd else ViewQuit]).

(** The action of the watchdog: the configured command, then the
    shutdown if configured. *)
Definition post_batch_events (E : Env) (c : Controller) : list Event :=
  (if String.eqb (config.on_completion_command (cfg c)) "" then []
   else [RunCommand (config.on_completion_command (cfg c))])
  ++ (if config.shutdown_pc (cfg c) then shutdown_events E c else []).

(** What each poll of the watchdog adds to the trace, for the polls of
    [watchdog_fires]. *)
Fixpoint watchdog_trace (E : Env) (trigger : bool) (polls : list Controller)
  : list (list Event) :=
  match polls with
  | [] => []
  | c :: polls =>
      match watchdog_poll E trigger c with
      | None => []
      | Some (c', trigger') =>
          new_events c c' :: watchdog_trace E trigger' polls
      end
  end.

(** The thumbnail of a completed item that has one is fetched; a
    failure is logged. *)
Definition thumbnail_events (E : Env) (o : nat) (d : Job) : list Event :=
  if bool_decide (status d = Status.completed)
     && negb (String.eqb (thumbnail_url d) "")
  then FetchThumbnail o
       :: (if thumbnail_fetch_ok E d then []
           else [Log "controller._download_thumbnail()> error:" false])
  else [].

Definition thumbnail_fails (E : Env) (d : Job) : bool :=
  bool_decide (status d = Status.completed)
  && negb (String.eqb (thumbnail_url d) "")
  && negb (thumbnail_fetch_ok E d).

(** The checksums, computed and logged. *)
Definition checksum_events (o : nat) : list Event :=
  [ Log "" false; Log "Calculating MD5 and SHA256" false; CalcChecksum o;
    Log "MD5:" false; Log "SHA256:" false ].

(** The time the server reports is written to the file of a completed
    item; a failure to get or to write it is logged. *)
Definition timestamp_events (E : Env) (o : nat) (d : Job) : list Event :=
  if bool_decide (status d = Status.completed) then
    match last_modified E d with
    | None => [Log "controller._write_timestamp()> error:" false]
    | Some None => []
    | Some (Some t) =>
        [Log "writing last modified timestamp" false; Utime o t]
        ++ (if utime_ok E d then []
            else [Log "controller._write_timestamp()> error:" false])
    end
  else [].

Definition timestamp_fails (E : Env) (d : Job) : bool :=
  bool_decide (status d = Status.completed)
  && match last_modified E d with
     | None => true
     | Some None => false
     | Some (Some _) => negb (utime_ok E d)
     end.

(** The command of the item is run; its failure is logged. *)
Definition command_events (E : Env) (d : Job) : list Event :=
  if String.eqb (on_completion_command d) "" then []
  else RunCommand (on_completion_command d)
       :: (if (run_command E (on_completion_command d)).1
           then [Log "error executing command:" false] else []).

(** The actions after a completed download with what each of them leaves
    in the trace, in their order: thumbnail, checksum, timestamp,
    command, shutdown. *)
Definition post_download_actions (E : Env) (o : nat) (c : Controller) (d : Job)
  : list (list Event) :=
  [ if config.download_thumbnail (cfg c) then thumbnail_events E o d else [];
    if config.checksum (cfg c) then checksum_events o else [];
    if config.use_server_timestamp (cfg c) then timestamp_events E o d else [];
    command_events E d;
    if shutdown_pc d then shutdown_events E c else [] ].

(** A finished download with a thumbnail to fetch and a command to run
    on completion, in or outside test mode. *)
Definition demo_finished_job : Job :=
  mkJob "uid_a" "a" "/dl" "http://host/a" "http://host/a" "application/zip" []
        Status.completed 1000 1000 true 0 None "echo done" false
        "http://host/a.png" false 0 0 0 true.

Definition demo_finished (test_mode : bool) : Controller :=
  mkCtl [demo_finished_job] {[ "uid_a" := 0%nat ]} [] [] [] ∅
        (config.mk 1 1 false test_mode true false false "" false false false
                   "/dl" "Linux" "/app" "/home/.config" false)
        "" [].

(** The demo world, except that no thumbnail can be fetched. *)
Definition demo_env_no_thumbnail : Env :=
  mkEnv (user_response demo_env) (folder_probe demo_env) (listdir demo_env)
        (auto_rename demo_env) (calculate_uid demo_env)
        (update_object demo_env) (run_command demo_env)
        (last_modified demo_env) (λ _, false) (utime_ok demo_env)
        (checksum_ok demo_env) (refresh_headers demo_env)
        (refresh_media demo_env) (brain demo_env) (recursion_limit demo_env)
        (path_join demo_env) (realpath demo_env).

(** ** Well-formed controllers *)

(** Every entry of [d_map] is an object of the heap. *)
Definition wf (c : Controller) : Prop :=
  ∀ uid o, d_map c !! uid = Some o → (o < length (heap c))%nat.

(** The number of active items among some objects. *)
Definition active_among (c : Controller) (os : list nat) : nat :=
  length (filter (λ o, active_obj c o = true) os).

(** The ceiling on the active downloads holds in [c]. *)
Definition ceiling_ok (c : Controller) : Prop :=
  active_downloads c ≤ config.max_concurrent_downloads (cfg c).

(** No object is listed in [d_map] under two uids. *)
Definition distinct (c : Controller) : Prop :=
  ∀ u u' o, d_map c !! u = Some o → d_map c !! u' = Some o → u = u'.

(** A download that has passed the admission test and whose transfer
    is not under way yet: its item does not count as active. *)
Definition at_start (t : DlThread) : bool :=
  match t with
  | Looping _ _ _ AtStart => true
  | _ => false
  end.

(** The number of such downloads. *)
Definition in_flight (s : System) : nat :=
  length (filter (λ t, at_start t = true) (threads s)).

(** The steps of an orderly run: a download is tested for admission only
    when no admitted download is still waiting for its transfer to get
    under way, and a download whose transfer has failed does not return
    from [t.join()]. *)
Definition admissible (s : System) (a : Action) : bool :=
  match a with
  | ABegin _ => bool_decide (in_flight s = 0%nat)
  | AJoin i =>
      match threads s !! i with
      | Some (Looping o _ _ _) =>
          bool_decide (status_of (ctl s) o ≠ Some Status.error)
      | _ => true
      end
  | _ => true
  end.

Fixpoint orderly (E : Env) (acts : list Action) (s : System) : bool :=
  match acts with
  | [] => true
  | a :: acts =>
      admissible s a
      && match exec E a s with
         | Some s' => orderly E acts s'
         | None => true
         end
  end.

(** [download(d, silent=True)] for the playlist item [o], as the user
    interface calls it. *)
Definition demo_call (o : nat) : Action :=
  ADownload (Some o) None None true false ∅.

(** Two downloads with a ceiling of one: the first fails, the second is
    admitted and started before the first returns from [t.join()], then
    the first goes on to refresh its url. *)
Definition demo_refresh_run : list Action :=
  [ demo_call 0; ABegin 0; AStart 0; AEngineEnd 0 Status.error;
    demo_call 1; ABegin 1; AStart 1;
    AJoin 0 ].

(** Two downloads with a ceiling of one, called together: both are
    tested for admission before either has started its transfer. *)
Definition demo_race_run : list Action :=
  [ demo_call 0; demo_call 1; ABegin 0; ABegin 1; AStart 0; AStart 1 ].

(** Two downloads with a ceiling of one and no failure, one after the
    other: the second waits in the queue until the first has ended, and
    is then called again by the pending handler and started. *)
Definition demo_queue_run : list Action :=
  [ demo_call 0; ABegin 0; AStart 0;
    demo_call 1; ABegin 1;
    ADrain;
    AEngineEnd 0 Status.completed; AJoin 0;
    ADrain; ADrain;
    ABegin 2; AStart 2 ].

(** Three items in the playlist, nothing in [d_map] yet. *)
Definition demo_three : System :=
  mkSys (mkCtl [demo_job "a" Status.cancelled; demo_job "b" Status.cancelled;
                demo_job "c" Status.cancelled]
               ∅ [] [] [0%nat; 1%nat; 2%nat] ∅ demo_cfg "" [])
        [] AtCheck.

(** Three downloads with a ceiling of one.  The pending handler has
    found a free slot and waits in [get()] on the empty queue.  The
    first download is started; the second is queued, and handed at once
    to the waiting handler, which calls [download] for it; the third is
    queued; the call made for the second finds the ceiling reached and
    puts it back, behind the third.  When the first download has
    completed, the handler takes the third and it is started. *)
Definition demo_reorder_run : list Action :=
  [ ADrain;
    demo_call 0; ABegin 0; AStart 0;
    demo_call 1; ABegin 1;
    ADrain;
    demo_call 2; ABegin 3;
    ABegin 2;
    AEngineEnd 0 Status.completed;
    ADrain; ADrain;
    ABegin 4; AStart 4 ].

(** The first download has completed, the second is pending and has
    just been taken from the queue by the handler, which has called
    [download] for it. *)
Definition demo_taken : System :=
  mkSys (mkCtl [demo_job "a" Status.completed; demo_job "b" Status.pending]
               {[ "uid_a" := 0%nat; "uid_b" := 1%nat ]} [] [] [] ∅ demo_cfg ""
               [])
        [silent_call 1] AtCheck.

(** One item downloading and one pending in the queue. *)
Definition demo_queued : Controller :=
  mkCtl [demo_job "a" Status.downloading; demo_job "b" Status.pending]
        {[ "uid_a" := 0%nat; "uid_b" := 1%nat ]} [1%nat] [] [] ∅ demo_cfg "" [].

(** [wf], computed. *)
Definition wfb (c : Controller) : bool :=
  forallb (λ o, (o <? length (heap c))%nat) (d_map_values c).

(** One item with the given status, and a command to run when all
    downloads are completed. *)
Definition demo_watched (s : Status.t) : Controller :=
  mkCtl [demo_job "a" s] {[ "uid_a" := 0%nat ]} [] [] [] ∅
        (config.mk 1 1 false false false false false "echo all done" false
                   false false "/dl" "Linux" "/app" "/home/.config" false)
        "" [].

(** One pending item, and two url refreshes allowed. *)
Definition demo_two_retries : Controller :=
  mkCtl [demo_job "a" Status.pending] {[ "uid_a" := 0%nat ]} [] [] [] ∅
        (config.mk 1 2 false false false false false "" false false false
                   "/dl" "Linux" "/app" "/home/.config" false)
        "" [].

(** ** Flags of single items: shutdown and command on completion *)

Definition set_command (cmd : string) (d : Job) : Job :=
  mkJob (uid d) (name d) (folder d) (url d) (eff_url d) (type d)
    (subtype_list d) (status d) (total_size d) (downloaded d) (resumable d)
    (errors d) (sched d) cmd (shutdown_pc d)
    (thumbnail_url d) (accept_html d) (progress d) (speed d) (eta d)
    (callback d).

(** [scedule_shutdown] (the spelling is the source's): the item is found
    with [self.get_d(uid=uid)]; when nothing is found [d] is [None] and
    the read of [d.status] raises.  A completed item is left alone. *)
Definition scedule_shutdown (uid : string) : M unit :=
  c <- ask ;;
  match get_d c (Some uid) None with
  | None => raise
  | Some o =>
      d <- deref o ;;
      if bool_decide (status d = Status.completed) then ret tt
      else act (modify o (set_shutdown_pc true))
  end.

(** [cancel_shutdown] *)
Definition cancel_shutdown (uid : string) : M unit :=
  c <- ask ;;
  match get_d c (Some uid) None with
  | None => raise
  | Some o =>
      d <- deref o ;;
      when (shutdown_pc d)
           (act (modify o (set_shutdown_pc false)) ;;;
            log "shutdown schedule cancelled for:" false)
  end.

(** [toggle_shutdown] *)
Definition toggle_shutdown (uid : string) : M unit :=
  c <- ask ;;
  match get_d c (Some uid) None with
  | None => raise
  | Some o =>
      d <- deref o ;;
      if bool_decide (status d = Status.completed) then ret tt
      else act (modify o (set_shutdown_pc (negb (shutdown_pc d))))
  end.

(** [set_on_completion_command] *)
Definition set_on_completion_command (uid : string) (command : string)
  : M unit :=
  c <- ask ;;
  match get_d c (Some uid) None with
  | None => raise
  | Some o =>
      d <- deref o ;;
      if bool_decide (status d = Status.completed) then ret tt
      else act (modify o (set_command command))
  end.

(** [get_on_completion_command] *)
Definition get_on_completion_command (uid : string) : M string :=
  c <- ask ;;
  match get_d c (Some uid) None with
  | None => raise
  | Some o => d <- deref o ;; ret (on_completion_command d)
  end.

(** ** Leaving: [quit] and [reset] *)

Definition with_playlist (p : list nat) (c : Controller) : Controller :=
  mkCtl (heap c) (d_map c) (pending_downloads_q c) (observer_q c) p
        (files c) (cfg c) (ffmpeg_actual_path c) (out c).

(** [config.shutdown = b] *)
Definition set_shutdown (b : bool) (g : config.t) : config.t :=
  config.mk (config.max_concurrent_downloads g) (config.refresh_url_retries g)
    (config.simulator g) (config.test_mode g) (config.download_thumbnail g)
    (config.checksum g) (config.use_server_timestamp g)
    (config.on_completion_command g) (config.shutdown_pc g) b
    (config.auto_rename g) (config.download_folder g)
    (config.operating_system g) (config.current_directory g)
    (config.global_sett_folder g) (config.on_download_notification g).

(** [quit] and [reset] also set [config.ytdl_abort], the flag that stops
    the extractor of video.py; it is kept next to the controller. *)
Record App := mkApp {
  controller : Controller;
  ytdl_abort : bool
}.

(** [for d in self.d_map.values(): self.stop_download(d.uid)] *)
Definition stop_all (c : Controller) : Controller :=
  fold_left (λ c o, match heap c !! o with
                    | Some d => stop_download (uid d) c
                    | None => c
                    end)
            (d_map_values c) c.

(** [quit]: raise the two flags, stop every download of the list, save
    the settings. *)
Definition quit (a : App) : App :=
  let c := with_cfg (set_shutdown true (cfg (controller a))) (controller a) in
  mkApp (emit SaveSettings (stop_all c)) true.

(** [reset]: stop the extractor and forget the playlist. *)
Definition reset (a : App) : App :=
  mkApp (with_playlist [] (controller a)) true.

(** ** Vocabulary of the further statements *)

(** A call keeps a relation between the state before and the state after
    when it does so from every state, whatever it returns or raises. *)
Definition M_keeps (R : Controller → Controller → Prop) {A} (m : M A) : Prop :=
  ∀ c c' r, m c = (c', r) → R c c'.

(** [frame n c c']: from [c] to [c'] the objects below [n] are left as
    they are, and so are the playlist and the settings; the pending queue
    and the trace have only grown; no uid has left [d_map], and a uid
    that no longer has its object has an object from [n] on. *)
Record frame (n : nat) (c c' : Controller) : Prop := mkFrame {
  frame_heap : ∀ i d, (i < n)%nat → heap c !! i = Some d → heap c' !! i = Some d;
  frame_playlist : playlist c' = playlist c;
  frame_cfg : cfg c' = cfg c;
  frame_pending : ∃ l, pending_downloads_q c' = pending_downloads_q c ++ l;
  frame_d_map : ∀ u o, d_map c !! u = Some o →
                       ∃ o', d_map c' !! u = Some o' ∧ (o' = o ∨ (n ≤ o')%nat);
  frame_out : ∃ evs, out c' = out c ++ evs
}.

(** [emits_only P c c']: from [c] to [c'] nothing changed but the files,
    the path of ffmpeg and the trace, and every new event satisfies
    [P]. *)
Record emits_only (P : Event → bool) (c c' : Controller) : Prop := mkEmits {
  emits_heap : heap c' = heap c;
  emits_d_map : d_map c' = d_map c;
  emits_cfg : cfg c' = cfg c;
  emits_pending : pending_downloads_q c' = pending_downloads_q c;
  emits_playlist : playlist c' = playlist c;
  emits_out : ∃ evs, out c' = out c ++ evs ∧ forallb P evs = true
}.

(** Every entry of [d_map] is filed under the uid of its object. *)
Definition keyed (c : Controller) : Prop :=
  ∀ u o, d_map c !! u = Some o → uid <$> heap c !! o = Some u.

(** [keyed], computed. *)
Definition keyedb (c : Controller) : bool :=
  forallb (λ '(u, o), bool_decide (uid <$> heap c !! o = Some u))
          (map_to_list (d_map c)).

(** No shutdown was begun among some events. *)
Definition no_shutdown (e : Event) : bool :=
  match e with
  | SaveSettings => false
  | _ => true
  end.

(** No command of the system search for ffmpeg among some events. *)
Definition is_run_command (e : Event) : bool :=
  match e with
  | RunCommand _ => true
  | _ => false
  end.

(** An item as [stop_download] leaves it: cancelled if it was active or
    pending, as it was otherwise. *)
Definition stopped (d : Job) : Job :=
  if bool_decide (status d ∈ Status.active_states ++ [Status.pending])
  then set_status Status.cancelled d
  else d.

(** ** Vocabulary of the failed checks *)

(** [not d.type or d.type == 'text/html'] *)
Definition html_type (d : Job) : bool :=
  String.eqb (type d) "" || String.eqb (type d) "text/html".

(** How the checks report a failure: a line in the log, or the dialogue
    the user has just answered. *)
Definition failure_reports (silent : bool) : list Event :=
  [ Log "download is already in progress for this item" false;
    Log "unsupported protocol: stream type is not supported yet" (negb silent);
    Log "FFMPEG is missing" (negb silent);
    Popup 2;
    DownloadFfmpeg;
    Log "destination folder does not exist" (negb silent);
    Log "you don't have enough permission for destination folder" (negb silent);
    Log "problem in destination folder" (negb silent);
    Log "File name can't be empty!!" (negb silent);
    Log "Download cancelled by user" false;
    Popup 5 ].

(** From [c] to [c'] the trace has grown and ends with a report of
    failure. *)
Definition reported (silent : bool) (c c' : Controller) : Prop :=
  ∃ evs e, out c' = out c ++ evs ++ [e] ∧ e ∈ failure_reports silent.

(** From [c] to [c'] the object [o] has kept its content type and the
    trace has only grown. *)
Record typed (o : nat) (c c' : Controller) : Prop := mkTyped {
  typed_type : type <$> heap c' !! o = type <$> heap c !! o;
  typed_out : ∃ evs, out c' = out c ++ evs
}.

(** The object [o] is not one that a silent download turns down for its
    content type. *)
Definition passes_type (o : nat) (silent : bool) (c : Controller) : Prop :=
  ∀ d, heap c !! o = Some d → silent = true → html_type d = false.

(** A check reports its failures: whenever it returns False on such an
    object, the trace ends with a report. *)
Definition M_reports (o : nat) (silent : bool) (m : M bool) : Prop :=
  ∀ c c', passes_type o silent c → m c = (c', Ret false) → reported silent c c'.

(** The message for a folder that can not be used. *)
Definition folder_message (p : FolderProbe) : string :=
  match p with
  | FolderNotFound => "destination folder does not exist"
  | FolderNoPermission =>
      "you don't have enough permission for destination folder"
  | _ => "problem in destination folder"
  end.

(** ** Further examples *)

(** A completed item that asks for a shutdown. *)
Definition demo_shutdown : Controller :=
  mkCtl [set_shutdown_pc true (demo_job "a" Status.completed)]
        {[ "uid_a" := 0%nat ]} [] [] [] ∅ demo_cfg "" [].

(** One item scheduled for the time [t]. *)
Definition demo_scheduled (t : Z) : Controller :=
  mkCtl [set_sched (Some t) (demo_job "a" Status.scheduled)]
        {[ "uid_a" := 0%nat ]} [] [] [] ∅ demo_cfg "" [].

(** One pending item, with the simulator in place of the transfer
    engine. *)
Definition demo_simulated : Controller :=
  mkCtl [demo_job "a" Status.pending] {[ "uid_a" := 0%nat ]} [] [] [] ∅
        (config.mk 1 1 true false false false false "" false false false
                   "/dl" "Linux" "/app" "/home/.config" false)
        "" [].

(** The demo world, except that only the first transfer fails: the
    second one completes. *)
Definition demo_env_recovers : Env :=
  mkEnv (user_response demo_env) (folder_probe demo_env) (listdir demo_env)
        (auto_rename demo_env) (calculate_uid demo_env)
        (update_object demo_env) (run_command demo_env)
        (last_modified demo_env) (thumbnail_fetch_ok demo_env)
        (utime_ok demo_env) (checksum_ok demo_env) (refresh_headers demo_env)
        (refresh_media demo_env)
        (λ n d, set_status (if (n =? 0)%nat then Status.error
                            else Status.completed) d)
        (recursion_limit demo_env) (path_join demo_env) (realpath demo_env).

(** A progress event for the item of [demo_one]. *)
Definition demo_progress : Item :=
  {[ "uid" := VStr "uid_a"; "downloaded" := VInt 100 ]}.

(** From [c] to [c'] no file was created and the settings are the same;
    and no file was removed either if the download is silent, or files
    are renamed automatically, or the user does not answer 'Overwrite'
    to the dialogue about a file that is in the way. *)
Record files_guarded (E : Env) (silent : bool) (c c' : Controller) : Prop :=
  mkGuarded {
  guarded_cfg : cfg c' = cfg c;
  guarded_subset : files c' ⊆ files c;
  guarded_files : silent = true ∨ config.auto_rename (cfg c) = true
                  ∨ user_response E 4%nat ≠ "Overwrite" →
                  files c' = files c
}.

(** A call of [delete]. *)
Definition is_delete (a : Action) : bool :=
  match a with
  | ADelete _ => true
  | _ => false
  end.

(** [listed c c']: every uid of [d_map] in [c] is still one in [c'], the
    playlist is the same and the trace has only grown. *)
Record listed (c c' : Controller) : Prop := mkListed {
  listed_d_map : ∀ u, is_Some (d_map c !! u) → is_Some (d_map c' !! u);
  listed_playlist : playlist c' = playlist c;
  listed_out : ∃ evs, out c' = out c ++ evs
}.

(** * Properties *)

(** ** Objects and their status *)

Lemma heap_modify o f c : heap (modify o f c) !! o = f <$> heap c !! o.
Proof.
  unfold modify. destruct (heap c !! o) as [d|] eqn:H; simpl.
  - apply list_lookup_insert_eq. by eapply lookup_lt_Some.
  - by rewrite H.
Qed.

Lemma heap_modify_ne o o' f c :
  o ≠ o' → heap (modify o f c) !! o' = heap c !! o'.
Proof.
  intros H. unfold modify. destruct (heap c !! o); [|done].
  simpl. by apply list_lookup_insert_ne.
Qed.

Lemma heap_modify_length o f c : length (heap (modify o f c)) = length (heap c).
Proof.
  unfold modify. destruct (heap c !! o); simpl; [|done]. by rewrite length_insert.
Qed.

Lemma d_map_modify o f c : d_map (modify o f c) = d_map c.
Proof. unfold modify. by destruct (heap c !! o). Qed.

Lemma pending_modify o f c :
  pending_downloads_q (modify o f c) = pending_downloads_q c.
Proof. unfold modify. by destruct (heap c !! o). Qed.

Lemma cfg_modify o f c : cfg (modify o f c) = cfg c.
Proof. unfold modify. by destruct (heap c !! o). Qed.

Lemma out_modify o f c : out (modify o f c) = out c.
Proof. unfold modify. by destruct (heap c !! o). Qed.

Lemma files_modify o f c : files (modify o f c) = files c.
Proof. unfold modify. by destruct (heap c !! o). Qed.

Lemma observer_q_modify o f c : observer_q (modify o f c) = observer_q c.
Proof. unfold modify. by destruct (heap c !! o). Qed.

Lemma emit_out e c : out (emit e c) = out c ++ [e].
Proof. reflexivity. Qed.

Create Rewrite HintDb ctl.
#[global] Hint Rewrite heap_modify heap_modify_length d_map_modify
  pending_modify cfg_modify out_modify files_modify observer_q_modify : ctl.

Lemma status_of_modify o f c :
  status_of (modify o f c) o = (status ∘ f) <$> heap c !! o.
Proof. unfold status_of. rewrite heap_modify. by destruct (heap c !! o). Qed.

Lemma status_of_modify_ne o o' f c :
  o ≠ o' → status_of (modify o f c) o' = status_of c o'.
Proof. intros H. unfold status_of. by rewrite heap_modify_ne. Qed.

Lemma modify_heap_lookup o f c d :
  heap c !! o = Some d → heap (modify o f c) !! o = Some (f d).
Proof. intros H. by rewrite heap_modify, H. Qed.

(** Compute the projections of a controller built by [modify] and
    [emit]. *)
Ltac ctl_simpl := repeat (progress (autorewrite with ctl; simpl)).

(** ** Several events at once *)

Lemma emit_all_nil c : emit_all [] c = c.
Proof. destruct c. unfold emit_all. simpl. by rewrite app_nil_r. Qed.

Lemma emit_emit_all e evs c : emit e (emit_all evs c) = emit_all (evs ++ [e]) c.
Proof. unfold emit, emit_all. simpl. by rewrite app_assoc. Qed.

Lemma emit_all_emit_all e1 e2 c :
  emit_all e2 (emit_all e1 c) = emit_all (e1 ++ e2) c.
Proof. unfold emit_all. simpl. by rewrite app_assoc. Qed.

Lemma emit_as_emit_all e c : emit e c = emit_all [e] c.
Proof. reflexivity. Qed.

Lemma new_events_emit_all evs c : new_events c (emit_all evs c) = evs.
Proof. unfold new_events. simpl. by rewrite drop_app_length. Qed.

Lemma bind_emit_all {B} (m : M unit) (k : unit → M B) c evs :
  m c = (emit_all evs c, Ret tt) → bind m k c = k tt (emit_all evs c).
Proof. intros H. unfold bind. by rewrite H. Qed.

Lemma new_events_emit e c : new_events c (emit e c) = [e].
Proof. unfold new_events. simpl. by rewrite drop_app_length. Qed.

Lemma new_events_refl c : new_events c c = [].
Proof. unfold new_events. by rewrite drop_all. Qed.

(** The events of two steps in a row. *)
Lemma new_events_trans c1 c2 c3 :
  (∃ evs, out c2 = out c1 ++ evs) → (∃ evs, out c3 = out c2 ++ evs) →
  new_events c1 c3 = new_events c1 c2 ++ new_events c2 c3.
Proof.
  intros [e1 H1] [e2 H2]. unfold new_events.
  rewrite H2, H1, <- app_assoc, !drop_app_length.
  rewrite app_assoc, drop_app_length. done.
Qed.

(** ** Scheduling (C10) *)



(** ** Stopping a download (C6) *)

Lemma after_join_not_error E o silent n c d :
  heap c !! o = Some d → status d ≠ Status.error →
  after_join E o silent n c = (c, Ret false).
Proof.
  intros Hd Hs. unfold after_join, bind, deref, ask. rewrite Hd.
  by rewrite bool_decide_eq_true_2.
Qed.

(** C6, as the code has it.  [stop_download] cancels an item of [d_map]
    whose status is pending, downloading or refreshing_url, and leaves an
    item in any other status, scheduled included, exactly as it is.  A
    transfer attempt that ends with the item cancelled ends the retry
    loop: [after_join] breaks without a refresh, and the loop returns
    right after that attempt whatever attempts were left. *)
Theorem stop_download_cancels_active_or_pending E uid c o d :
  d_map c !! uid = Some o → heap c !! o = Some d →
  (status d ∈ [Status.pending; Status.downloading; Status.refreshing_url] →
   heap (stop_download uid c) !! o = Some (set_status Status.cancelled d))
  ∧ (status d ∉ [Status.pending; Status.downloading; Status.refreshing_url] →
     stop_download uid c = c)
  ∧ (∀ silent n ns c0,
       status_of (run_thread E o n c0).1 o = Some Status.cancelled →
       after_join E o silent n (run_thread E o n c0).1
         = ((run_thread E o n c0).1, Ret false)
       ∧ retry_loop E o silent (n :: ns) c0 = ((run_thread E o n c0).1, Ret tt)).
Proof.
  intros Hm Hd. split; [|split].
  - intros Hs. unfold stop_download, status_of. rewrite Hm, Hd. simpl.
    rewrite bool_decide_eq_true_2; [by apply modify_heap_lookup|].
    unfold Status.active_states. simpl.
    rewrite !elem_of_cons in Hs. rewrite !elem_of_cons. tauto.
  - intros Hs. unfold stop_download, status_of. rewrite Hm, Hd. simpl.
    rewrite bool_decide_eq_false_2; [done|].
    unfold Status.active_states. simpl.
    rewrite !elem_of_cons in Hs. rewrite !elem_of_cons. tauto.
  - intros silent n ns c0 Hc.
    destruct (heap (run_thread E o n c0).1 !! o) as [d1|] eqn:Hd1;
      unfold status_of in Hc; rewrite Hd1 in Hc; [|done].
    simpl in Hc. assert (Hne : status d1 ≠ Status.error) by congruence.
    pose proof (after_join_not_error E o silent n _ d1 Hd1 Hne) as Haj.
    split; [done|].
    simpl. unfold bind at 1.
    destruct (run_thread E o n c0) as [c1 r] eqn:Hrun. simpl in *.
    assert (r = Ret tt) as ->.
    { unfold run_thread, bind, act, ask in Hrun. by inversion Hrun. }
    unfold bind. by rewrite Haj.
Qed.

Lemma stop_download_cancels_active_or_pending_witness :
  heap (stop_download "uid_a" (demo_one Status.pending)) !! 0%nat
  = Some (set_status Status.cancelled (demo_job "a" Status.pending)).
Proof.
  apply (stop_download_cancels_active_or_pending demo_env "uid_a"
           (demo_one Status.pending) 0%nat (demo_job "a" Status.pending)).
  - reflexivity.
  - reflexivity.
  - simpl. apply elem_of_cons. by left.
Defined.

(** C6 as stated fails for a scheduled item: [stop_download] leaves it
    scheduled. *)
Lemma stop_download_scheduled_counterexample :
  d_map (demo_one Status.scheduled) !! "uid_a" = Some 0%nat
  ∧ status_of (demo_one Status.scheduled) 0%nat = Some Status.scheduled
  ∧ status_of (stop_download "uid_a" (demo_one Status.scheduled)) 0%nat
    ≠ Some Status.cancelled.
Proof. split; [done|]. split; [done|]. vm_compute. discriminate. Qed.

(** ** The completion watchdog (C4) *)

(** What the shutdown leaves in the trace; it always returns. *)
Lemma Controller_shutdown_pc_events E c :
  Controller_shutdown_pc E c = (emit_all (shutdown_events E c) c, Ret tt).
Proof.
  unfold Controller_shutdown_pc, shutdown_events, bind, ask, act, log, ret.
  simpl.
  destruct (run_command E _).1; simpl;
    [|destruct (bool_decide (user_response E 0%nat = "ABORT!")); simpl];
    unfold act; by rewrite ?emit_as_emit_all, ?emit_all_emit_all.
Qed.

(** The shutdown begins by saving the settings. *)
Lemma Controller_shutdown_pc_out E c :
  ∃ evs, out (Controller_shutdown_pc E c).1 = out c ++ SaveSettings :: evs.
Proof. rewrite Controller_shutdown_pc_events. simpl. eauto. Qed.

(** What the action of the watchdog leaves in the trace. *)
Lemma post_batch_action_events E c :
  post_batch_action E c = (emit_all (post_batch_events E c) c, Ret tt).
Proof.
  unfold post_batch_action, post_batch_events, bind, ask, when, act, ret.
  destruct (config.on_completion_command (cfg c) =? "")%string; simpl.
  - destruct (config.shutdown_pc (cfg c)).
    + apply Controller_shutdown_pc_events.
    + by rewrite emit_all_nil.
  - destruct (config.shutdown_pc (cfg c)).
    + rewrite Controller_shutdown_pc_events, emit_as_emit_all,
        emit_all_emit_all. done.
    + done.
Qed.

(** With an action configured, [post_batch_action] runs a command or the
    shutdown. *)
Lemma post_batch_action_fires E c :
  on_completion_configured c = true →
  ∃ e evs, out (post_batch_action E c).1 = out c ++ e :: evs
           ∧ is_action_event e = true.
Proof.
  intros H. rewrite post_batch_action_events. simpl.
  unfold on_completion_configured in H. unfold post_batch_events.
  destruct (config.on_completion_command (cfg c) =? "")%string; simpl in *.
  - rewrite H. unfold shutdown_events. simpl. eauto.
  - eauto.
Qed.

(** When a poll fires, what it leaves in the trace and what becomes of
    the trigger. *)
Lemma watchdog_poll_spec E trigger c c' trigger' :
  watchdog_poll E trigger c = Some (c', trigger') →
  config.shutdown (cfg c) = false
  ∧ poll_fired c c'
    = on_completion_configured c && negb (any_active c) && trigger
      && all_completed c
  ∧ trigger'
    = on_completion_configured c
      && (any_active c || (trigger && negb (all_completed c)))
  ∧ new_events c c'
    = (if poll_fired c c' then post_batch_events E c else [])
      ++ [Sleep watchdog_interval].
Proof.
  unfold watchdog_poll. intros H.
  destruct (config.shutdown (cfg c)); [done|]. split; [done|].
  assert (Hquiet : poll_fired c (emit (Sleep watchdog_interval) c) = false
                   ∧ new_events c (emit (Sleep watchdog_interval) c)
                     = [Sleep watchdog_interval]).
  { unfold poll_fired, new_events. rewrite emit_out, drop_app_length. done. }
  destruct Hquiet as [Hq1 Hq2].
  destruct (on_completion_configured c) eqn:Hconf; simpl.
  - destruct (any_active c); simpl.
    + inversion H; subst. by rewrite Hq1, Hq2.
    + destruct trigger; simpl.
      * destruct (all_completed c); simpl.
        -- inversion H; subst.
           destruct (post_batch_action_fires E c Hconf) as (e & evs & Ho & He).
           assert (Hf : poll_fired c (emit (Sleep watchdog_interval)
                                         (post_batch_action E c).1) = true).
           { unfold poll_fired.
             rewrite emit_out, Ho, <- app_assoc, drop_app_length.
             simpl. by rewrite He. }
           rewrite Hf. split; [done|]. split; [done|].
           rewrite post_batch_action_events. unfold new_events. simpl.
           by rewrite <- app_assoc, drop_app_length.
        -- inversion H; subst. by rewrite Hq1, Hq2.
      * inversion H; subst. by rewrite Hq1, Hq2.
  - inversion H; subst. by rewrite Hq1, Hq2.
Qed.

(** A poll can only fire on a trigger set before it or by an active item
    seen at an earlier poll. *)
Lemma watchdog_fires_armed E trigger polls i :
  watchdog_fires E trigger polls !! i = Some true →
  trigger = true
  ∨ ∃ j c, (j < i)%nat ∧ polls !! j = Some c ∧ any_active c = true.
Proof.
  revert trigger i. induction polls as [|c polls IH]; intros trigger i; [done|].
  simpl. destruct (watchdog_poll E trigger c) as [[c' t']|] eqn:Hp; [|done].
  apply watchdog_poll_spec in Hp as (_ & Hf & Ht & _).
  destruct i as [|i]; simpl.
  - intros [= Hfired]. rewrite Hf in Hfired.
    left. by destruct trigger; [|rewrite !andb_false_r in Hfired].
  - intros Hi. apply IH in Hi as [->|(j & cj & Hj & Hcj & Hact)].
    + destruct (any_active c) eqn:Hact.
      * right. exists 0%nat, c. split; [lia|done].
      * left. destruct trigger; [done|].
        by rewrite andb_false_r in Ht.
    + right. exists (S j), cj. split; [lia|done].
Qed.

(** An armed watchdog fires by the first poll at which nothing is active
    and all is completed, if the action stays configured. *)
Lemma watchdog_fires_when_armed E polls i ci :
  polls !! i = Some ci →
  any_active ci = false → all_completed ci = true →
  (∀ k c, (k ≤ i)%nat → polls !! k = Some c →
          on_completion_configured c = true ∧ config.shutdown (cfg c) = false) →
  ∃ k, (k ≤ i)%nat ∧ watchdog_fires E true polls !! k = Some true.
Proof.
  revert polls. induction i as [|i IH]; intros polls Hi Hact Hall Hconf.
  - destruct polls as [|c polls]; [done|]. simpl in Hi. simplify_eq.
    destruct (Hconf 0%nat ci) as [Hc Hs]; [lia|done|].
    exists 0%nat. split; [lia|]. simpl. unfold watchdog_poll.
    rewrite Hs, Hc, Hact, Hall. simpl.
    destruct (post_batch_action_fires E ci Hc) as (e & evs & Ho & He).
    unfold poll_fired. rewrite emit_out, Ho, <- app_assoc, drop_app_length.
    simpl. by rewrite He.
  - destruct polls as [|c polls]; [done|]. simpl in Hi.
    destruct (Hconf 0%nat c) as [Hc Hs]; [lia|done|].
    simpl. destruct (watchdog_poll E true c) as [[c' t']|] eqn:Hp.
    2:{ unfold watchdog_poll in Hp. by rewrite Hs in Hp;
        destruct (on_completion_configured c), (any_active c), (all_completed c). }
    apply watchdog_poll_spec in Hp as (_ & Hf & Ht & _).
    rewrite Hc in Hf, Ht. simpl in Hf, Ht.
    destruct (any_active c) eqn:Hac; simpl in *.
    + subst t'. destruct (IH polls Hi Hact Hall) as (k & Hk & Hfk).
      { intros k' c0 Hk' Hc0. apply (Hconf (S k') c0); [lia|done]. }
      exists (S k). split; [lia|done].
    + destruct (all_completed c) eqn:Hal; simpl in *.
      * exists 0%nat. split; [lia|]. simpl. by rewrite Hf.
      * subst t'. destruct (IH polls Hi Hact Hall) as (k & Hk & Hfk).
        { intros k' c0 Hk' Hc0. apply (Hconf (S k') c0); [lia|done]. }
        exists (S k). split; [lia|done].
Qed.

Lemma watchdog_poll_runs E trigger c :
  config.shutdown (cfg c) = false → is_Some (watchdog_poll E trigger c).
Proof.
  intros H. unfold watchdog_poll. rewrite H.
  by destruct (on_completion_configured c), (any_active c), trigger,
       (all_completed c).
Qed.

Lemma watchdog_fires_conditions E trigger polls i :
  watchdog_fires E trigger polls !! i = Some true →
  ∃ c, polls !! i = Some c ∧ all_completed c = true ∧ any_active c = false
       ∧ on_completion_configured c = true.
Proof.
  revert trigger i. induction polls as [|c polls IH]; intros trigger i; [done|].
  simpl. destruct (watchdog_poll E trigger c) as [[c' t']|] eqn:Hp; [|done].
  apply watchdog_poll_spec in Hp as (_ & Hf & Ht & _).
  destruct i as [|i]; simpl; [|by apply IH].
  intros [= Hfired]. rewrite Hf in Hfired. exists c.
  destruct (on_completion_configured c), (any_active c), trigger,
    (all_completed c); done.
Qed.

Lemma watchdog_fires_rearmed E trigger polls i k :
  (i < k)%nat →
  watchdog_fires E trigger polls !! i = Some true →
  watchdog_fires E trigger polls !! k = Some true →
  ∃ j c, (i < j < k)%nat ∧ polls !! j = Some c ∧ any_active c = true.
Proof.
  revert trigger i k. induction polls as [|c polls IH]; intros trigger i k; [done|].
  simpl. destruct (watchdog_poll E trigger c) as [[c' t']|] eqn:Hp; [|done].
  apply watchdog_poll_spec in Hp as (_ & Hf & Ht & _).
  destruct k as [|k]; [lia|]. destruct i as [|i]; simpl.
  - intros _ [= Hfired] Hk. rewrite Hf in Hfired.
    assert (t' = false) as ->.
    { rewrite Ht. destruct (on_completion_configured c), (any_active c),
        trigger, (all_completed c); done. }
    apply watchdog_fires_armed in Hk as [?|(j & cj & Hj & Hcj & Hact)]; [done|].
    exists (S j), cj. split; [lia|done].
  - intros Hik Hi Hk.
    destruct (IH t' i k) as (j & cj & Hj & Hcj & Hact); [lia|done|done|].
    exists (S j), cj. split; [lia|done].
Qed.

Lemma watchdog_fires_after_active E trigger polls j i cj ci :
  (j < i)%nat →
  polls !! j = Some cj → any_active cj = true →
  polls !! i = Some ci → any_active ci = false → all_completed ci = true →
  (∀ k c, (k ≤ i)%nat → polls !! k = Some c → config.shutdown (cfg c) = false) →
  (∀ k c, (j ≤ k ≤ i)%nat → polls !! k = Some c →
          on_completion_configured c = true) →
  ∃ k, (j < k ≤ i)%nat ∧ watchdog_fires E trigger polls !! k = Some true.
Proof.
  revert trigger j i. induction polls as [|c polls IH];
    intros trigger j i Hji Hj Hactj Hi Hacti Hall Hsh Hconf; [done|].
  destruct i as [|i]; [lia|]. simpl in Hi.
  destruct (watchdog_poll_runs E trigger c) as [[c' t'] Hp].
  { apply (Hsh 0%nat); [lia|done]. }
  simpl. rewrite Hp.
  apply watchdog_poll_spec in Hp as (_ & Hf & Ht & _).
  destruct j as [|j]; simpl in Hj.
  - assert (c = cj) as -> by congruence.
    rewrite (Hconf 0%nat cj), Hactj in Ht; [|lia|done]. simpl in Ht. subst t'.
    destruct (watchdog_fires_when_armed E polls i ci Hi Hacti Hall)
      as (k & Hk & Hfk).
    { intros k c0 Hk Hc. split.
      - apply (Hconf (S k)); [lia|done].
      - apply (Hsh (S k)); [lia|done]. }
    exists (S k). split; [lia|done].
  - destruct (IH t' j i) as (k & Hk & Hfk); try done; [lia| | |].
    + intros k c0 Hk Hc. apply (Hsh (S k)); [lia|done].
    + intros k c0 Hk Hc. apply (Hconf (S k)); [lia|done].
    + exists (S k). split; [lia|done].
Qed.

(** What a poll leaves in the trace: the action in full when it fires,
    and in any case the sleep. *)
Lemma watchdog_trace_spec E trigger polls i (b : bool) :
  watchdog_fires E trigger polls !! i = Some b →
  ∃ c, polls !! i = Some c
       ∧ watchdog_trace E trigger polls !! i
         = Some ((if b then post_batch_events E c else [])
                 ++ [Sleep watchdog_interval]).
Proof.
  revert trigger i. induction polls as [|c polls IH]; intros trigger i; [done|].
  simpl. destruct (watchdog_poll E trigger c) as [[c' t']|] eqn:Hp; [|done].
  apply watchdog_poll_spec in Hp as (_ & _ & _ & Hev).
  destruct i as [|i]; simpl; [|by apply IH].
  intros [= <-]. exists c. by rewrite Hev.
Qed.

(** C4, as the code has it.  The watchdog starts with its trigger off
    and meets the controller in the states [polls], one every five
    seconds; what happens between two polls it does not see.  (1) It
    fires only after a poll that saw an active item, so never if no poll
    has seen one since it started.  (2) When it fires, no item is
    active, every item of [d_map] is completed (none at all included)
    and an action is configured; the poll then runs exactly the
    configured command, if there is one, followed by the shutdown, if
    configured, and sleeps.  (3) A poll that does not fire only sleeps.
    (4) After firing the watchdog is disarmed: it does not fire again
    before a later poll has seen an active item.  (5) Once a poll has
    seen an active item, the watchdog has fired by the first later poll
    at which nothing is active and all is completed, provided the action
    stays configured and the application is not shutting down. *)
Theorem watchdog_fires_once_per_batch E polls :
  let fires := watchdog_fires E false polls in
  let trace := watchdog_trace E false polls in
  (∀ i, fires !! i = Some true →
        ∃ j c, (j < i)%nat ∧ polls !! j = Some c ∧ any_active c = true)
  ∧ (∀ i, fires !! i = Some true →
          ∃ c, polls !! i = Some c ∧ all_completed c = true
               ∧ any_active c = false ∧ on_completion_configured c = true
               ∧ trace !! i
                 = Some (post_batch_events E c ++ [Sleep watchdog_interval]))
  ∧ (∀ i, fires !! i = Some false →
          trace !! i = Some [Sleep watchdog_interval])
  ∧ (∀ i k, (i < k)%nat → fires !! i = Some true → fires !! k = Some true →
            ∃ j c, (i < j < k)%nat ∧ polls !! j = Some c ∧ any_active c = true)
  ∧ (∀ j i cj ci,
       (j < i)%nat →
       polls !! j = Some cj → any_active cj = true →
       polls !! i = Some ci → any_active ci = false → all_completed ci = true →
       (∀ k c, (k ≤ i)%nat → polls !! k = Some c →
               config.shutdown (cfg c) = false) →
       (∀ k c, (j ≤ k ≤ i)%nat → polls !! k = Some c →
               on_completion_configured c = true) →
       ∃ k, (j < k ≤ i)%nat ∧ fires !! k = Some true).
Proof.
  simpl. split; [|split; [|split; [|split]]].
  - intros i Hi. by apply watchdog_fires_armed in Hi as [?|?].
  - intros i Hi.
    destruct (watchdog_fires_conditions _ _ _ _ Hi) as (c & Hc & ? & ? & ?).
    destruct (watchdog_trace_spec _ _ _ _ _ Hi) as (c0 & Hc0 & Ht).
    exists c. repeat split; try done. by simplify_eq.
  - intros i Hi. by destruct (watchdog_trace_spec _ _ _ _ _ Hi) as (c & _ & ?).
  - intros i k. apply watchdog_fires_rearmed.
  - intros j i cj ci. apply watchdog_fires_after_active.
Qed.

Lemma watchdog_fires_once_per_batch_witness :
  ∃ k, (0 < k ≤ 1)%nat
       ∧ watchdog_fires demo_env false
           [demo_watched Status.downloading; demo_watched Status.completed] !! k
         = Some true.
Proof.
  apply (proj2 (proj2 (proj2 (proj2 (watchdog_fires_once_per_batch demo_env
           [demo_watched Status.downloading; demo_watched Status.completed]))))
           0%nat 1%nat (demo_watched Status.downloading)
           (demo_watched Status.completed)).
  - lia.
  - reflexivity.
  - vm_compute. reflexivity.
  - reflexivity.
  - vm_compute. reflexivity.
  - vm_compute. reflexivity.
  - intros [|[|k]] c Hk Hc; simpl in Hc; try lia; by simplify_eq.
  - intros [|[|k]] c Hk Hc; simpl in Hc; try lia; simplify_eq;
      vm_compute; reflexivity.
Defined.

(** C4 as stated fails.  With a command configured, the one item of the
    list is downloaded again and completes between two polls of the
    watchdog: it was active in between, all items are completed at the
    second poll, and the watchdog does not fire.  And when an active
    item is deleted and leaves the list empty, the watchdog fires
    although nothing has completed. *)
Lemma watchdog_misses_batch_counterexample :
  let s0 := mkSys (demo_watched Status.cancelled) [] AtCheck in
  (∃ s1 s2,
     run demo_env [ADownload None (Some "uid_a") None true false ∅;
                   ABegin 0; AStart 0] s0 = Some s1
     ∧ run demo_env [AEngineEnd 0 Status.completed; AJoin 0] s1 = Some s2
     ∧ any_active (ctl s1) = true
     ∧ any_active (ctl s2) = false ∧ all_completed (ctl s2) = true
     ∧ on_completion_configured (ctl s2) = true
     ∧ watchdog_fires demo_env false [ctl s0; ctl s2] = [false; false])
  ∧ (let c := demo_watched Status.downloading in
     let c' := (Controller_delete "uid_a" c).1 in
     d_map c' = ∅
     ∧ watchdog_fires demo_env false [c; c'] = [false; true]).
Proof.
  split.
  - eexists _, _. split; [vm_compute; reflexivity|].
    split; [vm_compute; reflexivity|].
    repeat split; vm_compute; reflexivity.
  - repeat split; vm_compute; reflexivity.
Qed.

(** ** The event aggregator (C3, C7) *)

Lemma buffer_put_keys buffer u item :
  (buffer_put buffer u item).*1
  = if decide (u ∈ buffer.*1) then buffer.*1 else buffer.*1 ++ [u].
Proof.
  induction buffer as [|[k v] rest IH]; csimpl; [by rewrite ?decide_False by apply not_elem_of_nil|].
  - destruct (decide (k = u)) as [->|Hne]; csimpl.
    + rewrite decide_True; [done|]. apply elem_of_cons. by left.
    + rewrite IH. destruct (decide (u ∈ rest.*1)) as [Hin|Hnin].
      * rewrite decide_True; [done|]. apply elem_of_cons. by right.
      * rewrite decide_False; [done|].
        intros [?|?]%elem_of_cons; congruence.
Qed.

Lemma buffer_put_get buffer u item u' :
  buffer_get (buffer_put buffer u item) u'
  = if decide (u = u')
    then Some (match buffer_get buffer u with
               | Some v => dict_update v item
               | None => item
               end)
    else buffer_get buffer u'.
Proof.
  induction buffer as [|[k v] rest IH]; csimpl.
  - destruct (decide (u = u')); done.
  - destruct (decide (k = u)) as [->|Hne]; csimpl.
    + destruct (decide (u = u')); done.
    + rewrite IH. destruct (decide (u = u')) as [->|Hne'].
      * by rewrite decide_False.
      * done.
Qed.

Lemma filter_filter_ne (u : pyval) (ks l : list pyval) :
  u ∈ ks →
  filter (λ v, v ∉ ks) (filter (λ v, v ≠ u) l) = filter (λ v, v ∉ ks) l.
Proof.
  intros Hin. induction l as [|x l IH]; [done|].
  rewrite !filter_cons.
  destruct (decide (x ≠ u)) as [Hx|Hx].
  - rewrite filter_cons. destruct (decide (x ∉ ks)); by rewrite IH.
  - apply dec_stable in Hx. subst x. by rewrite decide_False by tauto.
Qed.

Lemma filter_notin_snoc (u : pyval) (ks l : list pyval) :
  filter (λ v, v ∉ ks ++ [u]) l = filter (λ v, v ∉ ks) (filter (λ v, v ≠ u) l).
Proof.
  induction l as [|x l IH]; [done|].
  rewrite !filter_cons.
  destruct (decide (x ≠ u)) as [Hx|Hx].
  - rewrite filter_cons. destruct (decide (x ∉ ks)) as [Hk|Hk].
    + rewrite decide_True; [by rewrite IH|].
      rewrite elem_of_app, list_elem_of_singleton. tauto.
    + rewrite decide_False; [done|].
      rewrite elem_of_app. tauto.
  - apply dec_stable in Hx. subst x.
    rewrite decide_False; [done|].
    rewrite elem_of_app, list_elem_of_singleton. tauto.
Qed.

(** The keys of the buffer: those it had, then the new identifiers in
    the order in which they were first seen. *)
Lemma observer_take_keys items buffer :
  (fold_left observer_take items buffer).*1
  = buffer.*1 ++ filter (λ v, v ∉ buffer.*1) (first_seen (window_uids items)).
Proof.
  revert buffer. induction items as [|item items IH]; intros buffer; csimpl.
  - by rewrite app_nil_r.
  - rewrite IH. unfold observer_take, window_uids. rewrite fmap_cons, filter_cons.
    destruct (truthy (dict_get item "uid")) eqn:Ht.
    + rewrite decide_True by done. csimpl. rewrite buffer_put_keys, filter_cons.
      destruct (decide (dict_get item "uid" ∈ buffer.*1)) as [Hin|Hnin].
      * rewrite decide_False by tauto. by rewrite filter_filter_ne.
      * rewrite decide_True by done.
        rewrite <- app_assoc. csimpl. by rewrite filter_notin_snoc.
    + by rewrite decide_False by done.
Qed.

Lemma first_seen_NoDup uids : NoDup (first_seen uids).
Proof.
  induction uids as [|u uids IH]; csimpl; [constructor|].
  constructor.
  - rewrite list_elem_of_filter. tauto.
  - by apply NoDup_filter.
Qed.

Lemma first_seen_elem_of u uids : u ∈ first_seen uids ↔ u ∈ uids.
Proof.
  induction uids as [|x uids IH]; csimpl; [done|].
  rewrite !elem_of_cons, list_elem_of_filter, IH.
  destruct (decide (u = x)); tauto.
Qed.

Lemma observer_buffer_keys items :
  (observer_buffer items).*1 = first_seen (window_uids items).
Proof.
  unfold observer_buffer. rewrite observer_take_keys. csimpl.
  induction (first_seen (window_uids items)) as [|x l IH]; [done|].
  rewrite filter_cons, decide_True by apply not_elem_of_nil. by f_equal.
Qed.

Lemma last_write_snoc u k items item :
  last_write u k (items ++ [item])
  = match (if decide (dict_get item "uid" = u) then item !! k else None) with
    | Some x => Some x
    | None => last_write u k items
    end.
Proof.
  induction items as [|it items IH]; csimpl.
  - by destruct (if decide (dict_get item "uid" = u) then item !! k else None).
  - rewrite IH.
    destruct (if decide (dict_get item "uid" = u) then item !! k else None);
      done.
Qed.

(** What the buffer holds for a uid: for every field the last value
    written to it; nothing at all if no event carried the uid. *)
Lemma observer_buffer_get items u :
  truthy u = true →
  match buffer_get (observer_buffer items) u with
  | Some v => ∀ k, v !! k = last_write u k items
  | None => ∀ k, last_write u k items = None
  end.
Proof.
  intros Hu. induction items as [|item items IH] using rev_ind; [done|].
  unfold observer_buffer in *. rewrite fold_left_app. csimpl.
  unfold observer_take at 1.
  destruct (truthy (dict_get item "uid")) eqn:Ht.
  - rewrite buffer_put_get.
    destruct (decide (dict_get item "uid" = u)) as [Heq|Hne].
    + rewrite Heq.
      destruct (buffer_get (fold_left observer_take items []) u) as [v|];
        intros k; rewrite last_write_snoc, decide_True by done.
      * unfold dict_update. rewrite lookup_union.
        destruct (item !! k) as [x|]; csimpl.
        -- by destruct (v !! k).
        -- rewrite <- IH. by destruct (v !! k).
      * rewrite IH. by destruct (item !! k).
    + destruct (buffer_get (fold_left observer_take items []) u) as [v|];
        intros k; rewrite last_write_snoc, decide_False by done; apply IH.
  - assert (dict_get item "uid" ≠ u) by congruence.
    destruct (buffer_get (fold_left observer_take items []) u) as [v|];
      intros k; rewrite last_write_snoc, decide_False by done; apply IH.
Qed.

Lemma buffer_get_elem_of (buffer : list (pyval * Item)) u v :
  NoDup buffer.*1 → (u, v) ∈ buffer → buffer_get buffer u = Some v.
Proof.
  induction buffer as [|[k w] rest IH]; csimpl; intros Hnd Hin.
  - by apply elem_of_nil in Hin.
  - apply NoDup_cons in Hnd as [Hk Hnd].
    apply elem_of_cons in Hin as [[= <- <-]|Hin].
    + by rewrite decide_True.
    + rewrite decide_False; [by apply IH|].
      intros ->. apply Hk. apply list_elem_of_fmap. by exists (u, v).
Qed.

(** [_update_view] only reads the items. *)
Lemma update_view_store kwargs c :
  heap (_update_view kwargs c) = heap c ∧ d_map (_update_view kwargs c) = d_map c.
Proof. done. Qed.

Lemma view_kwargs_store c c' kwargs :
  heap c' = heap c → d_map c' = d_map c →
  view_kwargs c' kwargs = view_kwargs c kwargs.
Proof.
  intros Hh Hm. unfold view_kwargs, d_map_get. by rewrite Hh, Hm.
Qed.

Lemma total_speed_kw_store c c' :
  heap c' = heap c → d_map c' = d_map c →
  total_speed_kw c' = total_speed_kw c.
Proof.
  intros Hh Hm. unfold total_speed_kw, total_speed, d_map_values.
  by rewrite Hh, Hm.
Qed.

Lemma update_view_fold vs c :
  let c' := fold_left (λ c v, _update_view v c) vs c in
  heap c' = heap c ∧ d_map c' = d_map c
  ∧ out c' = out c ++ flat_map (flush_of c) vs.
Proof.
  revert c. induction vs as [|v vs IH]; intros c; simpl.
  - by rewrite app_nil_r.
  - destruct (IH (_update_view v c)) as (Hh & Hm & Ho).
    destruct (update_view_store v c) as [Hh' Hm'].
    split; [congruence|]. split; [congruence|].
    rewrite Ho. unfold flush_of at 2.
    rewrite (flat_map_ext (flush_of (_update_view v c)) (flush_of c)).
    + unfold _update_view. simpl. by rewrite <- !app_assoc.
    + intros a. unfold flush_of.
      by rewrite (view_kwargs_store c (_update_view v c)),
           (total_speed_kw_store c (_update_view v c)).
Qed.

Lemma observer_iteration_events c :
  new_events c (_observer_iteration c)
  = flat_map (flush_of c) (observer_buffer (observer_q c)).*2
    ++ [Sleep report_interval].
Proof.
  unfold new_events, _observer_iteration. rewrite emit_out.
  destruct (update_view_fold (observer_buffer (observer_q c)).*2
              (with_observer_q [] c)) as (_ & _ & Ho).
  simpl in Ho. rewrite Ho.
  rewrite <- app_assoc, drop_app_length. done.
Qed.

(** Apart from the command and the derived fields, the view receives the
    fields of the event as they are. *)
Lemma view_kwargs_lookup c kwargs k :
  k ∉ ["command"; "progress"; "speed"; "eta"] →
  view_kwargs c kwargs !! k = kwargs !! k.
Proof.
  intros Hk. rewrite !not_elem_of_cons in Hk.
  destruct Hk as (Hc & Hp & Hs & He & _).
  assert (Hsd : dict_setdefault kwargs "command" (VStr "update") !! k = kwargs !! k).
  { unfold dict_setdefault. destruct (kwargs !! "command"); [done|].
    by rewrite lookup_insert_ne. }
  unfold view_kwargs.
  destruct (d_map_get c _) as [d|]; [|done].
  destruct (truthy _); [|done].
  unfold dict_update, extra. rewrite lookup_union.
  rewrite !lookup_insert_ne, lookup_singleton_ne by done.
  rewrite Hsd. by destruct (kwargs !! k).
Qed.

Lemma view_kwargs_uid c kwargs :
  dict_get (view_kwargs c kwargs) "uid" = dict_get kwargs "uid".
Proof.
  unfold dict_get. rewrite view_kwargs_lookup; [done|].
  rewrite !not_elem_of_cons. repeat split; try done. apply not_elem_of_nil.
Qed.

(** Every buffered value carries the uid it is filed under. *)
Lemma observer_buffer_uid items :
  Forall (λ kv, dict_get kv.2 "uid" = kv.1) (observer_buffer items).
Proof.
  unfold observer_buffer.
  assert (Hgen : ∀ buffer,
    Forall (λ kv, dict_get kv.2 "uid" = kv.1) buffer →
    Forall (λ kv, dict_get kv.2 "uid" = kv.1) (fold_left observer_take items buffer)).
  { induction items as [|item items IH]; intros buffer Hb; [done|].
    simpl. apply IH. unfold observer_take.
    destruct (truthy (dict_get item "uid")) eqn:Ht; [|done].
    clear IH. induction buffer as [|[k v] rest IHb]; simpl.
    - by constructor.
    - apply Forall_cons in Hb as [Hk Hrest]. simpl in Hk.
      destruct (decide (k = dict_get item "uid")) as [->|Hne].
      + constructor; [|done]. simpl.
        unfold dict_update, dict_get in *. rewrite lookup_union.
        destruct (item !! "uid") as [x|] eqn:Hx; simpl in *; [|done].
        by destruct (v !! "uid").
      + constructor; [done|]. by apply IHb. }
  by apply Hgen.
Qed.

Lemma count_updates c (buffer : list (pyval * Item)) u :
  u ≠ VNone →
  Forall (λ kv, dict_get kv.2 "uid" = kv.1) buffer →
  length (filter (λ e, event_uid e = u) (flat_map (flush_of c) buffer.*2))
  = length (filter (λ k, k = u) buffer.*1).
Proof.
  intros Hu. induction buffer as [|[k v] rest IH]; intros Hb; [done|].
  apply Forall_cons in Hb as [Hk Hrest]. simpl in Hk.
  csimpl. rewrite !filter_cons.
  rewrite decide_False.
  2:{ simpl. unfold total_speed_kw, dict_get.
      rewrite !lookup_insert_ne, lookup_singleton_ne by done. simpl.
      congruence. }
  simpl event_uid. rewrite view_kwargs_uid, Hk.
  destruct (decide (k = u)); simpl; rewrite IH; done.
Qed.

Lemma filter_eq_absent (l : list pyval) u :
  u ∉ l → filter (λ k, k = u) l = [].
Proof.
  induction l as [|x l IH]; intros Hu; [done|].
  apply not_elem_of_cons in Hu as [Hne Hu].
  rewrite filter_cons, decide_False by congruence. by apply IH.
Qed.

Lemma count_NoDup (l : list pyval) u :
  NoDup l → u ∈ l → length (filter (λ k, k = u) l) = 1%nat.
Proof.
  induction l as [|x l IH]; intros Hnd Hin; [by apply elem_of_nil in Hin|].
  apply NoDup_cons in Hnd as [Hx Hnd]. rewrite filter_cons.
  destruct (decide (x = u)) as [->|Hne].
  - by rewrite filter_eq_absent.
  - apply IH; [done|]. apply elem_of_cons in Hin as [?|?]; [congruence|done].
Qed.

(** C3.  One turn of [_observer] over the events [observer_q c] of a
    flush window.  (1) The view receives, for each identifier of the
    window in the order in which the identifiers were first seen, its
    consolidated update (after a total-speed notification), and nothing
    else before the sleep.  (2) The consolidated event of an identifier
    holds for every field the value of the last event of that identifier
    that has the field: a later event overwrites, and a later event
    without the field erases nothing.  (3) Apart from the defaulted
    command and the derived progress, speed and eta, its fields reach the
    view as they are.  (4) An identifier carried by at least one event of
    the window gets exactly one update. *)
Theorem observer_one_update_per_uid c :
  let items := observer_q c in
  let buffer := observer_buffer items in
  let c' := _observer_iteration c in
  (new_events c c'
   = flat_map (λ v, [ViewUpdate (total_speed_kw c); ViewUpdate (view_kwargs c v)])
              buffer.*2
     ++ [Sleep report_interval]
   ∧ buffer.*1 = first_seen (window_uids items))
  ∧ (∀ u v, (u, v) ∈ buffer →
            dict_get v "uid" = u ∧ ∀ k, v !! k = last_write u k items)
  ∧ (∀ v k, k ∉ ["command"; "progress"; "speed"; "eta"] →
            view_kwargs c v !! k = v !! k)
  ∧ (∀ u, u ∈ window_uids items →
          length (filter (λ e, event_uid e = u) (new_events c c')) = 1%nat).
Proof.
  simpl. split; [split|split; [|split]].
  - apply observer_iteration_events.
  - apply observer_buffer_keys.
  - intros u v Hin.
    pose proof (observer_buffer_uid (observer_q c)) as Huid.
    rewrite Forall_forall in Huid. specialize (Huid _ Hin). simpl in Huid.
    split; [done|].
    assert (Hu : truthy u = true).
    { assert (Hk : u ∈ (observer_buffer (observer_q c)).*1).
      { apply list_elem_of_fmap. by exists (u, v). }
      rewrite observer_buffer_keys, first_seen_elem_of in Hk.
      unfold window_uids in Hk. by apply list_elem_of_filter in Hk as [? _]. }
    pose proof (observer_buffer_get (observer_q c) u Hu) as Hget.
    rewrite (buffer_get_elem_of _ u v) in Hget; [done| |done].
    rewrite observer_buffer_keys. apply first_seen_NoDup.
  - intros v k. apply view_kwargs_lookup.
  - intros u Hu. rewrite observer_iteration_events.
    assert (Hne : u ≠ VNone).
    { unfold window_uids in Hu. apply list_elem_of_filter in Hu as [Ht _].
      by intros ->. }
    rewrite filter_app, length_app.
    rewrite (filter_cons _ (Sleep report_interval)), decide_False, filter_nil
      by (simpl; congruence).
    simpl. rewrite Nat.add_0_r.
    rewrite count_updates; [|done|apply observer_buffer_uid].
    apply count_NoDup.
    + rewrite observer_buffer_keys. apply first_seen_NoDup.
    + by rewrite observer_buffer_keys, first_seen_elem_of.
Qed.

(** A witness of C3 on the running example: two progress events for the
    same item give one update. *)
Lemma observer_one_update_per_uid_witness :
  length (filter (λ e, event_uid e = VStr "uid_a")
                 (new_events demo_window (_observer_iteration demo_window)))
  = 1%nat.
Proof.
  apply (observer_one_update_per_uid demo_window).
  vm_compute. apply list_elem_of_here.
Defined.

Lemma total_speed_kw_no_uid c : dict_get (total_speed_kw c) "uid" = VNone.
Proof.
  unfold total_speed_kw, dict_get.
  by rewrite !lookup_insert_ne, lookup_singleton_ne.
Qed.

Lemma count_total_speed c (buffer : list (pyval * Item)) :
  Forall (λ kv, dict_get kv.2 "uid" = kv.1 ∧ kv.1 ≠ VNone) buffer →
  length (filter (λ e, e = ViewUpdate (total_speed_kw c))
                 (flat_map (flush_of c) buffer.*2))
  = length buffer.
Proof.
  induction buffer as [|[k v] rest IH]; intros Hb; [done|].
  apply Forall_cons in Hb as [[Hk Hne] Hrest]. simpl in Hk, Hne.
  csimpl. rewrite filter_cons, decide_True by done.
  rewrite filter_cons, decide_False.
  - simpl. by rewrite IH.
  - intros [= Heq].
    pose proof (view_kwargs_uid c v) as Hu.
    rewrite Heq, total_speed_kw_no_uid in Hu. congruence.
Qed.

(** C7, as the code has it.  [_update_view] computes the total speed and
    notifies the view of it every time it is called, so a flush sends the
    [total_speed] notification once for each consolidated update, right
    before it: as many times as there are identifiers in the window, and
    not at all for an empty window.  Each notification carries the sum
    of the speeds of the items of [d_map] that are downloading. *)
Theorem total_speed_once_per_update c :
  let items := observer_q c in
  let c' := _observer_iteration c in
  new_events c c'
  = flat_map (λ v, [ViewUpdate {[ "command" := VStr "total_speed";
                                  "total_speed" := VInt (total_speed c) ]};
                    ViewUpdate (view_kwargs c v)])
             (observer_buffer items).*2
    ++ [Sleep report_interval]
  ∧ length (filter (λ e, e = ViewUpdate (total_speed_kw c)) (new_events c c'))
    = length (first_seen (window_uids items)).
Proof.
  simpl. split; [apply observer_iteration_events|].
  rewrite observer_iteration_events, filter_app, length_app.
  rewrite (filter_cons _ (Sleep report_interval)), decide_False, filter_nil
    by done.
  simpl. rewrite Nat.add_0_r, count_total_speed.
  - by rewrite <- observer_buffer_keys, length_fmap.
  - pose proof (observer_buffer_uid (observer_q c)) as Huid.
    rewrite Forall_forall in Huid. apply Forall_forall. intros [k v] Hin.
    split; [by apply (Huid (k, v))|]. simpl.
    assert (Hk : k ∈ (observer_buffer (observer_q c)).*1).
    { apply list_elem_of_fmap. by exists (k, v). }
    rewrite observer_buffer_keys, first_seen_elem_of in Hk.
    unfold window_uids in Hk. apply list_elem_of_filter in Hk as [Ht _].
    by intros ->.
Qed.

(** C7 as stated fails: with events for two items in one window the
    total speed is sent twice, and an empty window sends none. *)
Lemma total_speed_twice_counterexample :
  length (filter (λ e, e = ViewUpdate (total_speed_kw demo_two_uids))
                 (new_events demo_two_uids (_observer_iteration demo_two_uids)))
  = 2%nat
  ∧ length (filter (λ e, e = ViewUpdate (total_speed_kw demo_ctl))
                   (new_events demo_ctl (_observer_iteration demo_ctl)))
    = 0%nat.
Proof. split; vm_compute; reflexivity. Qed.

(** ** The retry loop (C2) *)

(** One attempt whose transfer ends in error: the loop goes on, after
    the failure message at the bound or after a refresh below it. *)
Lemma retry_iteration E o silent n c d :
  heap c !! o = Some d →
  config.simulator (cfg c) = false →
  (∀ n d, status (brain E n d) = Status.error) →
  ∃ c', (run_thread E o n ;;; after_join E o silent n) c = (c', Ret true)
        ∧ d_map c' = d_map c ∧ cfg c' = cfg c
        ∧ is_Some (heap c' !! o)
        ∧ out c' = out c ++ failed_attempt (config.refresh_url_retries (cfg c)) o silent n
        ∧ ((n >=? config.refresh_url_retries (cfg c))%Z = true → status_of c' o = Some Status.error).
Proof.
  intros Hd Hsim Hbrain.
  unfold run_thread, after_join, bind, act, ask, deref, log, report_d. simpl.
  rewrite Hsim. ctl_simpl. rewrite Hd. simpl.
  rewrite bool_decide_eq_false_2 by (rewrite Hbrain; tauto).
  ctl_simpl. unfold failed_attempt, too_many_errors.
  destruct (n >=? config.refresh_url_retries (cfg c))%Z eqn:Hn.
  - eexists. split; [reflexivity|]. simpl. unfold status_of.
    ctl_simpl. rewrite Hd. simpl.
    rewrite Hbrain, <- app_assoc. eauto 10.
  - unfold auto_refresh_url, bind, act, log, deref, when. simpl.
    ctl_simpl. rewrite Hd. simpl.
    destruct (bool_decide _);
      [destruct (refresh_headers E _) as [eff ct]; destruct (bool_decide _)
      |destruct (refresh_media E _)];
      simpl; (eexists; split; [reflexivity|]); ctl_simpl; rewrite ?Hd; simpl;
      rewrite <- ?app_assoc; repeat split; eauto; congruence.
Qed.

Lemma retry_loop_cons E o silent n ns c :
  retry_loop E o silent (n :: ns) c
  = match (run_thread E o n ;;; after_join E o silent n) c with
    | (c', Ret true) => retry_loop E o silent ns c'
    | (c', Ret false) => (c', Ret tt)
    | (c', Raise) => (c', Raise)
    end.
Proof.
  simpl. unfold bind.
  destruct (run_thread E o n c) as [c1 [[]|]]; [|done].
  destruct (after_join E o silent n c1) as [c2 [[|]|]]; done.
Qed.

Lemma retry_loop_failing E o silent ns c :
  is_Some (heap c !! o) →
  config.simulator (cfg c) = false →
  (∀ n d, status (brain E n d) = Status.error) →
  ∃ c', retry_loop E o silent ns c = (c', Ret tt)
        ∧ d_map c' = d_map c ∧ cfg c' = cfg c
        ∧ is_Some (heap c' !! o)
        ∧ out c' = out c ++ flat_map (failed_attempt
                                        (config.refresh_url_retries (cfg c))
                                        o silent) ns
        ∧ (∀ n, last ns = Some n →
                (n >=? config.refresh_url_retries (cfg c))%Z = true →
                status_of c' o = Some Status.error).
Proof.
  intros Hd Hsim Hbrain. revert c Hd Hsim.
  induction ns as [|n ns IH]; intros c [d Hd] Hsim.
  - exists c. simpl. rewrite app_nil_r. repeat split; eauto. done.
  - rewrite retry_loop_cons.
    destruct (retry_iteration E o silent n c d Hd Hsim Hbrain)
      as (c1 & -> & Hm1 & Hc1 & Hd1 & Ho1 & Hs1).
    destruct (IH c1 Hd1) as (c2 & Hl & Hm2 & Hc2 & Hd2 & Ho2 & Hs2);
      [congruence|].
    exists c2. rewrite Hc1 in *.
    split; [done|]. split; [congruence|]. split; [congruence|].
    split; [done|]. split.
    + rewrite Ho2, Ho1. simpl. by rewrite <- app_assoc.
    + intros m Hlast Hm. destruct ns as [|n' ns'].
      * simpl in Hlast. simplify_eq. simpl in Hl. unfold ret in Hl.
        simplify_eq. by apply Hs1.
      * apply (Hs2 m); [|done]. by rewrite last_cons_cons in Hlast.
Qed.

Lemma py_range_succ r :
  0 ≤ r → py_range (r + 1) = py_range r ++ [r].
Proof.
  intros Hr. unfold py_range.
  replace (Z.to_nat (r + 1)) with (S (Z.to_nat r)) by lia.
  rewrite seq_S, fmap_app. simpl. f_equal. f_equal. lia.
Qed.

Lemma py_range_lt r n : n ∈ py_range r → 0 ≤ n < r.
Proof.
  unfold py_range. intros (k & -> & Hk)%list_elem_of_fmap.
  apply elem_of_seq in Hk. lia.
Qed.

Lemma py_range_length r : length (py_range r) = Z.to_nat r.
Proof. unfold py_range. by rewrite length_fmap, length_seq. Qed.

Lemma flat_map_failed_cons r o silent n ns :
  flat_map (failed_attempt r o silent) (n :: ns)
  = failed_attempt r o silent n ++ flat_map (failed_attempt r o silent) ns.
Proof. reflexivity. Qed.

Lemma thread_starts_failed r o silent ns :
  thread_starts o (flat_map (failed_attempt r o silent) ns) = length ns.
Proof.
  unfold thread_starts. induction ns as [|n ns IH]; [done|].
  rewrite flat_map_failed_cons, filter_app, length_app, IH.
  unfold failed_attempt, too_many_errors.
  rewrite filter_cons, decide_True by done.
  destruct (n >=? r)%Z; rewrite !filter_cons;
    repeat (rewrite decide_False by done); done.
Qed.

Lemma refreshes_failed r o silent ns :
  refreshes o (flat_map (failed_attempt r o silent) ns)
  = length (filter (λ n, n < r) ns).
Proof.
  unfold refreshes. induction ns as [|n ns IH]; [done|].
  rewrite flat_map_failed_cons, filter_app, length_app, IH.
  unfold failed_attempt, too_many_errors.
  rewrite (filter_cons _ n), filter_cons, decide_False by done.
  destruct (n >=? r)%Z eqn:Hn; rewrite !filter_cons.
  - rewrite decide_False by done. rewrite (decide_False (P := n < r)) by lia.
    done.
  - rewrite decide_False by done. rewrite decide_True by done.
    rewrite decide_False by done.
    rewrite (decide_True (P := n < r)) by lia. done.
Qed.

Lemma too_many_failed r o silent ns :
  length (filter (λ e, e = too_many_errors silent)
                 (flat_map (failed_attempt r o silent) ns))
  = length (filter (λ n, r ≤ n) ns).
Proof.
  induction ns as [|n ns IH]; [done|].
  rewrite flat_map_failed_cons, filter_app, length_app, IH.
  unfold failed_attempt.
  rewrite (filter_cons _ n), filter_cons, decide_False by done.
  destruct (n >=? r)%Z eqn:Hn; rewrite !filter_cons.
  - rewrite decide_True by done. rewrite (decide_True (P := r ≤ n)) by lia.
    done.
  - repeat (rewrite decide_False by done).
    rewrite (decide_False (P := r ≤ n)) by lia. done.
Qed.

Lemma filter_range_lt r :
  0 ≤ r →
  filter (λ n, n < r) (py_range (r + 1)) = py_range r
  ∧ filter (λ n, r ≤ n) (py_range (r + 1)) = [r].
Proof.
  intros Hr. rewrite py_range_succ by done. rewrite !filter_app.
  rewrite !(filter_cons _ r), !filter_nil.
  rewrite decide_False by lia. rewrite decide_True by lia.
  assert (Hall : Forall (λ n, n < r) (py_range r)).
  { apply Forall_forall. intros n Hn. apply py_range_lt in Hn. lia. }
  split.
  - rewrite app_nil_r. induction Hall as [|x l Hx Hl IH]; [done|].
    rewrite filter_cons, decide_True by done. by f_equal.
  - induction Hall as [|x l Hx Hl IH]; [done|].
    rewrite filter_cons, decide_False by lia. done.
Qed.

(** The end of [download] for an item in error: only the view is told. *)
Lemma download_done_error E o c :
  status_of c o = Some Status.error →
  download_done E o c = (emit (ReportD o None) c, Ret tt).
Proof.
  unfold status_of. intros Hs.
  destruct (heap c !! o) as [d|] eqn:Hd; [|done]. simpl in Hs. simplify_eq.
  unfold download_done, _post_download, bind, report_d, act, deref, ask. simpl.
  rewrite Hd. rewrite !bool_decide_eq_false_2 by congruence.
  unfold ret. simpl. rewrite Hd.
  by rewrite bool_decide_eq_false_2 by congruence.
Qed.



(** ** Quiet calls *)

Lemma quiet_refl c : quiet c c.
Proof.
  split; try done. exists []. by rewrite app_nil_r.
Qed.

Lemma quiet_trans c1 c2 c3 : quiet c1 c2 → quiet c2 c3 → quiet c1 c3.
Proof.
  intros [Hm1 Hc1 Hq1 Hl1 Hs1 Hb1 (e1 & Ho1 & He1)]
         [Hm2 Hc2 Hq2 Hl2 Hs2 Hb2 (e2 & Ho2 & He2)].
  split; [congruence|congruence|congruence|congruence| | |].
  - intros o. by rewrite Hs2.
  - intros o. by rewrite Hb2.
  - exists (e1 ++ e2). rewrite Ho2, Ho1, <- app_assoc. split; [done|].
    by rewrite forallb_app, He1, He2.
Qed.

Lemma quiet_emit e c : is_thread_start e = false → quiet c (emit e c).
Proof.
  intros He. split; try done. exists [e]. split; [done|]. simpl.
  by rewrite He.
Qed.

Lemma quiet_modify o f c :
  (∀ d, status (f d) = status d) → (∀ d, callback (f d) = callback d) →
  quiet c (modify o f c).
Proof.
  intros Hs Hb. split; autorewrite with ctl; try done.
  - intros o'. destruct (decide (o = o')) as [<-|Hne].
    + rewrite status_of_modify. unfold status_of.
      destruct (heap c !! o); simpl; [|done]. by rewrite Hs.
    + by apply status_of_modify_ne.
  - intros o'. destruct (decide (o = o')) as [<-|Hne].
    + rewrite heap_modify. destruct (heap c !! o); simpl; [|done].
      by rewrite Hb.
    + by rewrite heap_modify_ne.
  - exists []. by rewrite app_nil_r.
Qed.

Lemma quiet_with_files f c : quiet c (with_files f c).
Proof. split; try done. exists []. by rewrite app_nil_r. Qed.

Lemma quiet_with_ffmpeg_actual_path p c : quiet c (with_ffmpeg_actual_path p c).
Proof. split; try done. exists []. by rewrite app_nil_r. Qed.

Lemma M_quiet_ret {A} (a : A) : M_quiet (ret a).
Proof. intros c c' r [= <- <-]. apply quiet_refl. Qed.

Lemma M_quiet_raise {A} : M_quiet (@raise A).
Proof. intros c c' r [= <- <-]. apply quiet_refl. Qed.

Lemma M_quiet_ask : M_quiet ask.
Proof. intros c c' r [= <- <-]. apply quiet_refl. Qed.

Lemma M_quiet_deref o : M_quiet (deref o).
Proof.
  intros c c' r. unfold deref.
  destruct (heap c !! o); intros [= <- <-]; apply quiet_refl.
Qed.

Lemma M_quiet_act f : (∀ c, quiet c (f c)) → M_quiet (act f).
Proof. intros H c c' r [= <- <-]. apply H. Qed.

Lemma M_quiet_log msg showpopup : M_quiet (log msg showpopup).
Proof. apply M_quiet_act. intros c. by apply quiet_emit. Qed.

Lemma M_quiet_bind {A B} (m : M A) (k : A → M B) :
  M_quiet m → (∀ a, M_quiet (k a)) → M_quiet (bind m k).
Proof.
  intros Hm Hk c c' r. unfold bind.
  destruct (m c) as [c1 [a|]] eqn:H1.
  - intros H2. eapply quiet_trans; [by eapply Hm|by eapply Hk].
  - intros [= <- <-]. by eapply Hm.
Qed.

Lemma M_quiet_try {A} (m h : M A) :
  M_quiet m → M_quiet h → M_quiet (try_except m h).
Proof.
  intros Hm Hh c c' r. unfold try_except.
  destruct (m c) as [c1 [a|]] eqn:H1.
  - intros [= <- <-]. by eapply Hm.
  - intros H2. eapply quiet_trans; [by eapply Hm|by eapply Hh].
Qed.

Lemma M_quiet_when b m : M_quiet m → M_quiet (when b m).
Proof. intros Hm. destruct b; [done|apply M_quiet_ret]. Qed.

(** Take a monadic term apart along its structure. *)
Ltac quiet_step :=
  lazymatch goal with
  | |- M_quiet (bind _ _) => apply M_quiet_bind; [|intros ?]
  | |- M_quiet (ret _) => apply M_quiet_ret
  | |- M_quiet raise => apply M_quiet_raise
  | |- M_quiet ask => apply M_quiet_ask
  | |- M_quiet (deref _) => apply M_quiet_deref
  | |- M_quiet (log _ _) => apply M_quiet_log
  | |- M_quiet (when _ _) => apply M_quiet_when
  | |- M_quiet (try_except _ _) => apply M_quiet_try
  | |- M_quiet (act (emit _)) =>
      apply M_quiet_act; intros ?; by apply quiet_emit
  | |- M_quiet (act (modify _ _)) =>
      apply M_quiet_act; intros ?; by apply quiet_modify
  | |- M_quiet (act (with_ffmpeg_actual_path _)) =>
      apply M_quiet_act; intros ?; apply quiet_with_ffmpeg_actual_path
  | |- M_quiet (if ?b then _ else _) => destruct b
  | |- M_quiet (match ?x with _ => _ end) => destruct x
  end.

Ltac quiet_tac := repeat quiet_step.

Lemma Controller_shutdown_pc_quiet E : M_quiet (Controller_shutdown_pc E).
Proof. unfold Controller_shutdown_pc. quiet_tac. Qed.

Lemma download_thumbnail_quiet E o : M_quiet (download_thumbnail E o).
Proof. unfold download_thumbnail. quiet_tac. Qed.

Lemma write_timestamp_quiet E o : M_quiet (write_timestamp E o).
Proof. unfold write_timestamp. quiet_tac. Qed.

Lemma post_download_quiet E o : M_quiet (_post_download E o).
Proof.
  unfold _post_download. quiet_tac;
    auto using download_thumbnail_quiet, write_timestamp_quiet,
               Controller_shutdown_pc_quiet.
Qed.

Lemma download_done_quiet E o : M_quiet (download_done E o).
Proof.
  unfold download_done, report_d. quiet_tac; auto using post_download_quiet.
Qed.

Lemma check_ffmpeg_quiet E : M_quiet (check_ffmpeg E).
Proof. unfold check_ffmpeg. quiet_tac. Qed.

Lemma rename_quiet E o : M_quiet (rename E o).
Proof. unfold rename. quiet_tac. Qed.

Lemma delete_file_quiet path : M_quiet (delete_file path).
Proof.
  unfold delete_file. apply M_quiet_act. intros c.
  eapply quiet_trans; [apply quiet_with_files|by apply quiet_emit].
Qed.

Lemma check_resumable_quiet E o silent : M_quiet (check_resumable E o silent).
Proof. unfold check_resumable. quiet_tac. Qed.

Lemma check_d_map_quiet E again o silent :
  M_quiet again → M_quiet (check_d_map E again o silent).
Proof.
  intros Ha. unfold check_d_map.
  quiet_tac; auto using check_resumable_quiet, rename_quiet.
Qed.

Lemma check_target_file_quiet E again o silent :
  M_quiet again → M_quiet (check_target_file E again o silent).
Proof.
  intros Ha. unfold check_target_file.
  quiet_tac; auto using check_d_map_quiet, rename_quiet, delete_file_quiet.
Qed.

Lemma check_folder_quiet E again o silent :
  M_quiet again → M_quiet (check_folder E again o silent).
Proof.
  intros Ha. unfold check_folder. cbv zeta.
  quiet_tac; auto using check_target_file_quiet.
Qed.

Lemma pre_download_checks_body_quiet E again o silent :
  M_quiet again → M_quiet (pre_download_checks_body E again o silent).
Proof.
  intros Ha. unfold pre_download_checks_body. cbv zeta.
  quiet_tac; auto using check_folder_quiet, check_ffmpeg_quiet.
Qed.

(** The checks before a download are quiet, whether they pass, fail or
    raise. *)
Lemma pre_download_checks_quiet E o silent :
  M_quiet (_pre_download_checks E o silent).
Proof.
  unfold _pre_download_checks.
  induction (recursion_limit E) as [|depth IH]; simpl.
  - apply M_quiet_raise.
  - by apply pre_download_checks_body_quiet.
Qed.

Lemma pre_download_checks_rec_quiet E depth o silent :
  M_quiet (pre_download_checks_rec E depth o silent).
Proof.
  induction depth as [|depth IH]; simpl.
  - apply M_quiet_raise.
  - by apply pre_download_checks_body_quiet.
Qed.

(** The handler of [download] is quiet. *)
Lemma download_except_quiet {A} (a : A) : M_quiet (download_except ;;; ret a).
Proof. unfold download_except. quiet_tac. Qed.

(** The handler of [download] returns nothing or raises again. *)
Lemma download_except_result {A} (a : A) c c' r :
  (download_except ;;; ret a) c = (c', r) → r = Ret a ∨ r = Raise.
Proof.
  unfold download_except, bind, log, act, ask, ret, raise.
  destruct (config.test_mode _); intros [= _ <-]; auto.
Qed.

(** ** Calls that keep a relation *)

Section Keeps.
Context (R : Controller → Controller → Prop).
Context `{!Reflexive R, !Transitive R}.

Lemma M_keeps_ret {A} (a : A) : M_keeps R (ret a).
Proof. intros c c' r [= <- <-]. reflexivity. Qed.

Lemma M_keeps_raise {A} : M_keeps R (@raise A).
Proof. intros c c' r [= <- <-]. reflexivity. Qed.

Lemma M_keeps_ask : M_keeps R ask.
Proof. intros c c' r [= <- <-]. reflexivity. Qed.

Lemma M_keeps_deref o : M_keeps R (deref o).
Proof.
  intros c c' r. unfold deref.
  destruct (heap c !! o); intros [= <- <-]; reflexivity.
Qed.

Lemma M_keeps_act f : (∀ c, R c (f c)) → M_keeps R (act f).
Proof. intros H c c' r [= <- <-]. apply H. Qed.

Lemma M_keeps_bind {A B} (m : M A) (k : A → M B) :
  M_keeps R m → (∀ a, M_keeps R (k a)) → M_keeps R (bind m k).
Proof.
  intros Hm Hk c c' r. unfold bind.
  destruct (m c) as [c1 [a|]] eqn:H1.
  - intros H2. etrans; [by eapply Hm|by eapply Hk].
  - intros [= <- <-]. by eapply Hm.
Qed.

Lemma M_keeps_try {A} (m h : M A) :
  M_keeps R m → M_keeps R h → M_keeps R (try_except m h).
Proof.
  intros Hm Hh c c' r. unfold try_except.
  destruct (m c) as [c1 [a|]] eqn:H1.
  - intros [= <- <-]. by eapply Hm.
  - intros H2. etrans; [by eapply Hm|by eapply Hh].
Qed.

Lemma M_keeps_when b m : M_keeps R m → M_keeps R (when b m).
Proof. intros Hm. destruct b; [done|apply M_keeps_ret]. Qed.

End Keeps.

(** Take a monadic term apart along its structure; [tac] settles the
    state changes. *)
Ltac keeps_step tac :=
  lazymatch goal with
  | |- M_keeps _ (bind _ _) => refine (M_keeps_bind _ _ _ _ _); [|intros ?]
  | |- M_keeps _ (ret _) => refine (M_keeps_ret _ _)
  | |- M_keeps _ raise => refine (M_keeps_raise _)
  | |- M_keeps _ ask => refine (M_keeps_ask _)
  | |- M_keeps _ (deref _) => refine (M_keeps_deref _ _)
  | |- M_keeps _ (when false _) => refine (M_keeps_ret _ _)
  | |- M_keeps _ (when _ _) => refine (M_keeps_when _ _ _ _)
  | |- M_keeps _ (try_except _ _) => refine (M_keeps_try _ _ _ _ _)
  | |- M_keeps _ (log _ _) => unfold log
  | |- M_keeps _ (report_d _ _) => unfold report_d
  | |- M_keeps _ (act _) => refine (M_keeps_act _ _ _); intros ?; tac
  | |- M_keeps _ (if ?b then _ else _) => destruct b
  | |- M_keeps _ (match ?x with _ => _ end) => destruct x
  end.

Ltac keeps_tac tac := repeat keeps_step tac.

(** A call that returns has run both halves of a sequence. *)
Lemma bind_ret_inv {A B} (m : M A) (k : A → M B) c c' b :
  bind m k c = (c', Ret b) →
  ∃ c1 a, m c = (c1, Ret a) ∧ k a c1 = (c', Ret b).
Proof.
  unfold bind. destruct (m c) as [c1 [a|]]; [|done]. eauto.
Qed.

(** ** Failed checks (C8) *)

(** [download] up to the checks: the copy is made and updated. *)
Lemma download_begin_eq E d uid video_idx silent download_later kwargs c o0 d0 :
  match d with Some o => Some o | None => get_d c uid video_idx end = Some o0 →
  heap c !! o0 = Some d0 →
  download_begin E d uid video_idx silent download_later kwargs c
  = try_except (check_and_admit E (length (heap c)) silent download_later)
               (download_except ;;; ret None)
               (modify (length (heap c)) (λ d, update_object E d kwargs)
                       (with_heap (heap c ++ [d0]) c)).
Proof.
  intros Ht Hd0. unfold download_begin, copy, bind, ask, deref, act, ret.
  by rewrite Ht, Hd0.
Qed.

(** The copy, updated with the keywords of the call. *)
Lemma modify_copy f d0 c :
  modify (length (heap c)) f (with_heap (heap c ++ [d0]) c)
  = with_heap (heap c ++ [f d0]) c.
Proof.
  unfold modify. simpl. rewrite lookup_app_r, Nat.sub_diag by lia. simpl.
  unfold with_heap. simpl. f_equal.
  by rewrite insert_app_r_alt, Nat.sub_diag by lia.
Qed.

(** *** The content type is kept *)

#[global] Instance typed_refl o : Reflexive (typed o).
Proof. intros c. split; [done|]. exists []. by rewrite app_nil_r. Qed.

#[global] Instance typed_trans o : Transitive (typed o).
Proof.
  intros c1 c2 c3 [Ht1 (e1 & Ho1)] [Ht2 (e2 & Ho2)].
  split; [congruence|]. exists (e1 ++ e2). by rewrite Ho2, Ho1, <- app_assoc.
Qed.

Lemma typed_emit o e c : typed o c (emit e c).
Proof. split; [done|]. by exists [e]. Qed.

Lemma typed_with_files o f c : typed o c (with_files f c).
Proof. split; [done|]. exists []. by rewrite app_nil_r. Qed.

Lemma typed_with_ffmpeg_actual_path o p c :
  typed o c (with_ffmpeg_actual_path p c).
Proof. split; [done|]. exists []. by rewrite app_nil_r. Qed.

Lemma typed_modify o o' f c :
  (∀ d, type (f d) = type d) → typed o c (modify o' f c).
Proof.
  intros Hf. split.
  - destruct (decide (o' = o)) as [->|Hne].
    + rewrite heap_modify. destruct (heap c !! o); simpl; [|done].
      by rewrite Hf.
    + by rewrite heap_modify_ne.
  - rewrite out_modify. exists []. by rewrite app_nil_r.
Qed.

Ltac typed_act :=
  first [ apply typed_emit
        | by apply typed_modify
        | apply typed_with_ffmpeg_actual_path
        | etrans; [apply typed_with_files|apply typed_emit] ].

Ltac typed_tac := keeps_tac typed_act.

Lemma check_ffmpeg_typed E o : M_keeps (typed o) (check_ffmpeg E).
Proof. unfold check_ffmpeg. typed_tac. Qed.

Lemma rename_typed E o o' : M_keeps (typed o) (rename E o').
Proof. unfold rename. typed_tac. Qed.

Lemma delete_file_typed o path : M_keeps (typed o) (delete_file path).
Proof. unfold delete_file. typed_tac. Qed.

Lemma typed_passes o silent c c' :
  typed o c c' → passes_type o silent c → passes_type o silent c'.
Proof.
  intros [Ht _] Hp d Hd Hs. rewrite Hd in Ht. simpl in Ht.
  destruct (heap c !! o) as [d0|] eqn:Hd0; [|done].
  injection Ht as Ht. unfold html_type. rewrite Ht. by apply (Hp d0).
Qed.

(** *** Failures are reported *)

Section Reports.
Context (o : nat) (silent : bool).

Lemma reported_after c c1 c' :
  (∃ evs, out c1 = out c ++ evs) → reported silent c1 c' →
  reported silent c c'.
Proof.
  intros [e1 H1] (evs & e & Ho & He). exists (e1 ++ evs), e.
  split; [|done]. by rewrite Ho, H1, <- !app_assoc.
Qed.

Lemma M_reports_bind {A} (m : M A) (k : A → M bool) :
  M_keeps (typed o) m → (∀ a, M_reports o silent (k a)) →
  M_reports o silent (bind m k).
Proof.
  intros Hm Hk c c' Hp. unfold bind.
  destruct (m c) as [c1 [a|]] eqn:H1; [|done]. intros H2.
  pose proof (Hm _ _ _ H1) as Ht.
  eapply reported_after; [by destruct Ht|].
  eapply Hk; [|exact H2]. by eapply typed_passes.
Qed.

(** A stage that has failed ends the checks at once. *)
Lemma M_reports_stage (m k : M bool) :
  M_keeps (typed o) m → M_reports o silent m → M_reports o silent k →
  M_reports o silent (b <- m ;; if negb b then ret false else k).
Proof.
  intros Ht Hm Hk c c' Hp. unfold bind.
  destruct (m c) as [c1 [[|]|]] eqn:H1; simpl; [| |done].
  - intros H2. pose proof (Ht _ _ _ H1) as Ht1.
    eapply reported_after; [by destruct Ht1|].
    eapply Hk; [|exact H2]. by eapply typed_passes.
  - intros [= <-]. by eapply Hm.
Qed.

Lemma M_reports_ret_true : M_reports o silent (ret true).
Proof. by intros c c' _ [=]. Qed.

Lemma M_reports_raise : M_reports o silent raise.
Proof. by intros c c' _ [=]. Qed.

(** A report followed by the return. *)
Lemma M_reports_emit e (b : bool) :
  e ∈ failure_reports silent →
  M_reports o silent (act (emit e) ;;; ret b).
Proof.
  intros He c c' _. unfold bind, act, ret. intros [= <- _].
  exists [], e. by split.
Qed.

Lemma M_reports_emit_if e (b : bool) (m1 m2 : M bool) :
  e ∈ failure_reports silent →
  (∀ c, (m1 c).1 = c) → (∀ c, (m2 c).1 = c) →
  M_reports o silent (act (emit e) ;;; if b then m1 else m2).
Proof.
  intros He H1 H2 c c' _. unfold bind, act.
  intros Hrun. exists [], e. split; [|done].
  destruct b.
  - specialize (H1 (emit e c)). rewrite Hrun in H1. simpl in H1. by subst.
  - specialize (H2 (emit e c)). rewrite Hrun in H2. simpl in H2. by subst.
Qed.

End Reports.

Ltac in_reports :=
  unfold failure_reports; rewrite !elem_of_cons; tauto.

Section ReportsChecks.
Context (E : Env) (o : nat) (silent : bool).

Lemma check_resumable_reports :
  M_reports o silent (check_resumable E o silent).
Proof.
  unfold check_resumable.
  refine (M_reports_bind _ _ _ _ _ _); [refine (M_keeps_deref _ _)|intros d].
  destruct (negb (resumable d) && negb silent); [|apply M_reports_ret_true].
  apply M_reports_emit_if; [in_reports|done|done].
Qed.

Lemma log_typed msg sp : M_keeps (typed o) (log msg sp).
Proof. typed_tac. Qed.

Lemma check_d_map_reports again :
  M_reports o silent again → M_reports o silent (check_d_map E again o silent).
Proof.
  intros Ha. unfold check_d_map.
  refine (M_reports_bind _ _ _ _ _ _); [refine (M_keeps_deref _ _)|intros d].
  refine (M_reports_bind _ _ _ _ _ _); [refine (M_keeps_ask _)|intros c].
  destruct (d_map c !! uid d) as [o'|].
  - refine (M_reports_bind _ _ _ _ _ _); [apply log_typed|intros _].
    refine (M_reports_bind _ _ _ _ _ _); [refine (M_keeps_deref _ _)|intros d'].
    destruct (bool_decide _).
    + refine (M_reports_bind _ _ _ _ _ _); [apply log_typed|intros _].
      refine (M_reports_bind _ _ _ _ _ _); [typed_tac|intros _].
      apply check_resumable_reports.
    + refine (M_reports_bind _ _ _ _ _ _); [apply log_typed|intros _].
      refine (M_reports_bind _ _ _ _ _ _); [apply rename_typed|intros _].
      done.
  - refine (M_reports_bind _ _ _ _ _ _); [apply log_typed|intros _].
    apply check_resumable_reports.
Qed.

Lemma check_target_file_reports again :
  M_reports o silent again →
  M_reports o silent (check_target_file E again o silent).
Proof.
  intros Ha. unfold check_target_file.
  refine (M_reports_bind _ _ _ _ _ _); [refine (M_keeps_deref _ _)|intros d].
  refine (M_reports_bind _ _ _ _ _ _); [refine (M_keeps_ask _)|intros c].
  destruct (bool_decide (target_file d ∈ files c));
    [|by apply check_d_map_reports].
  refine (M_reports_bind _ _ _ _ _ _); [typed_tac|intros action].
  destruct (bool_decide (action ∉ _)).
  { apply (M_reports_emit o silent (Log "Download cancelled by user" false)).
    in_reports. }
  destruct (bool_decide (action = "Rename")).
  - refine (M_reports_bind _ _ _ _ _ _); [apply rename_typed|intros _].
    refine (M_reports_bind _ _ _ _ _ _); [apply log_typed|intros _]. done.
  - refine (M_reports_bind _ _ _ _ _ _); [apply delete_file_typed|intros _].
    by apply check_d_map_reports.
Qed.

Lemma check_folder_reports again :
  M_reports o silent again → M_reports o silent (check_folder E again o silent).
Proof.
  intros Ha. unfold check_folder. cbv zeta.
  refine (M_reports_bind _ _ _ _ _ _); [refine (M_keeps_deref _ _)|intros d].
  refine (M_reports_bind _ _ _ _ _ _); [refine (M_keeps_ask _)|intros c].
  assert (Hfail : ∀ msg, Log msg (negb silent) ∈ failure_reports silent →
            M_reports o silent
              (log msg (negb silent) ;;;
               if config.test_mode (cfg c) then raise else ret false)).
  { intros msg Hin. unfold log.
    apply (M_reports_emit_if o silent _ _ raise (ret false)); done. }
  destruct (if bool_decide _ then FolderOk else folder_probe E _);
    try (apply Hfail; in_reports).
  refine (M_reports_bind _ _ _ _ _ _); [typed_tac|intros _].
  refine (M_reports_bind _ _ _ _ _ _); [typed_tac|intros _].
  refine (M_reports_bind _ _ _ _ _ _); [refine (M_keeps_deref _ _)|intros d'].
  destruct (name d' =? "")%string.
  - apply (M_reports_emit o silent (Log "File name can't be empty!!"
                                        (negb silent))). in_reports.
  - by apply check_target_file_reports.
Qed.

(** The search for ffmpeg, as a stage of the checks. *)
Lemma ffmpeg_stage_reports (media windows : bool) :
  M_reports o silent
    (if media then
       found <- check_ffmpeg E ;;
       if found then ret true
       else
         (if negb silent && windows then
            act (emit (Popup 2)) ;;;
            when (bool_decide (user_response E 2%nat = "Download"))
                 (act (emit DownloadFfmpeg))
          else log "FFMPEG is missing" (negb silent)) ;;;
         ret false
     else ret true).
Proof.
  destruct media; [|apply M_reports_ret_true].
  refine (M_reports_bind _ _ _ _ _ _); [apply check_ffmpeg_typed|intros found].
  destruct found; [apply M_reports_ret_true|].
  intros c c' _. unfold bind, act, log, when, ret.
  destruct (negb silent && windows).
  - destruct (bool_decide _); intros [= <-].
    + exists [Popup 2], DownloadFfmpeg. split; [|in_reports].
      simpl. by rewrite <- app_assoc.
    + exists [], (Popup 2). split; [done|in_reports].
  - intros [= <-]. exists [], (Log "FFMPEG is missing" (negb silent)).
    split; [done|in_reports].
Qed.

Lemma ffmpeg_stage_typed (media windows : bool) :
  M_keeps (typed o)
    (if media then
       found <- check_ffmpeg E ;;
       if found then ret true
       else
         (if negb silent && windows then
            act (emit (Popup 2)) ;;;
            when (bool_decide (user_response E 2%nat = "Download"))
                 (act (emit DownloadFfmpeg))
          else log "FFMPEG is missing" (negb silent)) ;;;
         ret false
     else ret true).
Proof.
  destruct media; [|refine (M_keeps_ret _ _)].
  refine (M_keeps_bind _ _ _ _ _); [apply check_ffmpeg_typed|intros found].
  typed_tac.
Qed.

Lemma pre_download_checks_body_reports again :
  M_reports o silent again →
  M_reports o silent (pre_download_checks_body E again o silent).
Proof.
  intros Ha c c' Hp. unfold pre_download_checks_body. cbv zeta.
  unfold bind at 1. unfold deref.
  destruct (heap c !! o) as [d|] eqn:Hd; [|done].
  unfold bind at 1. unfold ask.
  (* the content type *)
  set (rest := λ c0 : Controller,
         if Status.is_active (status d) then
           log "download is already in progress for this item" false ;;;
           ret false
         else
           match filter (λ item, item ∈ subtype_list d) ["f4m"; "ism"] with
           | _ :: _ =>
               log "unsupported protocol: stream type is not supported yet"
                   (negb silent) ;;;
               ret false
           | [] =>
               ffmpeg <- (if bool_decide
                                (type d ∈ [MediaType.video; MediaType.audio;
                                           MediaType.key]) then
                            found <- check_ffmpeg E ;;
                            if found then ret true
                            else
                              (if negb silent
                                  && bool_decide
                                       (config.operating_system (cfg c0)
                                        = "Windows")
                               then
                                 act (emit (Popup 2)) ;;;
                                 when (bool_decide (user_response E 2%nat
                                                    = "Download"))
                                      (act (emit DownloadFfmpeg))
                               else log "FFMPEG is missing" (negb silent)) ;;;
                              ret false
                          else ret true) ;;
               if negb ffmpeg then ret false
               else check_folder E again o silent
           end).
  assert (Hrest : ∀ c0, M_reports o silent (rest c0)).
  { intros c0. unfold rest.
    destruct (Status.is_active (status d)).
    { apply (M_reports_emit o silent
               (Log "download is already in progress for this item" false)).
      in_reports. }
    destruct (filter _ _).
    - apply M_reports_stage;
        [apply ffmpeg_stage_typed|apply ffmpeg_stage_reports
        |by apply check_folder_reports].
    - apply (M_reports_emit o silent
               (Log "unsupported protocol: stream type is not supported yet"
                    (negb silent))). in_reports. }
  change (((html <- (if (type d =? "")%string || (type d =? "text/html")%string
                     then
                       if negb silent then
                         act (emit (Popup 1)) ;;;
                         when (bool_decide (user_response E 1%nat = "Ok"))
                              (act (modify o (set_accept_html true))) ;;;
                         ret true
                       else ret false
                     else ret true) ;;
            if negb html then ret false else rest c) c)
          = (c', Ret false) → reported silent c c').
  fold (html_type d).
  destruct (html_type d) eqn:Hh.
  - destruct silent eqn:Hs; [by rewrite (Hp d Hd eq_refl) in Hh|].
    simpl. intros Hrun.
    assert (Hk : M_keeps (typed o)
              (act (emit (Popup 1)) ;;;
               when (bool_decide (user_response E 1%nat = "Ok"))
                    (act (modify o (set_accept_html true))) ;;;
               ret true)) by typed_tac.
    revert Hrun. unfold bind at 1.
    destruct ((act (emit (Popup 1)) ;;;
               when (bool_decide (user_response E 1%nat = "Ok"))
                    (act (modify o (set_accept_html true))) ;;;
               ret true) c) as [c1 r1] eqn:H1.
    pose proof (Hk _ _ _ H1) as Ht.
    assert (r1 = Ret true) as ->.
    { revert H1. unfold bind, act, when, ret.
      destruct (bool_decide (user_response E 1%nat = "Ok"));
        by intros [= _ <-]. }
    simpl. intros H2. eapply reported_after; [by destruct Ht|].
    eapply Hrest; [|exact H2]. by eapply typed_passes.
  - unfold bind at 1, ret at 1. simpl. by apply Hrest.
Qed.

Lemma pre_download_checks_rec_reports depth :
  M_reports o silent (pre_download_checks_rec E depth o silent).
Proof.
  induction depth as [|depth IH]; simpl.
  - apply M_reports_raise.
  - by apply pre_download_checks_body_reports.
Qed.

End ReportsChecks.

(** *** What a failure leaves behind *)

(** The checks begin with the content type. *)
Lemma pre_download_checks_start E o silent c d :
  heap c !! o = Some d → recursion_limit E ≠ 0%nat →
  _pre_download_checks E o silent c
  = (html <- (if html_type d then
                if negb silent then
                  act (emit (Popup 1)) ;;;
                  when (bool_decide (user_response E 1%nat = "Ok"))
                       (act (modify o (set_accept_html true))) ;;;
                  ret true
                else ret false
              else ret true) ;;
     if negb html then ret false
     else if Status.is_active (status d) then
       log "download is already in progress for this item" false ;;; ret false
     else
       match filter (λ item, item ∈ subtype_list d) ["f4m"; "ism"] with
       | _ :: _ =>
           log "unsupported protocol: stream type is not supported yet"
               (negb silent) ;;;
           ret false
       | [] =>
           ffmpeg <- (if bool_decide (type d ∈ [MediaType.video;
                                                 MediaType.audio;
                                                 MediaType.key]) then
                        found <- check_ffmpeg E ;;
                        if found then ret true
                        else
                          (if negb silent
                              && bool_decide (config.operating_system (cfg c)
                                              = "Windows")
                           then
                             act (emit (Popup 2)) ;;;
                             when (bool_decide (user_response E 2%nat
                                                = "Download"))
                                  (act (emit DownloadFfmpeg))
                           else log "FFMPEG is missing" (negb silent)) ;;;
                          ret false
                      else ret true) ;;
           if negb ffmpeg then ret false
           else check_folder E (pre_download_checks_rec E
                                  (pred (recursion_limit E)) o silent)
                             o silent
       end) c.
Proof.
  intros Hd Hrec. unfold _pre_download_checks.
  destruct (recursion_limit E) as [|depth]; [done|]. simpl.
  unfold pre_download_checks_body, bind at 1, deref.
  rewrite Hd. unfold bind at 1, ask. done.
Qed.




(** ** After the download (C9) *)

(** [download_thumbnail] for an item [d]: what it leaves in the trace,
    and that it raises only in test mode. *)
Lemma download_thumbnail_run E o c d :
  heap c !! o = Some d →
  download_thumbnail E o c
  = (emit_all (thumbnail_events E o d) c,
     if thumbnail_fails E d && config.test_mode (cfg c) then Raise
     else Ret tt).
Proof.
  intros Hd.
  unfold download_thumbnail, thumbnail_events, thumbnail_fails, try_except,
    bind, deref, act, log, ask, ret, raise.
  rewrite Hd.
  destruct (bool_decide (status d = Status.completed)); simpl;
    [|by rewrite emit_all_nil].
  destruct (negb (thumbnail_url d =? "")%string); simpl;
    [|by rewrite emit_all_nil].
  destruct (thumbnail_fetch_ok E d); simpl; [done|].
  destruct (config.test_mode (cfg c));
    by rewrite !emit_as_emit_all, !emit_all_emit_all.
Qed.

(** [write_timestamp], likewise. *)
Lemma write_timestamp_run E o c d :
  heap c !! o = Some d →
  write_timestamp E o c
  = (emit_all (timestamp_events E o d) c,
     if timestamp_fails E d && config.test_mode (cfg c) then Raise
     else Ret tt).
Proof.
  intros Hd.
  unfold write_timestamp, timestamp_events, timestamp_fails, try_except,
    bind, deref, act, log, ask, ret, raise.
  rewrite Hd.
  destruct (bool_decide (status d = Status.completed)); simpl;
    [|by rewrite emit_all_nil].
  destruct (last_modified E d) as [[t|]|]; simpl.
  - destruct (utime_ok E d); simpl;
      [|destruct (config.test_mode (cfg c))];
      by rewrite !emit_as_emit_all, !emit_all_emit_all.
  - by rewrite emit_all_nil.
  - by destruct (config.test_mode (cfg c)).
Qed.

(** The command of the item always returns. *)
Lemma command_run E d c :
  when (negb (on_completion_command d =? "")%string)
       (act (emit (RunCommand (on_completion_command d))) ;;;
        when (run_command E (on_completion_command d)).1
             (log "error executing command:" false)) c
  = (emit_all (command_events E d) c, Ret tt).
Proof.
  unfold command_events, when, bind, act, log, ret.
  destruct (on_completion_command d =? "")%string; simpl;
    [by rewrite emit_all_nil|].
  destruct (run_command E (on_completion_command d)).1; simpl;
    unfold act; by rewrite !emit_as_emit_all, ?emit_all_emit_all.
Qed.

(** The checksum, when it can be computed. *)
Lemma checksum_run E o d c :
  checksum_ok E d = true →
  (log "" false ;;;
   log "Calculating MD5 and SHA256" false ;;;
   act (emit (CalcChecksum o)) ;;;
   (if checksum_ok E d then ret tt else raise) ;;;
   log "MD5:" false ;;;
   log "SHA256:" false) c
  = (emit_all (checksum_events o) c, Ret tt).
Proof.
  intros ->. unfold bind, log, act, ret. simpl.
  by rewrite !emit_as_emit_all, !emit_all_emit_all.
Qed.

Lemma emit_all_modify o f evs c :
  modify o f (emit_all evs c) = emit_all evs (modify o f c).
Proof. unfold modify. simpl. by destruct (heap c !! o). Qed.

Lemma shutdown_events_cfg E c c' :
  cfg c' = cfg c → shutdown_events E c' = shutdown_events E c.
Proof. intros H. unfold shutdown_events. by rewrite H. Qed.

(** C9, as the code has it.  For a completed item whose checksum, if
    asked for, can be computed, the actions after the download are the
    thumbnail, the checksum, the timestamp, the command of the item and
    the shutdown, in this order.  (1) Outside test mode all of them run,
    whatever fails: [_post_download] returns, the trace holds what each
    action leaves (for a failed thumbnail fetch, timestamp write or
    command its line in the log, and the actions after it all the same),
    the shutdown comes last, and the item is still completed.  (2) In
    test mode a failed thumbnail fetch is raised again: the thumbnail is
    all that was done.  (3) In test mode a failed timestamp write is
    raised again: the command and the shutdown are not run.  (4) In test
    mode without such a failure everything runs as in (1).  The checksum
    is computed without a guard of its own; nothing is claimed here
    about its failure. *)
Theorem post_download_best_effort E o c d :
  heap c !! o = Some d → status d = Status.completed →
  (config.checksum (cfg c) = true → checksum_ok E d = true) →
  let c' := (_post_download E o c).1 in
  let r := (_post_download E o c).2 in
  let actions := post_download_actions E o c d in
  let thumbnail_failed :=
    config.download_thumbnail (cfg c) && thumbnail_fails E d in
  let timestamp_failed :=
    config.use_server_timestamp (cfg c) && timestamp_fails E d in
  status_of c' o = Some Status.completed
  ∧ (config.test_mode (cfg c) = false →
     r = Ret tt ∧ new_events c c' = concat actions
     ∧ (thumbnail_failed = true →
        Log "controller._download_thumbnail()> error:" false
        ∈ new_events c c')
     ∧ (timestamp_failed = true →
        Log "controller._write_timestamp()> error:" false ∈ new_events c c')
     ∧ (on_completion_command d ≠ "" →
        RunCommand (on_completion_command d) ∈ new_events c c')
     ∧ (shutdown_pc d = true →
        ∃ evs, new_events c c' = evs ++ shutdown_events E c))
  ∧ (config.test_mode (cfg c) = true → thumbnail_failed = true →
     r = Raise ∧ new_events c c' = concat (take 1 actions))
  ∧ (config.test_mode (cfg c) = true → thumbnail_failed = false →
     timestamp_failed = true →
     r = Raise ∧ new_events c c' = concat (take 3 actions))
  ∧ (config.test_mode (cfg c) = true → thumbnail_failed = false →
     timestamp_failed = false →
     r = Ret tt ∧ new_events c c' = concat actions).
Proof.
  intros Hd Hs Hck c' r actions thumbnail_failed timestamp_failed.
  set (e1 := if config.download_thumbnail (cfg c) then thumbnail_events E o d
             else []).
  set (e2 := if config.checksum (cfg c) then checksum_events o else []).
  set (e3 := if config.use_server_timestamp (cfg c)
             then timestamp_events E o d else []).
  set (e4 := command_events E d).
  set (e5 := if shutdown_pc d then shutdown_events E c else []).
  set (cf := if shutdown_pc d then modify o (set_shutdown_pc false) c else c).
  assert (Hrun : _post_download E o c
                 = if thumbnail_failed && config.test_mode (cfg c)
                   then (emit_all e1 c, Raise)
                   else if timestamp_failed && config.test_mode (cfg c)
                   then (emit_all (e1 ++ e2 ++ e3) c, Raise)
                   else (emit_all (e1 ++ e2 ++ e3 ++ e4 ++ e5) cf, Ret tt)).
  { unfold _post_download. unfold bind at 1. unfold deref. rewrite Hd.
    unfold bind at 1. unfold ask. rewrite bool_decide_eq_true_2 by done.
    (* the thumbnail *)
    unfold bind at 1.
    assert (H1 : when (config.download_thumbnail (cfg c))
                      (download_thumbnail E o) c
                 = (emit_all e1 c,
                    if thumbnail_failed && config.test_mode (cfg c)
                    then Raise else Ret tt)).
    { unfold e1, thumbnail_failed, when.
      destruct (config.download_thumbnail (cfg c)); simpl.
      - by apply download_thumbnail_run.
      - by rewrite emit_all_nil. }
    rewrite H1.
    destruct (thumbnail_failed && config.test_mode (cfg c)); [done|].
    (* the checksum *)
    unfold bind at 1.
    assert (H2 : when (config.checksum (cfg c))
                   (log "" false ;;;
                    log "Calculating MD5 and SHA256" false ;;;
                    act (emit (CalcChecksum o)) ;;;
                    (if checksum_ok E d then ret tt else raise) ;;;
                    log "MD5:" false ;;;
                    log "SHA256:" false) (emit_all e1 c)
                 = (emit_all (e1 ++ e2) c, Ret tt)).
    { unfold e2, when. destruct (config.checksum (cfg c)) eqn:Hc.
      - rewrite checksum_run by auto. by rewrite emit_all_emit_all.
      - by rewrite app_nil_r. }
    rewrite H2.
    (* the timestamp *)
    unfold bind at 1.
    assert (H3 : when (config.use_server_timestamp (cfg c))
                      (write_timestamp E o) (emit_all (e1 ++ e2) c)
                 = (emit_all (e1 ++ e2 ++ e3) c,
                    if timestamp_failed && config.test_mode (cfg c)
                    then Raise else Ret tt)).
    { unfold e3, timestamp_failed, when.
      destruct (config.use_server_timestamp (cfg c)); simpl.
      - rewrite (write_timestamp_run E o _ d) by done.
        by rewrite emit_all_emit_all, app_assoc.
      - by rewrite !app_nil_r. }
    rewrite H3.
    destruct (timestamp_failed && config.test_mode (cfg c)); [done|].
    (* the command *)
    unfold bind at 1. rewrite command_run, emit_all_emit_all. fold e4.
    (* the shutdown *)
    unfold e5, cf, when. destruct (shutdown_pc d).
    - unfold bind, act. rewrite Controller_shutdown_pc_events.
      rewrite emit_all_modify, emit_all_emit_all.
      rewrite (shutdown_events_cfg E c) by (simpl; apply cfg_modify).
      by rewrite <- !app_assoc.
    - unfold ret. by rewrite !app_nil_r, <- !app_assoc. }
  assert (Hst : ∀ evs, status_of (emit_all evs cf) o = Some Status.completed
                       ∧ status_of (emit_all evs c) o = Some Status.completed).
  { intros evs. unfold status_of, cf. simpl. split; [|by rewrite Hd; simpl; f_equal].
    destruct (shutdown_pc d); [|by rewrite Hd; simpl; f_equal].
    rewrite heap_modify, Hd. simpl. by f_equal. }
  assert (Hcf : out cf = out c).
  { unfold cf. destruct (shutdown_pc d); [apply out_modify|done]. }
  assert (Hnew : ∀ evs, new_events c (emit_all evs cf) = evs).
  { intros evs. unfold new_events. simpl. by rewrite Hcf, drop_app_length. }
  assert (Hall : concat actions = e1 ++ e2 ++ e3 ++ e4 ++ e5).
  { unfold actions, post_download_actions. simpl. by rewrite app_nil_r. }
  assert (H1 : concat (take 1 actions) = e1).
  { unfold actions, post_download_actions. simpl. by rewrite app_nil_r. }
  assert (H3 : concat (take 3 actions) = e1 ++ e2 ++ e3).
  { unfold actions, post_download_actions. simpl. by rewrite app_nil_r. }
  unfold c', r. rewrite Hrun, Hall, H1, H3. clear Hrun.
  split.
  { destruct (thumbnail_failed && _); [apply Hst|].
    destruct (timestamp_failed && _); apply Hst. }
  split; [|split; [|split]].
  - intros Htm. rewrite Htm, !andb_false_r. simpl. rewrite Hnew.
    split; [done|]. split; [done|]. split; [|split; [|split]].
    + unfold thumbnail_failed, thumbnail_fails, e1, thumbnail_events.
      intros (Hcfg & (Hthumb & Hok)%andb_true_iff)%andb_true_iff.
      rewrite Hcfg, Hthumb. apply negb_true_iff in Hok. rewrite Hok.
      apply elem_of_app. left. rewrite !elem_of_cons. auto.
    + unfold timestamp_failed, timestamp_fails, e3, timestamp_events.
      intros (Hcfg & (Hcompl & Hlm)%andb_true_iff)%andb_true_iff.
      rewrite Hcfg, Hcompl.
      do 2 (apply elem_of_app; right). apply elem_of_app. left.
      destruct (last_modified E d) as [[t|]|]; [|done|].
      * apply negb_true_iff in Hlm. rewrite Hlm. simpl.
        rewrite !elem_of_cons. auto.
      * rewrite !elem_of_cons. auto.
    + intros Hcmd. unfold e4, command_events.
      apply String.eqb_neq in Hcmd. rewrite Hcmd.
      do 3 (apply elem_of_app; right). apply elem_of_app. left.
      rewrite !elem_of_cons. auto.
    + intros Hsh. unfold e5. rewrite Hsh.
      exists (e1 ++ e2 ++ e3 ++ e4). by rewrite <- !app_assoc.
  - intros -> ->. simpl. by rewrite new_events_emit_all.
  - intros -> -> ->. simpl. by rewrite new_events_emit_all.
  - intros -> -> ->. simpl. by rewrite Hnew.
Qed.

Lemma post_download_best_effort_witness :
  let c' := (_post_download demo_env_no_thumbnail 0%nat (demo_finished false)).1 in
  status_of c' 0%nat = Some Status.completed
  ∧ new_events (demo_finished false) c'
    = [ FetchThumbnail 0; Log "controller._download_thumbnail()> error:" false;
        RunCommand "echo done" ].
Proof.
  destruct (post_download_best_effort demo_env_no_thumbnail 0%nat
              (demo_finished false) demo_finished_job)
    as (Hst & Hout & _).
  - reflexivity.
  - reflexivity.
  - discriminate.
  - destruct Hout as (_ & Hev & _); [reflexivity|].
    split; [exact Hst|]. rewrite Hev. vm_compute. reflexivity.
Defined.

(** C9 as stated fails in test mode: the thumbnail can not be fetched,
    the exception is raised again, [_post_download] ends with it and the
    command of the item is never run. *)
Lemma post_download_test_mode_counterexample :
  (_post_download demo_env_no_thumbnail 0%nat (demo_finished true)).2 = Raise
  ∧ on_completion_command demo_finished_job = "echo done"
  ∧ RunCommand "echo done"
    ∉ new_events (demo_finished true)
        (_post_download demo_env_no_thumbnail 0%nat (demo_finished true)).1.
Proof.
  split; [by vm_compute|]. split; [done|].
  apply (bool_decide_unpack _). by vm_compute.
Qed.

(** ** Counting the active downloads *)

Lemma active_downloads_among c :
  active_downloads c = Z.of_nat (active_among c (d_map_values c)).
Proof. reflexivity. Qed.

Lemma active_among_ext c c' os :
  (∀ o, o ∈ os → active_obj c' o = active_obj c o) →
  active_among c' os = active_among c os.
Proof.
  unfold active_among. induction os as [|o os IH]; intros H; [done|].
  rewrite !filter_cons, (H o) by apply list_elem_of_here.
  destruct (decide (active_obj c o = true)); simpl; rewrite IH; auto.
  all: intros o' Ho'; apply H; by apply list_elem_of_further.
Qed.

Lemma active_among_mono c c' os :
  (∀ o, o ∈ os → active_obj c' o = true → active_obj c o = true) →
  (active_among c' os ≤ active_among c os)%nat.
Proof.
  unfold active_among. induction os as [|o os IH]; intros H; [done|].
  rewrite !filter_cons.
  assert (IH' : (length (filter (λ o, active_obj c' o = true) os)
                 ≤ length (filter (λ o, active_obj c o = true) os))%nat).
  { apply IH. intros o' Ho'. apply H. by apply list_elem_of_further. }
  destruct (decide (active_obj c' o = true)) as [Ha|Ha].
  - rewrite decide_True by (apply H; [apply list_elem_of_here|done]).
    simpl. lia.
  - destruct (decide (active_obj c o = true)); simpl; lia.
Qed.

Lemma active_among_perm c os os' :
  os ≡ₚ os' → active_among c os = active_among c os'.
Proof. intros H. unfold active_among. by rewrite H. Qed.

Lemma active_among_cons c o os :
  active_among c (o :: os)
  = ((if active_obj c o then 1 else 0) + active_among c os)%nat.
Proof.
  unfold active_among. rewrite filter_cons.
  by destruct (active_obj c o).
Qed.

(** Setting the status of one object: the count over objects that do not
    contain it does not change. *)
Lemma active_obj_modify_ne o o' f c :
  o ≠ o' → active_obj (modify o f c) o' = active_obj c o'.
Proof. intros H. unfold active_obj. by rewrite status_of_modify_ne. Qed.

Lemma d_map_values_insert (m : gmap string nat) uid o :
  (map_to_list (<[uid := o]> m)).*2 ≡ₚ o :: (map_to_list (delete uid m)).*2.
Proof.
  rewrite <- insert_delete_eq.
  rewrite map_to_list_insert by apply lookup_delete_eq. done.
Qed.

Lemma d_map_values_delete (m : gmap string nat) uid o :
  m !! uid = Some o →
  (map_to_list m).*2 ≡ₚ o :: (map_to_list (delete uid m)).*2.
Proof.
  intros H. rewrite <- (map_to_list_delete m uid o H). done.
Qed.

Lemma elem_of_d_map_values c o :
  o ∈ d_map_values c ↔ ∃ uid, d_map c !! uid = Some o.
Proof.
  unfold d_map_values. rewrite list_elem_of_fmap. split.
  - intros ([uid o'] & -> & Hin). exists uid.
    by apply elem_of_map_to_list in Hin.
  - intros [uid H]. exists (uid, o). split; [done|].
    by apply elem_of_map_to_list.
Qed.

(** Deleting an entry never raises the count. *)
Lemma active_among_delete c (m : gmap string nat) uid :
  (active_among c (map_to_list (delete uid m)).*2
   ≤ active_among c (map_to_list m).*2)%nat.
Proof.
  destruct (m !! uid) as [o|] eqn:H.
  - rewrite (active_among_perm c _ _ (d_map_values_delete m uid o H)).
    rewrite active_among_cons. lia.
  - by rewrite delete_id.
Qed.

(** ** Admission (C1, C5) *)

(** Checks that pass were made on an item that is not active. *)
Lemma pre_download_checks_not_active E o silent c c' :
  _pre_download_checks E o silent c = (c', Ret true) → active_obj c o = false.
Proof.
  unfold _pre_download_checks.
  destruct (recursion_limit E) as [|depth]; [done|]. simpl.
  unfold pre_download_checks_body, bind, deref, ask, active_obj, status_of.
  destruct (heap c !! o) as [d|] eqn:Hd; [|done]. simpl.
  destruct (Status.is_active (status d)); [|done].
  unfold log, act, ret, when.
  destruct (_ || _); [destruct (negb silent); [destruct (bool_decide _)|]|];
    simpl; done.
Qed.

Lemma active_obj_status c c' o :
  status_of c' o = status_of c o → active_obj c' o = active_obj c o.
Proof. intros H. unfold active_obj. by rewrite H. Qed.

Lemma active_downloads_ext c c' :
  d_map c' = d_map c → (∀ o, status_of c' o = status_of c o) →
  active_downloads c' = active_downloads c.
Proof.
  intros Hm Hs. rewrite !active_downloads_among. unfold d_map_values.
  rewrite Hm. f_equal. apply (active_among_ext c c'). intros o _.
  by apply active_obj_status.
Qed.

Lemma quiet_wf c c' : quiet c c' → wf c → wf c'.
Proof.
  intros [Hm _ _ Hl _ _ _] Hwf uid o. rewrite Hm, Hl. apply Hwf.
Qed.

Lemma quiet_active_downloads c c' :
  quiet c c' → active_downloads c' = active_downloads c.
Proof. intros [Hm _ _ _ Hs _ _]. by apply active_downloads_ext. Qed.

Lemma register_eq o c d :
  heap c !! o = Some d →
  register o c
  = (with_d_map (<[uid d := o]> (d_map c))
       (modify o (set_callback true) (emit (ReportD o (Some "new")) c)),
     Ret tt).
Proof.
  intros Hd. unfold register, bind, report_d, act, deref. simpl.
  rewrite heap_modify. simpl. rewrite Hd. simpl. by rewrite d_map_modify.
Qed.

(** Registering a new object that is not active does not raise the
    number of active downloads, and the object is then in [d_map] under
    one uid only. *)
Lemma register_count o c d :
  heap c !! o = Some d → wf c → (∀ uid, d_map c !! uid ≠ Some o) →
  active_obj c o = false →
  let c' := with_d_map (<[uid d := o]> (d_map c))
              (modify o (set_callback true) (emit (ReportD o (Some "new")) c)) in
  wf c'
  ∧ active_downloads c' ≤ active_downloads c
  ∧ active_obj c' o = false
  ∧ d_map c' !! uid d = Some o
  ∧ (distinct c → distinct c').
Proof.
  intros Hd Hwf Hfresh Hact. simpl.
  assert (Hst : ∀ o', active_obj (with_d_map (<[uid d := o]> (d_map c))
                          (modify o (set_callback true)
                             (emit (ReportD o (Some "new")) c))) o'
                      = active_obj c o').
  { intros o'. apply active_obj_status. unfold status_of. simpl.
    destruct (decide (o = o')) as [<-|Hne].
    - rewrite heap_modify. simpl. by rewrite Hd.
    - by rewrite heap_modify_ne. }
  split; [|split; [|split; [|split]]].
  - intros u o'. simpl. rewrite heap_modify_length. simpl.
    destruct (decide (u = uid d)) as [->|Hne].
    + rewrite lookup_insert_eq. intros [= <-]. by eapply lookup_lt_Some.
    + rewrite lookup_insert_ne by done. apply Hwf.
  - rewrite !active_downloads_among. unfold d_map_values.
    cbn [d_map with_d_map].
    rewrite (active_among_perm _ _ _ (d_map_values_insert (d_map c) (uid d) o)).
    rewrite active_among_cons, Hst, Hact. simpl.
    rewrite (active_among_ext c _) by (intros; apply Hst).
    pose proof (active_among_delete c (d_map c) (uid d)). lia.
  - by rewrite Hst.
  - simpl. apply lookup_insert_eq.
  - intros Hdis u u' o'. simpl.
    destruct (decide (u = uid d)) as [->|Hu], (decide (u' = uid d)) as [->|Hu'];
      rewrite ?lookup_insert_eq, ?lookup_insert_ne by done; try done.
    + intros [= <-] H. by apply Hfresh in H.
    + intros H [= <-]. by apply Hfresh in H.
    + apply Hdis.
Qed.

Lemma modify_distinct o f c : distinct c → distinct (modify o f c).
Proof. intros H u u' o'. rewrite d_map_modify. apply H. Qed.

Lemma quiet_distinct c c' : quiet c c' → distinct c → distinct c'.
Proof. intros [Hm _ _ _ _ _ _] H u u' o. rewrite Hm. apply H. Qed.

Lemma modify_wf o f c : wf c → wf (modify o f c).
Proof. intros H uid o'. rewrite d_map_modify, heap_modify_length. apply H. Qed.

Lemma emit_wf e c : wf c → wf (emit e c).
Proof. done. Qed.

(** A status that is not active never raises the count. *)
Lemma modify_status_inactive o s c :
  Status.is_active s = false →
  active_downloads (modify o (set_status s) c) ≤ active_downloads c.
Proof.
  intros Hs. rewrite !active_downloads_among. unfold d_map_values.
  rewrite d_map_modify. apply inj_le, active_among_mono. intros o' _.
  destruct (decide (o = o')) as [<-|Hne].
  - unfold active_obj. rewrite status_of_modify.
    destruct (heap c !! o); simpl; [|done]. by rewrite Hs.
  - by rewrite active_obj_modify_ne.
Qed.

Lemma admission_eq o c :
  admission o c
  = if (active_downloads c >=? config.max_concurrent_downloads (cfg c))%Z
    then (with_pending (pending_downloads_q c ++ [o])
            (modify o (set_status Status.pending) c), Ret true)
    else (c, Ret false).
Proof.
  unfold admission, bind, ask, act, ret.
  destruct (_ >=? _)%Z; [|done]. simpl. by rewrite pending_modify.
Qed.

(** What [download] leaves behind when it has checked, registered and
    admitted or queued a new object [o]. *)
Lemma check_and_admit_spec E o silent download_later c c' r :
  wf c → is_Some (heap c !! o) → (∀ uid, d_map c !! uid ≠ Some o) →
  check_and_admit E o silent download_later c = (c', r) →
  cfg c' = cfg c
  ∧ wf c'
  ∧ (distinct c → distinct c')
  ∧ active_downloads c' ≤ active_downloads c
  ∧ (∃ l, pending_downloads_q c' = pending_downloads_q c ++ l)
  ∧ (∀ x, r = Ret (Some x) →
          x = o
          ∧ active_downloads c' < config.max_concurrent_downloads (cfg c)
          ∧ active_obj c' o = false).
Proof.
  intros Hwf Ho Hfresh. unfold check_and_admit, bind.
  destruct (_pre_download_checks E o silent c) as [c3 rp] eqn:Hp.
  pose proof (pre_download_checks_quiet E o silent c c3 rp Hp) as Q.
  pose proof (quiet_wf _ _ Q Hwf) as Hwf3.
  pose proof (quiet_distinct _ _ Q) as Hdis3.
  pose proof (quiet_active_downloads _ _ Q) as Hcount3.
  destruct Q as [Hm3 Hc3 Hq3 Hl3 Hs3 _ _].
  assert (Hnil : ∃ l, pending_downloads_q c3 = pending_downloads_q c ++ l).
  { exists []. by rewrite app_nil_r. }
  destruct rp as [[|]|].
  2,3: intros [= <- <-]; repeat split; try done; lia.
  (* the checks passed *)
  assert (Hd3 : is_Some (heap c3 !! o)).
  { apply lookup_lt_is_Some. rewrite Hl3. by apply lookup_lt_is_Some. }
  destruct Hd3 as [d3 Hd3].
  assert (Hact3 : active_obj c3 o = false).
  { rewrite (active_obj_status c c3) by apply Hs3.
    by eapply pre_download_checks_not_active. }
  rewrite (register_eq o c3 d3 Hd3).
  destruct (register_count o c3 d3 Hd3 Hwf3)
    as (Hwf4 & Hcount4 & Hact4 & Hin4 & Hdis4);
    [by intros uid; rewrite Hm3|done|].
  set (c4 := with_d_map (<[uid d3 := o]> (d_map c3))
               (modify o (set_callback true)
                  (emit (ReportD o (Some "new")) c3))) in *.
  assert (Hc4 : cfg c4 = cfg c) by (unfold c4; simpl; by rewrite cfg_modify).
  assert (Hq4 : pending_downloads_q c4 = pending_downloads_q c).
  { unfold c4. simpl. by rewrite pending_modify. }
  destruct download_later; simpl.
  - (* download_later: the end of [download] follows at once *)
    unfold bind. destruct (download_done E o c4) as [c5 r5] eqn:Hdone.
    pose proof (download_done_quiet E o c4 c5 r5 Hdone) as Q5.
    pose proof (quiet_wf _ _ Q5 Hwf4). pose proof (quiet_active_downloads _ _ Q5).
    pose proof (quiet_distinct _ _ Q5) as Hdis5.
    destruct Q5 as [_ Hc5 Hq5 _ _ _ _].
    assert (∃ l, pending_downloads_q c5 = pending_downloads_q c ++ l).
    { exists []. by rewrite app_nil_r, Hq5, Hq4. }
    destruct r5 as [[]|]; intros [= <- <-]; repeat split; try done;
      try congruence; try lia; auto.
  - unfold bind. rewrite admission_eq, Hc4.
    destruct (active_downloads c4 >=? _)%Z eqn:Hge.
    + (* the ceiling is reached: pending, queued *)
      intros [= <- <-]. repeat split; try done.
      * simpl. by rewrite cfg_modify.
      * intros u o'. simpl. rewrite d_map_modify, heap_modify_length.
        apply Hwf4.
      * intros Hdis u u' o'. simpl. rewrite d_map_modify.
        apply Hdis4; auto.
      * etrans; [|etrans; [apply Hcount4|lia]].
        rewrite <- (modify_status_inactive o Status.pending c4) by done.
        apply Z.eq_le_incl. by apply active_downloads_ext.
      * exists [o]. unfold c4 in Hq4 |- *. simpl in Hq4 |- *. by rewrite Hq4.
    + (* a free slot: the object is handed to the retry loop *)
      intros [= <- <-]. split; [done|]. split; [done|]. split; [auto|].
      split; [lia|]. split; [exists []; by rewrite app_nil_r|].
      intros x [= <-]. split; [done|]. split; [|done].
      rewrite Z.geb_leb in Hge. apply Z.leb_gt in Hge. lia.
Qed.

(** Changing one object changes the number of active downloads by one
    at most. *)
Lemma modify_count o f c :
  distinct c → active_downloads (modify o f c) ≤ active_downloads c + 1.
Proof.
  intros Hdis. rewrite !active_downloads_among. unfold d_map_values.
  rewrite d_map_modify.
  destruct (decide (o ∈ d_map_values c)) as [Hin|Hnin].
  - apply elem_of_d_map_values in Hin as [uid Hin].
    rewrite !(active_among_perm _ _ _ (d_map_values_delete (d_map c) uid o Hin)).
    rewrite !active_among_cons.
    rewrite (active_among_ext c (modify o f c)).
    + destruct (active_obj (modify o f c) o), (active_obj c o); simpl; lia.
    + intros o' Ho'. apply active_obj_modify_ne. intros <-.
      apply list_elem_of_fmap in Ho' as ([u o''] & Heq & Hel). simpl in Heq.
      subst o''. apply elem_of_map_to_list in Hel.
      destruct (decide (u = uid)) as [->|Hne].
      * by rewrite lookup_delete_eq in Hel.
      * rewrite lookup_delete_ne in Hel by done.
        by pose proof (Hdis _ _ _ Hel Hin).
  - rewrite (active_among_ext c (modify o f c)); [lia|].
    intros o' Ho'. apply active_obj_modify_ne. by intros <-.
Qed.

Lemma download_begin_spec E d uid video_idx silent download_later kwargs c c' r :
  wf c →
  download_begin E d uid video_idx silent download_later kwargs c = (c', r) →
  cfg c' = cfg c
  ∧ wf c'
  ∧ (distinct c → distinct c')
  ∧ active_downloads c' ≤ active_downloads c
  ∧ (∃ l, pending_downloads_q c' = pending_downloads_q c ++ l)
  ∧ (∀ o, r = Ret (Some o) →
          active_downloads c' < config.max_concurrent_downloads (cfg c)
          ∧ active_obj c' o = false).
Proof.
  intros Hwf. unfold download_begin. unfold bind at 1. unfold ask.
  assert (Hnil : ∃ l, pending_downloads_q c = pending_downloads_q c ++ l).
  { exists []. by rewrite app_nil_r. }
  destruct (match d with Some o => Some o | None => get_d c uid video_idx end)
    as [o0|].
  2:{ intros [= <- <-]. repeat split; try done; try lia. }
  unfold bind at 1. unfold copy, bind at 1, deref.
  destruct (heap c !! o0) as [d0|] eqn:Hd0.
  2:{ intros [= <- <-]. repeat split; try done; try lia. }
  unfold bind at 1, ask, bind at 1, act at 1, ret, bind at 1, act at 1.
  set (o := length (heap c)).
  set (c2 := modify o (λ d1, update_object E d1 kwargs)
               (with_heap (heap c ++ [d0]) c)).
  assert (Hold : ∀ i, (i < o)%nat → heap c2 !! i = heap c !! i).
  { intros i Hi. unfold c2. rewrite heap_modify_ne by lia. simpl.
    by rewrite lookup_app_l. }
  assert (Hm2 : d_map c2 = d_map c) by (unfold c2; by rewrite d_map_modify).
  assert (Hc2 : cfg c2 = cfg c) by (unfold c2; by rewrite cfg_modify).
  assert (Hq2 : pending_downloads_q c2 = pending_downloads_q c).
  { unfold c2. by rewrite pending_modify. }
  assert (Hl2 : length (heap c2) = S o).
  { unfold c2. rewrite heap_modify_length. simpl. rewrite length_app. simpl.
    unfold o. lia. }
  assert (Hwf2 : wf c2).
  { intros u o'. rewrite Hm2, Hl2. intros H. apply Hwf in H. unfold o. lia. }
  assert (Hdis2 : distinct c → distinct c2).
  { intros H u u' o'. rewrite Hm2. apply H. }
  assert (Hfresh : ∀ u, d_map c2 !! u ≠ Some o).
  { intros u. rewrite Hm2. intros H. apply Hwf in H. unfold o in H. lia. }
  assert (Hcount2 : active_downloads c2 = active_downloads c).
  { rewrite !active_downloads_among. unfold d_map_values. rewrite Hm2. f_equal.
    apply active_among_ext. intros o' Ho'.
    apply (elem_of_d_map_values c) in Ho' as [u Hu]. apply Hwf in Hu.
    unfold active_obj, status_of. by rewrite Hold. }
  unfold try_except.
  destruct (check_and_admit E o silent download_later c2) as [c3 r3] eqn:Hadm.
  destruct (check_and_admit_spec E o silent download_later c2 c3 r3 Hwf2)
    as (Hc3 & Hwf3 & Hdis3 & Hcount3 & [l Hq3] & Hsome); [|done|done|].
  { apply lookup_lt_is_Some. lia. }
  assert (Hext : ∃ l, pending_downloads_q c3 = pending_downloads_q c ++ l).
  { exists l. by rewrite Hq3, Hq2. }
  destruct r3 as [a|].
  - intros [= <- <-]. split; [congruence|]. split; [done|]. split; [auto|].
    split; [lia|]. split; [done|]. intros x [= ->].
    destruct (Hsome x eq_refl) as (-> & Hlt & Hact).
    rewrite Hc2 in Hlt. done.
  - unfold bind, download_except, bind, log, act, ask. simpl.
    destruct (config.test_mode (cfg c3)); intros [= <- <-];
      (split; [simpl; congruence|]); (split; [done|]);
      (split; [intros H; apply Hdis3, Hdis2, H|]);
      (split; [change (active_downloads c3 <= active_downloads c); lia|]);
      (split; [done|]); by intros x [=].
Qed.

(** The thread of a call of [download], up to the head of its loop,
    never raises the number of active downloads; it goes on to its loop
    only if it found that number below the ceiling. *)
Lemma submit_spec E d uid video_idx silent download_later kwargs c c' r :
  wf c →
  submit E d uid video_idx silent download_later kwargs c = (c', r) →
  cfg c' = cfg c
  ∧ wf c'
  ∧ (distinct c → distinct c')
  ∧ active_downloads c' ≤ active_downloads c
  ∧ (∃ l, pending_downloads_q c' = pending_downloads_q c ++ l)
  ∧ (at_start (after r) = true →
     active_downloads c' < config.max_concurrent_downloads (cfg c)).
Proof.
  intros Hwf. unfold submit. unfold bind at 1.
  destruct (download_begin E d uid video_idx silent download_later kwargs c)
    as [c1 r1] eqn:Hb.
  destruct (download_begin_spec _ _ _ _ _ _ _ _ _ _ Hwf Hb)
    as (Hc1 & Hwf1 & Hdis1 & Hcount1 & [l Hq1] & Hsome).
  destruct r1 as [[o|]|].
  2,3: intros [= <- <-]; repeat split; try done; try lia; by exists l.
  destruct (Hsome o eq_refl) as (Hlt & Hact).
  unfold try_except, bind at 1, ask.
  destruct (py_range (config.refresh_url_retries (cfg c1) + 1)) as [|n ns];
    simpl.
  - (* no attempt at all: the end of [download] *)
    unfold bind at 1. destruct (download_done E o c1) as [c2 r2] eqn:Hdone.
    pose proof (download_done_quiet E o c1 c2 r2 Hdone) as Q.
    pose proof (quiet_wf _ _ Q Hwf1). pose proof (quiet_active_downloads _ _ Q).
    pose proof (quiet_distinct _ _ Q) as Hdis2.
    destruct Q as [_ Hc2 Hq2 _ _ _ _].
    destruct r2 as [[]|].
    + intros [= <- <-]. repeat split; try done; try congruence; try lia; auto.
      exists l. congruence.
    + unfold bind, download_except, bind, log, act, ask. simpl.
      destruct (config.test_mode (cfg c2)); intros [= <- <-];
        (split; [simpl; congruence|]); (split; [done|]);
        (split; [auto|]);
        (split; [change (active_downloads c2 <= active_downloads c); lia|]);
        (split; [exists l; simpl; congruence|done]).
  - (* the thread is at the head of its loop *)
    unfold ret. intros [= <- <-]. repeat split; try done. by exists l.
Qed.

(** A download thread that returns from [t.join()] with an item that is
    not in error ends there: the actions after the download are quiet. *)
Lemma resume_spec E o silent ns c c' r :
  status_of c o ≠ Some Status.error →
  resume E o silent ns c = (c', r) →
  quiet c c' ∧ at_start (after r) = false.
Proof.
  intros Hs. unfold resume. destruct ns as [|n ns].
  { intros [= <- <-]. split; [apply quiet_refl|done]. }
  unfold try_except, bind at 1, after_join, bind at 1, deref.
  unfold status_of in Hs.
  destruct (heap c !! o) as [d0|] eqn:Hd0.
  - unfold bind at 1, ask. rewrite bool_decide_eq_true_2.
    2:{ intros He. apply Hs. simpl. by rewrite He. }
    unfold ret at 1. simpl. unfold bind at 1.
    destruct (download_done E o c) as [c2 r2] eqn:Hdone.
    pose proof (download_done_quiet E o c c2 r2 Hdone) as Q.
    destruct r2 as [[]|].
    + by intros [= <- <-].
    + intros Hex. split.
      * eapply quiet_trans; [exact Q|].
        by eapply (download_except_quiet Ended).
      * apply download_except_result in Hex as [->| ->]; done.
  - intros Hex. split.
    + by eapply (download_except_quiet Ended).
    + apply download_except_result in Hex as [->| ->]; done.
Qed.

Lemma with_pending_wf q c : wf c → wf (with_pending q c).
Proof. done. Qed.

Lemma active_downloads_emit e c : active_downloads (emit e c) = active_downloads c.
Proof. reflexivity. Qed.

Lemma active_downloads_with_pending q c :
  active_downloads (with_pending q c) = active_downloads c.
Proof. reflexivity. Qed.

Ltac count_lia :=
  rewrite ?active_downloads_emit, ?active_downloads_with_pending; lia.

Lemma delete_count uid c :
  active_downloads (with_d_map (delete uid (d_map c)) c) ≤ active_downloads c.
Proof.
  rewrite !active_downloads_among. unfold d_map_values. simpl.
  apply inj_le.
  etrans; [|apply (active_among_delete c (d_map c) uid)].
  apply Nat.eq_le_incl. by apply active_among_ext.
Qed.

Lemma emit_distinct e c : distinct c → distinct (emit e c).
Proof. done. Qed.

(** *** Downloads between their admission and their start *)

Lemma at_start_insert (ts : list DlThread) i t0 t :
  ts !! i = Some t0 →
  (length (filter (λ t, at_start t = true) (<[i := t]> ts))
   + (if at_start t0 then 1 else 0)
   = length (filter (λ t, at_start t = true) ts)
     + (if at_start t then 1 else 0))%nat.
Proof.
  revert i. induction ts as [|x ts IH]; intros [|i] H; simplify_eq/=.
  - rewrite !filter_cons.
    destruct (at_start t0) eqn:H0, (at_start t) eqn:H1;
      repeat case_decide; try congruence; simpl; lia.
  - rewrite !filter_cons. specialize (IH i H).
    case_decide; simpl; lia.
Qed.

Lemma at_start_app (ts calls : list DlThread) :
  Forall (λ t, at_start t = false) calls →
  length (filter (λ t, at_start t = true) (ts ++ calls))
  = length (filter (λ t, at_start t = true) ts).
Proof.
  intros H. rewrite filter_app, length_app.
  assert (filter (λ t, at_start t = true) calls = []) as ->; [|simpl; lia].
  induction H as [|t calls Ht _ IH]; [done|].
  rewrite filter_cons. case_decide; [congruence|done].
Qed.

Lemma scheduled_calls_called now c ds :
  Forall (λ t, at_start t = false) (scheduled_calls now c ds).
Proof.
  unfold scheduled_calls. induction ds as [|o ds IH]; simpl; [done|].
  destruct (heap c !! o) as [d|]; [|done].
  destruct (due now d); [|done]. by constructor.
Qed.

(** Every step of an orderly run keeps the settings, the
    well-formedness and the distinctness, and does not take the active
    downloads, counted with those admitted and about to start, above the
    ceiling. *)
Lemma exec_spec E a s s' :
  wf (ctl s) → distinct (ctl s) →
  exec E a s = Some s' → admissible s a = true →
  cfg (ctl s') = cfg (ctl s)
  ∧ wf (ctl s')
  ∧ distinct (ctl s')
  ∧ active_downloads (ctl s') + Z.of_nat (in_flight s')
    ≤ Z.max (active_downloads (ctl s) + Z.of_nat (in_flight s))
            (config.max_concurrent_downloads (cfg (ctl s))).
Proof.
  intros Hwf Hdis Hexec Hadm. unfold in_flight.
  destruct a as [d u video_idx silent download_later kwargs|i|i|i st|i| |now
                |u|u|now u video_idx target_date|u video_idx];
    simpl in Hexec.
  - (* a call of download *)
    injection Hexec as <-. simpl. rewrite at_start_app by (by repeat constructor).
    repeat split; try done. lia.
  - (* the thread runs up to its loop *)
    destruct (threads s !! i) as [[d u video_idx silent download_later kwargs
                                  | |]|] eqn:Hi; try done.
    destruct (submit E d u video_idx silent download_later kwargs (ctl s))
      as [c r] eqn:Hsub.
    injection Hexec as <-. simpl.
    destruct (submit_spec _ _ _ _ _ _ _ _ _ _ Hwf Hsub)
      as (Hc & Hwf' & Hdis' & Hcount & _ & Hlt).
    split; [done|]. split; [done|]. split; [auto|].
    simpl in Hadm. apply bool_decide_eq_true in Hadm. unfold in_flight in Hadm.
    pose proof (at_start_insert (threads s) i _ (after r) Hi) as Hins.
    simpl in Hins. rewrite Hadm in *.
    destruct (at_start (after r)); [specialize (Hlt eq_refl)|]; lia.
  - (* the transfer is started *)
    destruct (threads s !! i) as [[|o silent ns [| |]|]|] eqn:Hi; try done.
    injection Hexec as <-. unfold begin_attempt, bind, act. simpl.
    split; [by rewrite cfg_modify|]. split; [by apply modify_wf|].
    split; [by apply modify_distinct|].
    pose proof (at_start_insert (threads s) i _ (Looping o silent ns InJoin) Hi)
      as Hins. simpl in Hins.
    pose proof (modify_count o (set_status Status.downloading)
                  (emit (ThreadStart o) (ctl s)) Hdis) as Hle.
    rewrite active_downloads_emit in Hle. lia.
  - (* the end of a transfer *)
    destruct (threads s !! i) as [[|o silent ns [| |]|]|] eqn:Hi; try done.
    destruct (bool_decide (st ∈ terminal_states)) eqn:Ht; [|done].
    injection Hexec as <-. simpl. apply bool_decide_eq_true in Ht.
    split; [by rewrite cfg_modify|]. split; [by apply modify_wf|].
    split; [by apply modify_distinct|].
    pose proof (at_start_insert (threads s) i _ (Looping o silent ns Joined) Hi)
      as Hins. simpl in Hins.
    assert (active_downloads (modify o (set_status st) (ctl s))
            ≤ active_downloads (ctl s)); [|lia].
    apply modify_status_inactive.
    unfold terminal_states in Ht. rewrite !elem_of_cons in Ht.
    destruct Ht as [->|[->|[->|Ht]]]; try done. by apply elem_of_nil in Ht.
  - (* the return of [t.join()] *)
    destruct (threads s !! i) as [[|o silent ns [| |]|]|] eqn:Hi; try done.
    destruct (resume E o silent ns (ctl s)) as [c r] eqn:Hres.
    injection Hexec as <-. simpl.
    simpl in Hadm. rewrite Hi in Hadm. apply bool_decide_eq_true in Hadm.
    destruct (resume_spec _ _ _ _ _ _ _ Hadm Hres) as [Q Hr].
    pose proof (quiet_wf _ _ Q Hwf). pose proof (quiet_distinct _ _ Q Hdis).
    pose proof (quiet_active_downloads _ _ Q).
    pose proof (at_start_insert (threads s) i _ (after r) Hi) as Hins.
    simpl in Hins. rewrite Hr in Hins.
    destruct Q as [_ Hc _ _ _ _ _]. repeat split; try done. lia.
  - (* the pending handler *)
    destruct (drain_pc s).
    + unfold drain_check in Hexec.
      destruct (_ <? _)%Z; injection Hexec as <-; simpl;
        repeat split; try done; count_lia.
    + unfold drain_take in Hexec.
      destruct (pending_downloads_q (ctl s)) as [|o q]; [done|].
      injection Hexec as <-. simpl.
      rewrite at_start_app by (destruct (bool_decide _); by repeat constructor).
      repeat split; try done. count_lia.
  - (* the handler of scheduled downloads *)
    unfold scheduled_turn in Hexec. injection Hexec as <-. simpl.
    rewrite at_start_app by apply scheduled_calls_called.
    repeat split; try done. count_lia.
  - (* stop_download *)
    injection Hexec as <-. simpl. unfold stop_download.
    destruct (d_map (ctl s) !! u) as [o|]; [|repeat split; try done; lia].
    destruct (status_of (ctl s) o); [|repeat split; try done; lia].
    destruct (bool_decide _); [|repeat split; try done; lia].
    split; [by rewrite cfg_modify|]. split; [by apply modify_wf|].
    split; [by apply modify_distinct|].
    pose proof (modify_status_inactive o Status.cancelled (ctl s) eq_refl). lia.
  - (* delete *)
    injection Hexec as <-. simpl. unfold Controller_delete, bind, ask, act.
    destruct (d_map (ctl s) !! u) as [o|] eqn:Hin; simpl;
      [|repeat split; try done; lia].
    split; [by rewrite cfg_modify|]. split; [|split].
    + intros u' o'. simpl. rewrite d_map_modify, heap_modify_length. simpl.
      intros H. apply lookup_delete_Some in H as [_ H]. by apply Hwf in H.
    + intros u1 u2 o'. simpl. rewrite d_map_modify. simpl.
      intros H1 H2. apply lookup_delete_Some in H1 as [_ H1].
      apply lookup_delete_Some in H2 as [_ H2]. by eapply Hdis.
    + assert (active_downloads
                (modify o (set_status Status.cancelled)
                   (with_d_map (delete u (d_map (ctl s))) (ctl s)))
              ≤ active_downloads (ctl s)) as Hle.
      { etrans; [by apply modify_status_inactive|]. apply delete_count. }
      change (active_downloads (emit ?e ?c0)) with (active_downloads c0).
      lia.
  - (* schedule_start *)
    injection Hexec as <-. simpl. unfold schedule_start.
    destruct (get_d (ctl s) u video_idx) as [o|];
      [|repeat split; try done; lia].
    destruct target_date as [t|v]; [|repeat split; try done; lia].
    destruct (t <? now)%Z; [repeat split; try done; count_lia|].
    split; [by rewrite !cfg_modify|]. split; [by do 2 apply modify_wf|].
    split; [by do 2 apply modify_distinct|].
    assert (active_downloads
              (modify o (set_status Status.scheduled)
                 (modify o (set_sched (Some t))
                    (emit (Log "Schedule at" false) (ctl s))))
            ≤ active_downloads (ctl s)); [|lia].
    etrans; [by apply modify_status_inactive|].
    rewrite (quiet_active_downloads (emit (Log "Schedule at" false) (ctl s))).
    + by rewrite active_downloads_emit.
    + by apply quiet_modify.
  - (* schedule_cancel *)
    injection Hexec as <-. simpl. unfold schedule_cancel.
    destruct (get_d (ctl s) u video_idx) as [o|];
      [|repeat split; try done; lia].
    destruct (bool_decide _); [|repeat split; try done; lia].
    split; [by rewrite !cfg_modify|]. split; [by do 2 apply modify_wf|].
    split; [by do 2 apply modify_distinct|].
    assert (active_downloads
              (modify o (set_sched None)
                 (modify o (set_status Status.cancelled)
                    (emit (Log "Schedule has been cancelled" false) (ctl s))))
            ≤ active_downloads (ctl s)); [|lia].
    rewrite (quiet_active_downloads
               (modify o (set_status Status.cancelled)
                  (emit (Log "Schedule has been cancelled" false) (ctl s))))
      by (by apply quiet_modify).
    etrans; [by apply modify_status_inactive|].
    by rewrite active_downloads_emit.
Qed.


Lemma wfb_wf c : wfb c = true → wf c.
Proof.
  unfold wfb. rewrite forallb_forall. intros H uid o Hin.
  apply Nat.ltb_lt, H, list_elem_of_In, elem_of_d_map_values. by exists uid.
Defined.

Lemma demo_sys_wf : wf (ctl demo_sys).
Proof. apply wfb_wf. vm_compute. reflexivity. Defined.

Lemma demo_sys_distinct : distinct (ctl demo_sys).
Proof.
  intros u u' o H. change (d_map (ctl demo_sys)) with (∅ : gmap string nat) in H.
  by rewrite lookup_empty in H.
Defined.



(** ** The pending handler (C5) *)

Lemma py_range_cons r :
  0 ≤ r → py_range (r + 1) = 0 :: (Z.succ <$> py_range r).
Proof.
  intros Hr. unfold py_range.
  replace (Z.to_nat (r + 1)) with (S (Z.to_nat r)) by lia.
  simpl. f_equal. rewrite <- fmap_S_seq, <- !list_fmap_compose.
  apply list_fmap_ext. intros _ k _. simpl. lia.
Qed.

(** The call that a handler makes for the object [o], when its thread
    runs: the checks of a copy [o'] have passed, the copy is registered,
    and the ceiling decides. *)
Lemma silent_call_begin E c0 o d c2 d2 :
  heap c0 !! o = Some d →
  let o' := length (heap c0) in
  let c1 := with_heap (heap c0 ++ [update_object E d ∅]) c0 in
  _pre_download_checks E o' true c1 = (c2, Ret true) →
  heap c2 !! o' = Some d2 →
  let c3 := with_d_map (<[uid d2 := o']> (d_map c2))
              (modify o' (set_callback true)
                 (emit (ReportD o' (Some "new")) c2)) in
  download_begin E (Some o) None None true false ∅ c0
  = if (active_downloads c3 >=? config.max_concurrent_downloads (cfg c0))%Z
    then (with_pending (pending_downloads_q c0 ++ [o'])
            (modify o' (set_status Status.pending) c3), Ret None)
    else (c3, Ret (Some o')).
Proof.
  intros Hd o' c1 Hchk Hd2 c3.
  rewrite (download_begin_eq _ _ _ _ _ _ _ _ o d) by done.
  rewrite modify_copy. fold o' c1.
  pose proof (pre_download_checks_quiet _ _ _ _ _ _ Hchk)
    as [_ Hc Hq _ _ _ _].
  unfold try_except, check_and_admit. unfold bind at 1. rewrite Hchk.
  unfold bind at 1. rewrite (register_eq o' c2 d2) by done. fold c3. simpl.
  unfold bind at 1. rewrite admission_eq.
  assert (cfg c3 = cfg c0) as ->.
  { unfold c3. simpl. by rewrite cfg_modify. }
  assert (pending_downloads_q c3 = pending_downloads_q c0) as ->.
  { unfold c3. simpl. by rewrite pending_modify. }
  by destruct (_ >=? _)%Z.
Qed.

(** C5, as the code has it.  The pending handler, turn by turn.  (1) On
    waking it compares the active downloads with the ceiling: below it,
    it goes on to take an item from the queue; otherwise it sleeps for
    the fixed interval and nothing is taken.  (2) [get()] blocks on an
    empty queue, so that an item can be taken long after the test.  (3)
    It takes the head of the queue, one item per turn: for an item that
    is still pending it calls [download] with [silent=True]; an item
    with any other status, such as one cancelled while it waited, is
    dropped without a trace.  Either way the handler then sleeps.  (4)
    The call runs in a thread of its own, later: it checks a copy of the
    item and, if the checks pass, registers the copy and tests the
    ceiling again.  Below the ceiling the transfer of the copy is
    started; (5) at the ceiling the copy is made pending and put at the
    end of the queue, and the call is over.  (6) So is every download
    that finds the ceiling reached: the queue grows at its end. *)
Theorem pending_handler_turn E c :
  ((active_downloads c < config.max_concurrent_downloads (cfg c) →
    drain_check c = (c, InGet))
   ∧ (config.max_concurrent_downloads (cfg c) ≤ active_downloads c →
      drain_check c = (emit (Sleep drain_interval) c, AtCheck)))
  ∧ (pending_downloads_q c = [] → drain_take c = None)
  ∧ (∀ o q, pending_downloads_q c = o :: q →
       (status_of c o = Some Status.pending →
        drain_take c
        = Some (emit (Sleep drain_interval) (with_pending q c),
                [silent_call o]))
       ∧ (status_of c o ≠ Some Status.pending →
          drain_take c
          = Some (emit (Sleep drain_interval) (with_pending q c), [])))
  ∧ (∀ s i o d c2 d2,
       threads s !! i = Some (silent_call o) →
       heap (ctl s) !! o = Some d →
       let o' := length (heap (ctl s)) in
       let c1 := with_heap (heap (ctl s) ++ [update_object E d ∅]) (ctl s) in
       _pre_download_checks E o' true c1 = (c2, Ret true) →
       heap c2 !! o' = Some d2 →
       let c3 := with_d_map (<[uid d2 := o']> (d_map c2))
                   (modify o' (set_callback true)
                      (emit (ReportD o' (Some "new")) c2)) in
       let ns := py_range (config.refresh_url_retries (cfg (ctl s)) + 1) in
       (active_downloads c3 < config.max_concurrent_downloads (cfg (ctl s)) →
        0 ≤ config.refresh_url_retries (cfg (ctl s)) →
        run E [ABegin i; AStart i] s
        = Some (mkSys (modify o' (set_status Status.downloading)
                         (emit (ThreadStart o') c3))
                      (<[i := Looping o' true ns InJoin]> (threads s))
                      (drain_pc s)))
       ∧ (config.max_concurrent_downloads (cfg (ctl s)) ≤ active_downloads c3 →
          exec E (ABegin i) s
          = Some (mkSys (with_pending (pending_downloads_q (ctl s) ++ [o'])
                           (modify o' (set_status Status.pending) c3))
                        (<[i := Ended]> (threads s))
                        (drain_pc s))))
  ∧ (∀ o, config.max_concurrent_downloads (cfg c) ≤ active_downloads c →
          pending_downloads_q (admission o c).1 = pending_downloads_q c ++ [o]).
Proof.
  split; [split|split; [|split; [|split]]].
  - intros H. unfold drain_check. apply Z.ltb_lt in H. by rewrite H.
  - intros H. unfold drain_check. apply Z.ltb_ge in H. by rewrite H.
  - intros H. unfold drain_take. by rewrite H.
  - intros o q Hq. unfold drain_take. rewrite Hq.
    change (status_of (with_pending q c) o) with (status_of c o). split.
    + intros Hs. by rewrite bool_decide_eq_true_2.
    + intros Hs. by rewrite bool_decide_eq_false_2.
  - intros s i o d c2 d2 Hi Hd o' c1 Hchk Hd2 c3 ns.
    pose proof (silent_call_begin E (ctl s) o d c2 d2 Hd Hchk Hd2) as Hb.
    fold o' c3 in Hb.
    assert (Hc3 : cfg c3 = cfg (ctl s)).
    { apply pre_download_checks_quiet in Hchk as [_ Hc _ _ _ _ _].
      unfold c3. simpl. by rewrite cfg_modify. }
    split.
    + intros Hlt Hret.
      assert (Hns : ∃ n ns', ns = n :: ns').
      { unfold ns. rewrite py_range_cons by done. eauto. }
      destruct Hns as (n & ns' & Hns).
      assert (Hsub : submit E (Some o) None None true false ∅ (ctl s)
                     = (c3, Ret (Looping o' true ns AtStart))).
      { unfold submit. unfold bind at 1. rewrite Hb.
        assert ((active_downloads c3
                 >=? config.max_concurrent_downloads (cfg (ctl s)))%Z = false)
          as ->.
        { rewrite Z.geb_leb. apply Z.leb_gt. lia. }
        unfold try_except, bind, ask. rewrite Hc3. fold ns. rewrite Hns. done. }
      simpl. rewrite Hi. unfold silent_call. rewrite Hsub. simpl.
      rewrite list_lookup_insert_eq by (by eapply lookup_lt_Some).
      by rewrite list_insert_insert_eq.
    + intros Hge. simpl. rewrite Hi. unfold silent_call, submit.
      unfold bind at 1. rewrite Hb.
      assert ((active_downloads c3
               >=? config.max_concurrent_downloads (cfg (ctl s)))%Z = true)
        as ->.
      { rewrite Z.geb_leb. apply Z.leb_le. lia. }
      done.
  - intros o Hge. rewrite admission_eq.
    destruct (_ >=? _)%Z eqn:H; [done|].
    rewrite Z.geb_leb in H. apply Z.leb_gt in H. lia.
Qed.

Lemma pending_handler_turn_witness :
  ∃ s', run demo_env [ABegin 0; AStart 0] demo_taken = Some s'
        ∧ status_of (ctl s') 2%nat = Some Status.downloading
        ∧ d_map (ctl s') !! "uid_b" = Some 2%nat
        ∧ new_events (ctl demo_taken) (ctl s')
          = [ DeleteFile "/dl/test_file_.firedm";
              Log "download item already in list, check resume availability"
                  false;
              Log "resume is possible" false;
              ReportD 2 (Some "new"); ThreadStart 2 ].
Proof.
  pose (c2 := (_pre_download_checks demo_env 2%nat true
                 (with_heap (heap (ctl demo_taken)
                             ++ [update_object demo_env
                                   (demo_job "b" Status.pending) ∅])
                            (ctl demo_taken))).1).
  destruct (proj1 (proj2 (proj2 (proj2
              (pending_handler_turn demo_env (ctl demo_taken)))))
              demo_taken 0%nat 1%nat (demo_job "b" Status.pending) c2
              (demo_job "b" Status.pending)) as [Hstart _].
  - reflexivity.
  - reflexivity.
  - vm_compute. reflexivity.
  - vm_compute. reflexivity.
  - eexists. split.
    + apply Hstart; [vm_compute; reflexivity|vm_compute; discriminate].
    + repeat split; vm_compute; reflexivity.
Defined.

(** C5 as stated fails.  With a ceiling of one, the handler has found a
    free slot and waits in [get()]; a first download is started and a
    second one is queued, which the handler takes at once although the
    slot is gone: the item is not started but put back, behind a third
    one queued in the meantime.  When the first download has completed
    the handler takes the third item, and it is downloading while the
    second, submitted before it, still waits. *)
Lemma pending_order_counterexample :
  option_map (λ s, (status <$> d_map_get (ctl s) (VStr "uid_b"),
                    status <$> d_map_get (ctl s) (VStr "uid_c"),
                    pending_downloads_q (ctl s),
                    d_map (ctl s) !! "uid_b"))
             (run demo_env demo_reorder_run demo_three)
  = Some (Some Status.pending, Some Status.downloading, [6%nat], Some 6%nat)
  ∧ option_map (λ s, (active_downloads (ctl s),
                      config.max_concurrent_downloads (cfg (ctl s)),
                      threads s !! 2%nat, pending_downloads_q (ctl s)))
               (run demo_env (take 7 demo_reorder_run) demo_three)
    = Some (1, 1, Some (silent_call 4), []).
Proof. split; vm_compute; reflexivity. Qed.

(** ** The download simulator *)

Lemma simulator_loop_completes turns d :
  status d = Status.downloading →
  (0 < turns)%nat →
  total_size d - downloaded d ≤ Z.of_nat turns * (200 / 2 * 1024) →
  status (simulator_loop turns d) = Status.completed
  ∧ downloaded (simulator_loop turns d) = total_size d.
Proof.
  revert d. induction turns as [|turns IH]; intros d Hs Ht Hle; [lia|].
  simpl.
  destruct (downloaded d + 200 / 2 * 1024 >=? total_size d)%Z eqn:Hge; [done|].
  rewrite Hs. rewrite bool_decide_eq_false_2 by done.
  rewrite Z.geb_leb in Hge. apply Z.leb_gt in Hge.
  destruct turns as [|turns'].
  - simpl in Hle. lia.
  - destruct (IH (set_downloaded (downloaded d + 200 / 2 * 1024) d))
      as [H1 H2]; [done|lia|simpl; lia|]. done.
Qed.

(** Left alone, the simulator always ends with the item completed and
    fully downloaded: the turns it is given are enough. *)
Lemma download_simulator_completes d :
  status (download_simulator d) = Status.completed
  ∧ downloaded (download_simulator d) = total_size d.
Proof.
  unfold download_simulator.
  set (d1 := set_status Status.downloading d).
  set (d2 := if (downloaded d1 >=? total_size d1)%Z then set_downloaded 0 d1
             else d1).
  assert (Hs : status d2 = Status.downloading).
  { unfold d2. by destruct (_ >=? _)%Z. }
  assert (Ht : total_size d2 = total_size d).
  { unfold d2. by destruct (_ >=? _)%Z. }
  destruct (simulator_loop_completes
              (Z.to_nat ((total_size d2 - downloaded d2) / (200 / 2 * 1024)) + 1)
              d2 Hs) as [H1 H2]; [lia| |by rewrite H2].
  change (200 / 2 * 1024) with 102400.
  destruct (Z.le_gt_cases 0 (total_size d2 - downloaded d2)) as [Hpos|Hneg].
  - rewrite Nat2Z.inj_add, Z2Nat.id by (apply Z.div_pos; lia).
    pose proof (Z.mod_pos_bound (total_size d2 - downloaded d2) 102400).
    pose proof (Z.div_mod (total_size d2 - downloaded d2) 102400). lia.
  - lia.
Qed.

(** ** The scenarios of the specification, computed *)

(** Two progress events for one item in a window, 100 bytes then 250:
    the view gets the total speed and one update with 250 bytes and the
    derived progress, speed and eta. *)
Example observer_scenario :
  (λ e, match e with
        | ViewUpdate kw => Some (kw !! "command", kw !! "downloaded",
                                 kw !! "progress", kw !! "eta")
        | _ => None
        end)
    <$> new_events demo_window (_observer_iteration demo_window)
  = [ Some (Some (VStr "total_speed"), None, None, None);
      Some (Some (VStr "update"), Some (VInt 250), Some (VInt 0),
            Some (VInt 0));
      None ].
Proof. vm_compute. reflexivity. Qed.

(** Ceiling one, downloads A then B: A is started and B is queued as
    pending; when A has completed, the pending handler takes B and calls
    [download] for it, and B is started. *)
Example queue_scenario :
  option_map (λ s, (status <$> heap (ctl s), pending_downloads_q (ctl s)))
             (run demo_env (take 5 demo_queue_run) demo_sys)
  = Some ([Status.cancelled; Status.cancelled; Status.downloading;
           Status.pending], [3%nat])
  ∧ option_map (λ s, (status <$> heap (ctl s), pending_downloads_q (ctl s),
                      map_to_list (d_map (ctl s))))
               (run demo_env demo_queue_run demo_sys)
    = Some ([Status.cancelled; Status.cancelled; Status.completed;
             Status.pending; Status.downloading], [],
            [("uid_a", 2%nat); ("uid_b", 4%nat)]).
Proof. split; vm_compute; reflexivity. Qed.

(** * Further properties of the controller *)

(** ** Calls that leave the older objects alone *)

#[global] Instance frame_refl n : Reflexive (frame n).
Proof.
  intros c. split; try done.
  - exists []. by rewrite app_nil_r.
  - eauto.
  - exists []. by rewrite app_nil_r.
Qed.

#[global] Instance frame_trans n : Transitive (frame n).
Proof.
  intros c1 c2 c3 [Hh1 Hp1 Hc1 (l1 & Hq1) Hm1 (e1 & Ho1)]
                  [Hh2 Hp2 Hc2 (l2 & Hq2) Hm2 (e2 & Ho2)].
  split; [auto|congruence|congruence| | |].
  - exists (l1 ++ l2). by rewrite Hq2, Hq1, <- app_assoc.
  - intros u o Hu. destruct (Hm1 u o Hu) as (o1 & Hu1 & Ho).
    destruct (Hm2 u o1 Hu1) as (o2 & Hu2 & Ho').
    exists o2. split; [done|]. destruct Ho as [->|?], Ho' as [->|?]; auto.
  - exists (e1 ++ e2). by rewrite Ho2, Ho1, <- app_assoc.
Qed.

Lemma frame_emit n e c : frame n c (emit e c).
Proof. split; try done; eauto. exists []. by rewrite app_nil_r. Qed.

Lemma frame_with_files n f c : frame n c (with_files f c).
Proof. split; try done; eauto; exists []; by rewrite app_nil_r. Qed.

Lemma frame_with_ffmpeg_actual_path n p c :
  frame n c (with_ffmpeg_actual_path p c).
Proof. split; try done; eauto; exists []; by rewrite app_nil_r. Qed.

Lemma frame_modify n o f c : (n ≤ o)%nat → frame n c (modify o f c).
Proof.
  intros Hle. split; autorewrite with ctl; try done; eauto.
  - intros i d Hi Hd. rewrite heap_modify_ne by lia. done.
  - unfold modify. by destruct (heap c !! o).
  - exists []. by rewrite app_nil_r.
  - exists []. by rewrite app_nil_r.
Qed.

Lemma frame_insert n u o c :
  (n ≤ o)%nat → frame n c (with_d_map (<[u := o]> (d_map c)) c).
Proof.
  intros Hle. split; try done.
  - exists []. by rewrite app_nil_r.
  - intros u' o' Hu'. simpl. destruct (decide (u = u')) as [<-|Hne].
    + rewrite lookup_insert_eq. eauto.
    + rewrite lookup_insert_ne by done. eauto.
  - exists []. by rewrite app_nil_r.
Qed.

Lemma frame_put n o c :
  frame n c (with_pending (pending_downloads_q c ++ [o]) c).
Proof. split; try done; eauto. exists []. by rewrite app_nil_r. Qed.

Lemma frame_copy d c :
  frame (length (heap c)) c (with_heap (heap c ++ [d]) c).
Proof.
  split; try done; eauto.
  - intros i d' Hi Hd. simpl. by rewrite lookup_app_l.
  - exists []. by rewrite app_nil_r.
  - exists []. by rewrite app_nil_r.
Qed.

(** The state changes of a call on the object [o]. *)
Ltac frame_act :=
  first [ apply frame_emit
        | apply frame_modify; lia
        | apply frame_with_ffmpeg_actual_path
        | apply frame_insert; lia
        | apply frame_put
        | etrans; [apply frame_with_files|apply frame_emit] ].

Ltac frame_tac := keeps_tac frame_act.

Section Frame.
Context (E : Env) (n o : nat) (Hle : (n ≤ o)%nat).

Lemma Controller_shutdown_pc_frame : M_keeps (frame n) (Controller_shutdown_pc E).
Proof. unfold Controller_shutdown_pc. frame_tac. Qed.

Lemma download_thumbnail_frame : M_keeps (frame n) (download_thumbnail E o).
Proof. unfold download_thumbnail. frame_tac. Qed.

Lemma write_timestamp_frame : M_keeps (frame n) (write_timestamp E o).
Proof. unfold write_timestamp. frame_tac. Qed.

Lemma post_download_frame : M_keeps (frame n) (_post_download E o).
Proof.
  unfold _post_download. frame_tac;
    auto using download_thumbnail_frame, write_timestamp_frame,
               Controller_shutdown_pc_frame.
Qed.

Lemma download_done_frame : M_keeps (frame n) (download_done E o).
Proof. unfold download_done. frame_tac; auto using post_download_frame. Qed.

Lemma check_ffmpeg_frame : M_keeps (frame n) (check_ffmpeg E).
Proof. unfold check_ffmpeg. frame_tac. Qed.

Lemma rename_frame : M_keeps (frame n) (rename E o).
Proof. unfold rename. frame_tac. Qed.

Lemma delete_file_frame path : M_keeps (frame n) (delete_file path).
Proof. unfold delete_file. frame_tac. Qed.

Lemma check_resumable_frame silent : M_keeps (frame n) (check_resumable E o silent).
Proof. unfold check_resumable. frame_tac. Qed.

Lemma check_d_map_frame again silent :
  M_keeps (frame n) again → M_keeps (frame n) (check_d_map E again o silent).
Proof.
  intros Ha. unfold check_d_map.
  frame_tac; auto using check_resumable_frame, rename_frame.
Qed.

Lemma check_target_file_frame again silent :
  M_keeps (frame n) again →
  M_keeps (frame n) (check_target_file E again o silent).
Proof.
  intros Ha. unfold check_target_file.
  frame_tac; auto using check_d_map_frame, rename_frame, delete_file_frame.
Qed.

Lemma check_folder_frame again silent :
  M_keeps (frame n) again → M_keeps (frame n) (check_folder E again o silent).
Proof.
  intros Ha. unfold check_folder. cbv zeta.
  frame_tac; auto using check_target_file_frame.
Qed.

Lemma pre_download_checks_body_frame again silent :
  M_keeps (frame n) again →
  M_keeps (frame n) (pre_download_checks_body E again o silent).
Proof.
  intros Ha. unfold pre_download_checks_body. cbv zeta.
  frame_tac; auto using check_folder_frame, check_ffmpeg_frame.
Qed.

Lemma pre_download_checks_frame silent :
  M_keeps (frame n) (_pre_download_checks E o silent).
Proof.
  unfold _pre_download_checks.
  induction (recursion_limit E) as [|depth IH]; simpl.
  - refine (M_keeps_raise _).
  - by apply pre_download_checks_body_frame.
Qed.

Lemma register_frame : M_keeps (frame n) (register o).
Proof. unfold register. frame_tac. Qed.

Lemma admission_frame : M_keeps (frame n) (admission o).
Proof. unfold admission. frame_tac. Qed.

Lemma auto_refresh_url_frame : M_keeps (frame n) (auto_refresh_url E o).
Proof. unfold auto_refresh_url. frame_tac. Qed.

Lemma run_thread_frame k : M_keeps (frame n) (run_thread E o k).
Proof. unfold run_thread. frame_tac. Qed.

Lemma after_join_frame silent k : M_keeps (frame n) (after_join E o silent k).
Proof. unfold after_join. frame_tac; auto using auto_refresh_url_frame. Qed.

Lemma retry_loop_frame silent ns : M_keeps (frame n) (retry_loop E o silent ns).
Proof.
  induction ns as [|k ns IH]; simpl.
  - refine (M_keeps_ret _ _).
  - frame_tac; auto using run_thread_frame, after_join_frame.
Qed.

Lemma download_except_frame : M_keeps (frame n) download_except.
Proof. unfold download_except. frame_tac. Qed.

Lemma check_and_admit_frame silent download_later :
  M_keeps (frame n) (check_and_admit E o silent download_later).
Proof.
  unfold check_and_admit.
  frame_tac; auto using pre_download_checks_frame, register_frame,
                        admission_frame, download_done_frame.
Qed.

Lemma download_attempts_frame silent :
  M_keeps (frame n) (download_attempts E o silent).
Proof.
  unfold download_attempts.
  frame_tac; auto using retry_loop_frame, download_done_frame,
                        download_except_frame.
Qed.

End Frame.

(** ** [download] works on a copy *)

(** What [check_and_admit] returns to go on with is the object it was
    given. *)
Lemma check_and_admit_object E o silent download_later c c' x :
  try_except (check_and_admit E o silent download_later)
             (download_except ;;; ret None) c = (c', Ret (Some x)) →
  x = o.
Proof.
  unfold try_except, check_and_admit, bind.
  assert (Hex : ∀ c0, (let (c1, o1) := download_except c0 in
                       match o1 with
                       | Ret _ => ret None c1
                       | Raise => (c1, Raise)
                       end) = (c', Ret (Some x)) → x = o).
  { intros c0. unfold download_except, bind, log, act, ask, ret, raise.
    by destruct (config.test_mode _). }
  destruct (_pre_download_checks E o silent c) as [c3 [[|]|]];
    [|done|apply Hex].
  destruct (register o c3) as [c4 [[]|]]; [|apply Hex].
  destruct download_later; simpl.
  - destruct (download_done E o c4) as [c5 [[]|]]; [done|apply Hex].
  - destruct (admission o c4) as [c5 [[|]|]]; [done| |apply Hex].
    by intros [= _ <-].
Qed.

(** The object [download] goes on with is the copy it has made. *)
Lemma download_begin_frame E d uid video_idx silent download_later kwargs c c' r :
  download_begin E d uid video_idx silent download_later kwargs c = (c', r) →
  frame (length (heap c)) c c'
  ∧ ∀ o, r = Ret (Some o) → o = length (heap c).
Proof.
  destruct (match d with Some o => Some o | None => get_d c uid video_idx end)
    as [o0|] eqn:Ht.
  - destruct (heap c !! o0) as [d0|] eqn:Hd0.
    + rewrite (download_begin_eq _ _ _ _ _ _ _ _ o0 d0) by done.
      set (c1 := with_heap (heap c ++ [d0]) c).
      set (c2 := modify _ _ c1). intros Hrun.
      assert (Hf : frame (length (heap c)) c c2).
      { etrans; [apply (frame_copy d0)|]. by apply frame_modify. }
      split.
      * etrans; [exact Hf|]. revert Hrun.
        apply (M_keeps_try (frame (length (heap c)))).
        -- by apply check_and_admit_frame.
        -- refine (M_keeps_bind _ _ _ _ _);
             [by apply download_except_frame|intros ?; refine (M_keeps_ret _ _)].
      * intros o ->. by eapply check_and_admit_object.
    + unfold download_begin, copy, bind, ask, deref. rewrite Ht, Hd0.
      intros [= <- <-]. split; [reflexivity|done].
  - unfold download_begin, bind, ask. rewrite Ht.
    unfold log, act, ret. intros [= <- <-]. split; [apply frame_emit|done].
Qed.


(** What a quiet step adds to the trace. *)
Lemma quiet_new_events c c' :
  quiet c c' →
  out c' = out c ++ new_events c c'
  ∧ forallb (λ e, negb (is_thread_start e)) (new_events c c') = true.
Proof.
  intros [_ _ _ _ _ _ (evs & Ho & Hev)]. unfold new_events.
  by rewrite Ho, drop_app_length.
Qed.

(** With [download_later] the checks are followed by the registration
    and the end of [download]. *)
Lemma check_and_admit_later E o silent c1 c2 d2 :
  _pre_download_checks E o silent c1 = (c2, Ret true) →
  heap c2 !! o = Some d2 →
  check_and_admit E o silent true c1
  = (download_done E o ;;; ret None)
      (with_d_map (<[uid d2 := o]> (d_map c2))
         (modify o (set_callback true) (emit (ReportD o (Some "new")) c2))).
Proof.
  intros Hchk Hd2. unfold check_and_admit. unfold bind at 1. rewrite Hchk.
  unfold bind at 1. by rewrite (register_eq o c2 d2).
Qed.


(** X3.  [download] on an item that is already being transferred (its
    status is downloading or refreshing_url) is turned down by the
    checks: the only traces of the call are the copy it has made and the
    log line; nothing is registered, queued or started. *)
Theorem download_active_item_refused
    E d uid video_idx silent download_later kwargs c o0 d0 :
  match d with Some o => Some o | None => get_d c uid video_idx end = Some o0 →
  heap c !! o0 = Some d0 →
  let d1 := update_object E d0 kwargs in
  Status.is_active (status d1) = true →
  type d1 ≠ "" → type d1 ≠ "text/html" →
  recursion_limit E ≠ 0%nat →
  download E d uid video_idx silent download_later kwargs c
  = (emit (Log "download is already in progress for this item" false)
          (with_heap (heap c ++ [d1]) c), Ret tt).
Proof.
  intros Ht Hd0 d1 Hact Hty1 Hty2 Hrec.
  unfold download. unfold bind at 1.
  rewrite (download_begin_eq _ _ _ _ _ _ _ _ o0 d0), modify_copy by done.
  fold d1. set (c1 := with_heap (heap c ++ [d1]) c).
  assert (Hchk : _pre_download_checks E (length (heap c)) silent c1
                 = (emit (Log "download is already in progress for this item"
                              false) c1, Ret false)).
  { unfold _pre_download_checks.
    destruct (recursion_limit E) as [|depth]; [done|]. simpl.
    unfold pre_download_checks_body. unfold bind at 1. unfold deref.
    assert (Hd1 : heap c1 !! length (heap c) = Some d1).
    { unfold c1. simpl. by rewrite lookup_app_r, Nat.sub_diag by lia. }
    rewrite Hd1. unfold bind at 1. unfold ask.
    apply String.eqb_neq in Hty1, Hty2. rewrite Hty1, Hty2. simpl.
    unfold bind at 1. unfold ret at 1. simpl. rewrite Hact.
    reflexivity. }
  unfold try_except, check_and_admit. unfold bind at 1. by rewrite Hchk.
Qed.

(** X4.  [reset] stops the extractor and empties the playlist, and
    touches nothing else.  Afterwards an item is still found by its uid,
    but no longer by its index in the playlist: [get_d] gives [None]
    (the IndexError is caught), and a [download] that names no item and
    no uid only logs that there is nothing to download. *)
Theorem reset_forgets_playlist E a video_idx silent download_later kwargs :
  let c := controller (reset a) in
  ytdl_abort (reset a) = true
  ∧ playlist c = []
  ∧ heap c = heap (controller a) ∧ d_map c = d_map (controller a)
  ∧ pending_downloads_q c = pending_downloads_q (controller a)
  ∧ out c = out (controller a)
  ∧ (∀ u, u ≠ "" →
          get_d c (Some u) video_idx = d_map (controller a) !! u)
  ∧ (∀ u, u = None ∨ u = Some "" →
            get_d c u video_idx = None
            ∧ download E None u video_idx silent download_later kwargs c
              = (emit (Log "Nothing to download" (negb silent)) c, Ret tt)).
Proof.
  intros c. do 6 (split; [done|]). split.
  - intros u Hu. unfold get_d.
    rewrite bool_decide_eq_true_2; [done|]. split; congruence.
  - intros u Huid.
    assert (Hg : get_d c u video_idx = None).
    { unfold get_d.
      rewrite bool_decide_eq_false_2 by (intros [? ?]; destruct Huid; done).
      unfold py_index. simpl.
      by repeat case_match. }
    split; [done|].
    unfold download, download_begin. unfold bind at 1 2. unfold ask.
    rewrite Hg. reflexivity.
Qed.

(** ** Calls that only add to the trace *)

#[global] Instance emits_only_refl P : Reflexive (emits_only P).
Proof. intros c. split; try done. exists []. by rewrite app_nil_r. Qed.

#[global] Instance emits_only_trans P : Transitive (emits_only P).
Proof.
  intros c1 c2 c3 [Hh1 Hm1 Hc1 Hq1 Hp1 (e1 & Ho1 & He1)]
                  [Hh2 Hm2 Hc2 Hq2 Hp2 (e2 & Ho2 & He2)].
  split; [congruence..|].
  exists (e1 ++ e2). rewrite Ho2, Ho1, <- app_assoc. split; [done|].
  by rewrite forallb_app, He1, He2.
Qed.

Lemma emits_only_emit (P : Event → bool) e c :
  P e = true → emits_only P c (emit e c).
Proof.
  intros He. split; try done. exists [e]. split; [done|]. simpl.
  by rewrite He.
Qed.

Lemma emits_only_with_ffmpeg_actual_path P p c :
  emits_only P c (with_ffmpeg_actual_path p c).
Proof. split; try done. exists []. by rewrite app_nil_r. Qed.

(** What a step of this kind adds to the trace. *)
Lemma emits_only_new_events P c c' :
  emits_only P c c' →
  out c' = out c ++ new_events c c' ∧ forallb P (new_events c c') = true.
Proof.
  intros [_ _ _ _ _ (evs & Ho & Hev)]. unfold new_events.
  by rewrite Ho, drop_app_length.
Qed.

Ltac emits_act :=
  first [ apply emits_only_emit; done
        | apply emits_only_with_ffmpeg_actual_path ].

Ltac emits_tac := keeps_tac emits_act.

(** ** Shutdown after a download *)

Lemma download_thumbnail_emits E o :
  M_keeps (emits_only no_shutdown) (download_thumbnail E o).
Proof. unfold download_thumbnail. emits_tac. Qed.

Lemma write_timestamp_emits E o :
  M_keeps (emits_only no_shutdown) (write_timestamp E o).
Proof. unfold write_timestamp. emits_tac. Qed.

Lemma Controller_shutdown_pc_emits E :
  M_keeps (emits_only (λ _, true)) (Controller_shutdown_pc E).
Proof. unfold Controller_shutdown_pc. emits_tac. Qed.

(** The five parts of [_post_download] for a completed item. *)
Lemma post_download_eq E o c d :
  heap c !! o = Some d → status d = Status.completed →
  _post_download E o c
  = (when (config.download_thumbnail (cfg c)) (download_thumbnail E o) ;;;
     when (config.checksum (cfg c))
       (log "" false ;;;
        log "Calculating MD5 and SHA256" false ;;;
        act (emit (CalcChecksum o)) ;;;
        (if checksum_ok E d then ret tt else raise) ;;;
        log "MD5:" false ;;;
        log "SHA256:" false) ;;;
     when (config.use_server_timestamp (cfg c)) (write_timestamp E o) ;;;
     when (negb (String.eqb (on_completion_command d) ""))
       (act (emit (RunCommand (on_completion_command d))) ;;;
        when (run_command E (on_completion_command d)).1
             (log "error executing command:" false)) ;;;
     when (shutdown_pc d)
       (act (modify o (set_shutdown_pc false)) ;;;
        Controller_shutdown_pc E)) c.
Proof.
  intros Hd Hs. unfold _post_download. unfold bind at 1. unfold deref.
  rewrite Hd. unfold bind at 1. unfold ask.
  by rewrite bool_decide_eq_true_2.
Qed.

(** Show that a run has kept a relation from the call that was run. *)
Ltac by_keeps R H :=
  eapply (λ Hk : M_keeps R _, Hk _ _ _ H).

(** With the shutdown flag off, [_post_download] begins no shutdown and
    changes no object. *)
Lemma post_download_no_shutdown E o c d c' r :
  heap c !! o = Some d → shutdown_pc d = false →
  _post_download E o c = (c', r) → emits_only no_shutdown c c'.
Proof.
  intros Hd Hflag.
  destruct (decide (status d = Status.completed)) as [Hs|Hs].
  - rewrite (post_download_eq E o c d) by done. rewrite Hflag.
    generalize (cfg c) as g. intros g Hrun.
    by_keeps (emits_only no_shutdown) Hrun.
    emits_tac; auto using download_thumbnail_emits, write_timestamp_emits.
  - unfold _post_download. unfold bind at 1. unfold deref. rewrite Hd.
    unfold bind at 1. unfold ask. rewrite bool_decide_eq_false_2 by done.
    intros [= <- <-]. reflexivity.
Qed.

(** X7.  The shutdown an item asks for happens once.  For an item that
    is not completed [_post_download] does nothing at all, so the flag
    stays on until the download has completed.  For a completed item,
    whenever [_post_download] returns, the flag of the item is off and
    nothing else in the heap has changed; the shutdown was begun (the
    settings saved and the command issued) exactly if the flag was on;
    and a second [_post_download] of the same item begins no shutdown. *)
Theorem post_download_shutdown_once E o c d :
  heap c !! o = Some d →
  (status d ≠ Status.completed → _post_download E o c = (c, Ret tt))
  ∧ (status d = Status.completed →
     ∀ c', _post_download E o c = (c', Ret tt) →
           heap c' = <[o := set_shutdown_pc false d]> (heap c)
           ∧ (shutdown_pc d = true → SaveSettings ∈ new_events c c')
           ∧ (shutdown_pc d = false → SaveSettings ∉ new_events c c')
           ∧ SaveSettings ∉ new_events c' (_post_download E o c').1).
Proof.
  intros Hd. split.
  - intros Hs. unfold _post_download. unfold bind at 1. unfold deref.
    rewrite Hd. unfold bind at 1. unfold ask.
    by rewrite bool_decide_eq_false_2.
  - intros Hs c' Hrun.
    assert (Hnot : ∀ c1 c2, emits_only no_shutdown c1 c2 →
                            SaveSettings ∉ new_events c1 c2).
    { intros c1 c2 H12. apply emits_only_new_events in H12 as [_ Hev].
      intros Hin. rewrite forallb_forall in Hev.
      by apply list_elem_of_In, Hev in Hin. }
    assert (Hheap : heap c' = <[o := set_shutdown_pc false d]> (heap c)
                    ∧ (shutdown_pc d = true → SaveSettings ∈ new_events c c')
                    ∧ (shutdown_pc d = false → SaveSettings ∉ new_events c c')).
    { destruct (shutdown_pc d) eqn:Hflag.
      - rewrite (post_download_eq E o c d) in Hrun by done.
        rewrite Hflag in Hrun. revert Hrun. generalize (cfg c) as g.
        intros g Hrun.
        apply bind_ret_inv in Hrun as (c1 & [] & H1 & Hrun).
        apply bind_ret_inv in Hrun as (c2 & [] & H2 & Hrun).
        apply bind_ret_inv in Hrun as (c3 & [] & H3 & Hrun).
        apply bind_ret_inv in Hrun as (c4 & [] & H4 & Hrun).
        assert (E4 : emits_only no_shutdown c c4).
        { etrans; [|etrans; [|etrans]].
          - by_keeps (emits_only no_shutdown) H1.
            emits_tac; auto using download_thumbnail_emits.
          - by_keeps (emits_only no_shutdown) H2. emits_tac.
          - by_keeps (emits_only no_shutdown) H3.
            emits_tac; auto using write_timestamp_emits.
          - by_keeps (emits_only no_shutdown) H4. emits_tac. }
        simpl in Hrun. unfold bind at 1 in Hrun. unfold act at 1 in Hrun.
        pose proof (Controller_shutdown_pc_out E
                      (modify o (set_shutdown_pc false) c4)) as (evs & Hout).
        pose proof (Controller_shutdown_pc_emits E _ _ _ Hrun) as E5.
        rewrite Hrun in Hout. simpl in Hout.
        destruct E4 as [Hh4 _ _ _ _ (e4 & Ho4 & _)].
        destruct E5 as [Hh5 _ _ _ _ _].
        split; [|split; [|done]].
        + rewrite Hh5. unfold modify. by rewrite Hh4, Hd.
        + intros _. unfold new_events. rewrite Hout, out_modify, Ho4.
          rewrite <- app_assoc, drop_app_length.
          rewrite elem_of_app, elem_of_cons. auto.
      - pose proof (post_download_no_shutdown E o c d c' _ Hd Hflag Hrun) as E1.
        split; [|split; [done|]].
        + destruct E1 as [-> _ _ _ _ _]. rewrite list_insert_id; [done|].
          rewrite Hd. f_equal. destruct d. simpl in *. by subst.
        + intros _. by apply Hnot. }
    destruct Hheap as (Hh & Hon & Hoff). repeat split; try done.
    destruct (_post_download E o c') as [c'' r''] eqn:Hrun'. simpl.
    apply Hnot.
    eapply (post_download_no_shutdown E o c' (set_shutdown_pc false d));
      [|done|exact Hrun'].
    rewrite Hh. apply list_lookup_insert_eq. by eapply lookup_lt_Some.
Qed.

(** ** Flags of single items *)

(** Looking an item up depends on [d_map] and the playlist only. *)
Lemma get_d_modify o f c uid video_idx :
  get_d (modify o f c) uid video_idx = get_d c uid video_idx.
Proof.
  unfold get_d. rewrite d_map_modify.
  assert (Hp : playlist (modify o f c) = playlist c).
  { unfold modify. by destruct (heap c !! o). }
  by rewrite Hp.
Qed.

Lemma get_d_emit e c uid video_idx :
  get_d (emit e c) uid video_idx = get_d c uid video_idx.
Proof. done. Qed.

(** Writing back what is there changes nothing. *)
Lemma modify_modify_id o f g c d :
  heap c !! o = Some d → g (f d) = d → modify o g (modify o f c) = c.
Proof.
  intros Hd Hfg. unfold modify at 1. rewrite (modify_heap_lookup o f c d Hd).
  unfold modify. rewrite Hd. simpl. rewrite Hfg.
  rewrite list_insert_insert_eq, list_insert_id by done. by destruct c.
Qed.

(** X5.  The calls on the shutdown flag and on the completion command of
    an item look the item up with [get_d(uid=uid)].  When nothing is
    found each of them raises (the attribute of [None] is read) and
    changes nothing.  On a completed item [scedule_shutdown],
    [toggle_shutdown] and [set_on_completion_command] return without
    changing anything, so neither a shutdown nor a command can be added
    to a download that is over; the command it has is still read. *)
Theorem item_flags_guarded u command c :
  (get_d c (Some u) None = None →
   scedule_shutdown u c = (c, Raise)
   ∧ cancel_shutdown u c = (c, Raise)
   ∧ toggle_shutdown u c = (c, Raise)
   ∧ set_on_completion_command u command c = (c, Raise)
   ∧ get_on_completion_command u c = (c, Raise))
  ∧ (∀ o d, get_d c (Some u) None = Some o → heap c !! o = Some d →
            status d = Status.completed →
            scedule_shutdown u c = (c, Ret tt)
            ∧ toggle_shutdown u c = (c, Ret tt)
            ∧ set_on_completion_command u command c = (c, Ret tt)
            ∧ get_on_completion_command u c
              = (c, Ret (on_completion_command d))).
Proof.
  split.
  - intros Hg.
    unfold scedule_shutdown, cancel_shutdown, toggle_shutdown,
      set_on_completion_command, get_on_completion_command, bind, ask.
    by rewrite Hg.
  - intros o d Hg Hd Hs.
    unfold scedule_shutdown, toggle_shutdown, set_on_completion_command,
      get_on_completion_command, bind, ask, deref.
    rewrite Hg, Hd. by rewrite bool_decide_eq_true_2.
Qed.

(** X6.  For an item that is not completed: toggling the shutdown flag
    twice gives back the controller as it was; a shutdown that is
    scheduled and then cancelled leaves the flag off and logs the
    cancellation; and the command set with [set_on_completion_command]
    is the one [get_on_completion_command] returns. *)
Theorem item_flags_round_trip u command c o d :
  get_d c (Some u) None = Some o → heap c !! o = Some d →
  status d ≠ Status.completed →
  (toggle_shutdown u ;;; toggle_shutdown u) c = (c, Ret tt)
  ∧ (scedule_shutdown u ;;; cancel_shutdown u) c
    = (emit (Log "shutdown schedule cancelled for:" false)
            (modify o (set_shutdown_pc false) c), Ret tt)
  ∧ (set_on_completion_command u command ;;; get_on_completion_command u) c
    = (modify o (set_command command) c, Ret command).
Proof.
  intros Hg Hd Hs.
  assert (Hs' : ∀ b, status (set_shutdown_pc b d) ≠ Status.completed) by done.
  split; [|split].
  - unfold toggle_shutdown, bind, ask, deref, act.
    rewrite Hg, Hd. rewrite bool_decide_eq_false_2 by done.
    rewrite get_d_modify, Hg.
    rewrite (modify_heap_lookup o _ c d Hd).
    rewrite bool_decide_eq_false_2 by done.
    f_equal. apply (modify_modify_id o _ _ c d Hd).
    destruct d. simpl. by rewrite negb_involutive.
  - unfold scedule_shutdown, cancel_shutdown, bind, ask, deref, act, when, log.
    rewrite Hg, Hd. rewrite bool_decide_eq_false_2 by done.
    rewrite get_d_modify, Hg.
    rewrite (modify_heap_lookup o _ c d Hd). simpl.
    do 2 f_equal. unfold modify at 1.
    rewrite (modify_heap_lookup o _ c d Hd). unfold modify. rewrite Hd.
    simpl. by rewrite list_insert_insert_eq.
  - unfold set_on_completion_command, get_on_completion_command,
      bind, ask, deref, act, ret.
    rewrite Hg, Hd. rewrite bool_decide_eq_false_2 by done.
    rewrite get_d_modify, Hg.
    by rewrite (modify_heap_lookup o _ c d Hd).
Qed.

(** ** Leaving the application *)

(** [stop_download] on an entry of [d_map] rewrites its object. *)
Lemma stop_download_stopped u o c :
  d_map c !! u = Some o → stop_download u c = modify o stopped c.
Proof.
  intros Hu. unfold stop_download, status_of. rewrite Hu.
  destruct (heap c !! o) as [d|] eqn:Hd; simpl.
  - unfold stopped, modify. rewrite Hd.
    destruct (bool_decide _); [done|].
    rewrite list_insert_id by done. by destruct c.
  - unfold modify. by rewrite Hd.
Qed.

Lemma stopped_stopped d : stopped (stopped d) = stopped d.
Proof.
  unfold stopped. by repeat case_bool_decide.
Qed.

Lemma stopped_uid d : uid (stopped d) = uid d.
Proof. unfold stopped. by case_bool_decide. Qed.

Lemma stopped_not_active d : Status.is_active (status (stopped d)) = false.
Proof.
  unfold stopped, Status.is_active.
  destruct (status d) eqn:Hs; simpl; rewrite ?Hs; reflexivity.
Qed.

Lemma keyed_modify o f c :
  (∀ d, uid (f d) = uid d) → keyed c → keyed (modify o f c).
Proof.
  intros Hf Hk u o' Hu. rewrite d_map_modify in Hu.
  destruct (decide (o = o')) as [<-|Hne].
  - rewrite heap_modify. specialize (Hk u o Hu).
    destruct (heap c !! o); simpl in *; [|done]. by rewrite Hf.
  - rewrite heap_modify_ne by done. by apply Hk.
Qed.

(** The loop of [quit] over some entries of a list that is filed under
    the uids of its objects. *)
Lemma stop_loop_stopped os c :
  keyed c → (∀ o, o ∈ os → ∃ u, d_map c !! u = Some o) →
  let c' := fold_left (λ c o, match heap c !! o with
                              | Some d => stop_download (uid d) c
                              | None => c
                              end) os c in
  d_map c' = d_map c ∧ cfg c' = cfg c ∧ out c' = out c
  ∧ pending_downloads_q c' = pending_downloads_q c
  ∧ playlist c' = playlist c
  ∧ ∀ o, heap c' !! o
         = (if bool_decide (o ∈ os) then stopped else id) <$> heap c !! o.
Proof.
  revert c. induction os as [|o os IH]; intros c Hk Hos; simpl.
  - repeat split; try done. intros o. by destruct (heap c !! o).
  - destruct (Hos o) as (u & Hu); [apply list_elem_of_here|].
    pose proof (Hk u o Hu) as Huid.
    destruct (heap c !! o) as [d|] eqn:Hd; [|done]. simpl in Huid.
    injection Huid as ->. rewrite (stop_download_stopped _ o) by done.
    destruct (IH (modify o stopped c)) as (Hm & Hc & Ho & Hq & Hp & Hh).
    { apply keyed_modify; [apply stopped_uid|done]. }
    { intros o' Hin. rewrite d_map_modify. apply Hos. by apply list_elem_of_further. }
    rewrite Hm, Hc, Ho, Hq, Hp. autorewrite with ctl.
    split; [done|]. split; [done|]. split; [done|]. split; [done|].
    split; [unfold modify; by rewrite Hd|].
    intros o'. rewrite Hh. destruct (decide (o = o')) as [<-|Hne].
    + rewrite heap_modify, Hd. simpl.
      rewrite (bool_decide_eq_true_2 (o ∈ o :: os)) by apply list_elem_of_here.
      destruct (bool_decide (o ∈ os)); simpl; [|done].
      by rewrite stopped_stopped.
    + rewrite heap_modify_ne by done.
      destruct (bool_decide (o' ∈ os)) eqn:Hin.
      * apply bool_decide_eq_true in Hin.
        by rewrite bool_decide_eq_true_2 by (by apply list_elem_of_further).
      * apply bool_decide_eq_false in Hin.
        by rewrite bool_decide_eq_false_2
          by (rewrite elem_of_cons; intros [?|?]; [congruence|done]).
Qed.

(** Filtering leaves nothing when no element qualifies. *)
Lemma filter_none {A} (P : A → Prop) `{!∀ x, Decision (P x)} (l : list A) :
  (∀ x, x ∈ l → ¬ P x) → filter P l = [].
Proof.
  induction l as [|x l IH]; intros Hl; [done|].
  rewrite filter_cons_False by (apply Hl, list_elem_of_here).
  apply IH. intros y Hy. by apply Hl, list_elem_of_further.
Qed.

Lemma stop_all_stopped c :
  keyed c →
  d_map (stop_all c) = d_map c ∧ cfg (stop_all c) = cfg c
  ∧ out (stop_all c) = out c
  ∧ pending_downloads_q (stop_all c) = pending_downloads_q c
  ∧ playlist (stop_all c) = playlist c
  ∧ ∀ o, heap (stop_all c) !! o
         = (if bool_decide (o ∈ d_map_values c) then stopped else id)
             <$> heap c !! o.
Proof.
  intros Hk. apply (stop_loop_stopped (d_map_values c) c Hk).
  intros o Hin. by apply elem_of_d_map_values.
Qed.

(** X8.  [quit], on a list whose entries are filed under the uids of
    their objects: both flags are raised and the settings are saved;
    every item of [d_map] that was downloading, refreshing its url or
    pending is cancelled and every other item of the list, scheduled
    ones included, is left as it was, as is every object outside the
    list; [d_map] and the pending queue are unchanged.  Afterwards no
    download is active, and the completion watchdog ends at its next
    poll without running anything. *)
Theorem quit_stops_everything a :
  keyed (controller a) →
  let c := controller a in
  let c' := controller (quit a) in
  ytdl_abort (quit a) = true
  ∧ config.shutdown (cfg c') = true
  ∧ d_map c' = d_map c
  ∧ pending_downloads_q c' = pending_downloads_q c
  ∧ new_events c c' = [SaveSettings]
  ∧ (∀ u o d, d_map c !! u = Some o → heap c !! o = Some d →
              heap c' !! o = Some (stopped d))
  ∧ (∀ o, (∀ u, d_map c !! u ≠ Some o) → heap c' !! o = heap c !! o)
  ∧ active_downloads c' = 0
  ∧ (∀ E trigger, watchdog_poll E trigger c' = None).
Proof.
  intros Hk c c'.
  set (c0 := with_cfg (set_shutdown true (cfg c)) c).
  assert (Hc' : c' = emit SaveSettings (stop_all c0)) by done.
  destruct (stop_all_stopped c0 Hk) as (Hm & Hc & Ho & Hq & Hp & Hh).
  assert (Hheap : ∀ o, heap c' !! o
                       = (if bool_decide (o ∈ d_map_values c) then stopped else id)
                           <$> heap c !! o).
  { intros o. apply (Hh o). }
  assert (Hshut : config.shutdown (cfg c') = true).
  { rewrite Hc'. simpl. by rewrite Hc. }
  split; [done|]. split; [done|].
  split; [by rewrite Hc'; simpl; rewrite Hm|].
  split; [by rewrite Hc'; simpl; rewrite Hq|].
  split.
  { unfold new_events. rewrite Hc'. simpl. rewrite Ho. simpl.
    by rewrite drop_app_length. }
  split.
  { intros u o d Hu Hd. rewrite Hheap, Hd.
    rewrite bool_decide_eq_true_2; [done|].
    apply elem_of_d_map_values. eauto. }
  split.
  { intros o Hno. rewrite Hheap.
    rewrite bool_decide_eq_false_2.
    - by destruct (heap c !! o).
    - intros Hin. apply elem_of_d_map_values in Hin as (u & Hu).
      by apply (Hno u). }
  split.
  { rewrite active_downloads_among. unfold active_among.
    replace (filter _ _) with (@nil nat); [done|]. symmetry.
    apply filter_none. intros o Hin. apply not_true_iff_false.
    assert (Hin' : o ∈ d_map_values c).
    { apply elem_of_d_map_values in Hin as (u & Hu).
      apply elem_of_d_map_values. exists u. rewrite Hc' in Hu. simpl in Hu.
      by rewrite Hm in Hu. }
    unfold active_obj, status_of. rewrite Hheap.
    rewrite bool_decide_eq_true_2 by done.
    destruct (heap c !! o) as [d|]; simpl; [|done].
    by rewrite stopped_not_active. }
  intros E trigger. unfold watchdog_poll. by rewrite Hshut.
Qed.

(** ** The handler of scheduled downloads *)

(** Items none of which is due are not called for. *)
Lemma scheduled_calls_waits now c ds :
  (∀ o d, o ∈ ds → heap c !! o = Some d → due now d = false) →
  scheduled_calls now c ds = [].
Proof.
  unfold scheduled_calls.
  induction ds as [|o ds IH]; intros Hds; [done|].
  assert (Hrest := IH (λ o' d' Hin, Hds o' d' (list_elem_of_further _ _ _ Hin))).
  simpl. destruct (heap c !! o) as [d|] eqn:Hd; [|exact Hrest].
  rewrite (Hds o d) by (done || apply list_elem_of_here). exact Hrest.
Qed.

(** X9.  The handler of scheduled downloads starts nothing early.  In a
    turn at time [now] in which no scheduled item of [d_map] has a date
    that has come, the handler only sleeps for a minute: items that are
    not scheduled, and scheduled items without a date or with a later
    one, are not passed to [download].  When the one scheduled item of
    the list is due, the turn is the call [download(d, silent=True)] for
    it, followed by the sleep. *)
Theorem scheduled_turn_waits now c :
  ((∀ u o d, d_map c !! u = Some o → heap c !! o = Some d →
             status d = Status.scheduled → due now d = false) →
   scheduled_turn now c = (emit (Sleep sched_interval) c, []))
  ∧ (∀ o d,
       filter (λ o, status_of c o = Some Status.scheduled) (d_map_values c)
       = [o] →
       heap c !! o = Some d → due now d = true →
       scheduled_turn now c
       = (emit (Sleep sched_interval) c, [silent_call o])).
Proof.
  split.
  - intros Hwait. unfold scheduled_turn.
    rewrite scheduled_calls_waits; [done|].
    intros o d Hin Hd. apply list_elem_of_filter in Hin as [Hs Hin].
    apply elem_of_d_map_values in Hin as (u & Hu).
    apply (Hwait u o d); try done.
    unfold status_of in Hs. rewrite Hd in Hs. by injection Hs.
  - intros o d Hf Hd Hdue. unfold scheduled_turn. rewrite Hf.
    unfold scheduled_calls. simpl. by rewrite Hd, Hdue.
Qed.

(** ** Looking items up *)

(** X11.  [get_d] looks in [d_map] whenever a non-empty uid is given,
    and then never falls back on the playlist: an unknown uid gives
    [None] even if a video index is given too.  Without a uid the item
    is taken from the playlist with Python's indexing: index [i >= 0]
    counts from the front, [i < 0] from the back ([-1] is the last
    item); an index out of range (in particular any index on an empty
    playlist) gives [None], the IndexError being caught; no index at all
    is index 0. *)
Theorem get_d_lookup c u video_idx :
  (∀ s, u = Some s → s ≠ "" → get_d c u video_idx = d_map c !! s)
  ∧ (u = None ∨ u = Some "" →
     (video_idx = None → get_d c u video_idx = head (playlist c))
     ∧ (∀ i, video_idx = Some i →
             (0 ≤ i → get_d c u video_idx = playlist c !! Z.to_nat i)
             ∧ (i < 0 →
                get_d c u video_idx
                = reverse (playlist c) !! Z.to_nat (- i - 1))
             ∧ (is_Some (get_d c u video_idx)
                ↔ - Z.of_nat (length (playlist c)) ≤ i
                  < Z.of_nat (length (playlist c))))).
Proof.
  split.
  - intros s -> Hs. unfold get_d.
    rewrite bool_decide_eq_true_2; [done|]. split; congruence.
  - intros Hu. unfold get_d.
    rewrite bool_decide_eq_false_2 by (intros [? ?]; destruct Hu; done).
    split.
    + intros ->. rewrite bool_decide_eq_false_2 by (intros [? ?]; done).
      unfold py_index. simpl. by destruct (playlist c).
    + intros i ->.
      assert (Hidx : (if bool_decide (Some i ≠ None ∧ Some i ≠ Some 0)
                      then py_index (playlist c) (default 0 (Some i))
                      else py_index (playlist c) 0)
                     = py_index (playlist c) i).
      { case_bool_decide as Hi; [done|].
        destruct (decide (i = 0)) as [->|Hne]; [done|].
        exfalso. apply Hi. split; congruence. }
      rewrite Hidx. unfold py_index.
      set (l := playlist c). split; [|split].
      * intros Hi. by rewrite (proj2 (Z.leb_le 0 i)).
      * intros Hi. rewrite (proj2 (Z.leb_gt 0 i)) by done.
        destruct (- Z.of_nat (length l) <=? i) eqn:Hlo.
        -- apply Z.leb_le in Hlo.
           rewrite reverse_lookup by lia. f_equal. lia.
        -- apply Z.leb_gt in Hlo. symmetry. apply lookup_ge_None.
           rewrite length_reverse. lia.
      * destruct (0 <=? i) eqn:Hi.
        -- apply Z.leb_le in Hi. rewrite lookup_lt_is_Some. lia.
        -- apply Z.leb_gt in Hi.
           destruct (- Z.of_nat (length l) <=? i) eqn:Hlo.
           ++ apply Z.leb_le in Hlo. rewrite lookup_lt_is_Some. lia.
           ++ apply Z.leb_gt in Hlo. split; [by intros [? ?]|lia].
Qed.

(** ** The search for ffmpeg *)

(** The facts about the state and the trace after the search. *)
Ltac ffmpeg_fin :=
  repeat split; try done; try (by simplify_eq);
  unfold new_events; simpl; rewrite <- ?app_assoc, drop_app_length; simpl;
  rewrite ?elem_of_cons; auto.

(** X12.  [check_ffmpeg] never raises and touches no download item.
    Off Windows the application folders are not looked at: the answer is
    that of [which ffmpeg].  On Windows a copy of ffmpeg.exe in the
    current directory settles the matter without any command being run;
    but when the current directory can not be listed the exception ends
    the search of the application folders, the settings folder is not
    looked at, and the answer is that of [where ffmpeg].  When nothing
    is found [config.ffmpeg_actual_path] keeps its former value. *)
Theorem check_ffmpeg_search E c :
  let windows := bool_decide (config.operating_system (cfg c) = "Windows") in
  let cmd := if windows then "where ffmpeg" else "which ffmpeg" in
  ∃ c' found,
    check_ffmpeg E c = (c', Ret found)
    ∧ heap c' = heap c ∧ d_map c' = d_map c
    ∧ pending_downloads_q c' = pending_downloads_q c
    ∧ (found = false → ffmpeg_actual_path c' = ffmpeg_actual_path c)
    ∧ (windows = false →
       found = negb (run_command E cmd).1
       ∧ RunCommand cmd ∈ new_events c c')
    ∧ (windows = true →
       listdir E (config.current_directory (cfg c)) = None →
       found = negb (run_command E cmd).1
       ∧ RunCommand cmd ∈ new_events c c')
    ∧ (windows = true →
       ∀ files, listdir E (config.current_directory (cfg c)) = Some files →
                "ffmpeg.exe" ∈ files →
                found = true
                ∧ forallb (λ e, negb (is_run_command e)) (new_events c c')
                  = true).
Proof.
  intros windows cmd.
  unfold check_ffmpeg, bind, log, act, ask, ret. simpl.
  fold windows. fold cmd.
  set (c0 := emit (Log "check ffmpeg availability?" false) c).
  destruct windows eqn:Hw; simpl.
  - destruct (listdir E (config.current_directory (cfg c))) as [files1|] eqn:H1.
    + destruct (bool_decide ("ffmpeg.exe" ∈ files1)) eqn:Hin1.
      * eexists _, true. split; [reflexivity|]. ffmpeg_fin.
      * apply bool_decide_eq_false in Hin1.
        destruct (listdir E (config.global_sett_folder (cfg c)))
          as [files2|] eqn:H2;
          [destruct (bool_decide ("ffmpeg.exe" ∈ files2))|].
        -- eexists _, true. split; [reflexivity|]. ffmpeg_fin.
        -- destruct (run_command E cmd) as [[|] output] eqn:Hrun; simpl;
             (eexists _, _; split; [reflexivity|]); ffmpeg_fin.
        -- destruct (run_command E cmd) as [[|] output] eqn:Hrun; simpl;
             (eexists _, _; split; [reflexivity|]); ffmpeg_fin.
    + destruct (run_command E cmd) as [[|] output] eqn:Hrun; simpl;
        (eexists _, _; split; [reflexivity|]); ffmpeg_fin.
  - destruct (run_command E cmd) as [[|] output] eqn:Hrun; simpl;
      (eexists _, _; split; [reflexivity|]); ffmpeg_fin.
Qed.

(** ** Deleting, stopping and the pending queue *)

(** X14.  [delete(uid)]: a uid that is not in [d_map] raises (the
    KeyError of [pop]) and changes nothing.  Otherwise the entry, and
    only that entry, leaves [d_map]; its object is cancelled, whatever
    its status was, and its temporary files are deleted; the pending
    queue is not touched; the number of active downloads does not
    grow; and afterwards the uid is not found by [get_d], and
    [stop_download] on it does nothing. *)
Theorem delete_removes_item u c :
  (d_map c !! u = None → Controller_delete u c = (c, Raise))
  ∧ (∀ o, d_map c !! u = Some o →
          ∃ c', Controller_delete u c = (c', Ret tt)
                ∧ d_map c' = delete u (d_map c)
                ∧ heap c' = heap (modify o (set_status Status.cancelled) c)
                ∧ pending_downloads_q c' = pending_downloads_q c
                ∧ new_events c c' = [DeleteTempfiles o]
                ∧ active_downloads c' ≤ active_downloads c
                ∧ (u ≠ "" → ∀ video_idx, get_d c' (Some u) video_idx = None)
                ∧ stop_download u c' = c').
Proof.
  split.
  - intros Hu. unfold Controller_delete, bind, ask. by rewrite Hu.
  - intros o Hu. unfold Controller_delete, bind, ask, act. rewrite Hu.
    eexists. split; [reflexivity|].
    set (c1 := with_d_map (delete u (d_map c)) c).
    assert (Hm : d_map (emit (DeleteTempfiles o)
                          (modify o (set_status Status.cancelled) c1))
                 = delete u (d_map c)).
    { simpl. by rewrite d_map_modify. }
    split; [exact Hm|].
    split; [unfold modify; simpl; by destruct (heap c !! o)|].
    split; [by simpl; rewrite pending_modify|].
    split; [unfold new_events; simpl;
            by rewrite out_modify, drop_app_length|].
    split.
    { rewrite active_downloads_emit.
      etrans; [by apply modify_status_inactive|]. apply delete_count. }
    split.
    + intros Hne video_idx. unfold get_d.
      rewrite bool_decide_eq_true_2 by (split; congruence).
      simpl. rewrite d_map_modify. simpl. apply lookup_delete_eq.
    + unfold stop_download. rewrite Hm. by rewrite lookup_delete_eq.
Qed.

(** X15.  An item that is stopped or deleted while it waits in the
    pending queue is not started later: when the handler takes it from
    the queue it finds that it is no longer pending and drops it; only
    the sleep follows. *)
Theorem cancelled_while_pending_not_started u c o q d :
  d_map c !! u = Some o → heap c !! o = Some d →
  status d = Status.pending →
  pending_downloads_q c = o :: q →
  (let c1 := stop_download u c in
   drain_take c1
   = Some (emit (Sleep drain_interval) (with_pending q c1), []))
  ∧ (let c1 := (Controller_delete u c).1 in
     drain_take c1
     = Some (emit (Sleep drain_interval) (with_pending q c1), [])).
Proof.
  intros Hu Hd Hs Hq.
  assert (Hdrop : ∀ c1, pending_downloads_q c1 = o :: q →
                        status_of c1 o = Some Status.cancelled →
                        drain_take c1
                        = Some (emit (Sleep drain_interval) (with_pending q c1),
                                [])).
  { intros c1 Hq1 Hs1. unfold drain_take. rewrite Hq1.
    change (status_of (with_pending q c1) o) with (status_of c1 o).
    rewrite Hs1. by rewrite bool_decide_eq_false_2. }
  split.
  - assert (Hstop : stop_download u c
                    = modify o (set_status Status.cancelled) c).
    { unfold stop_download, status_of. rewrite Hu, Hd. simpl. rewrite Hs.
      by rewrite bool_decide_eq_true_2
        by (rewrite ?elem_of_app, !elem_of_cons; auto). }
    simpl. rewrite Hstop. apply Hdrop.
    + by rewrite pending_modify.
    + by rewrite status_of_modify, Hd.
  - unfold Controller_delete, bind, ask, act. rewrite Hu. simpl.
    apply Hdrop.
    + simpl. by rewrite pending_modify.
    + change (status_of (emit ?e ?c0) o) with (status_of c0 o).
      rewrite status_of_modify. simpl. by rewrite Hd.
Qed.

(** ** Scheduling *)

(** X16.  [schedule_start] with a date that is not in the past
    schedules the item whatever its status was, completed or active
    included: the date is stored and the status becomes scheduled.
    [schedule_cancel] then leaves the item cancelled, not in its former
    status, and without a date; [d_map] and the pending queue are not
    touched by either call. *)
Theorem schedule_start_then_cancel now u video_idx t c o d :
  get_d c u video_idx = Some o → heap c !! o = Some d → now ≤ t →
  let c1 := schedule_start now u video_idx (PyDatetime t) c in
  let c2 := schedule_cancel u video_idx c1 in
  heap c1 !! o = Some (set_status Status.scheduled (set_sched (Some t) d))
  ∧ heap c2 !! o = Some (set_status Status.cancelled (set_sched None d))
  ∧ d_map c2 = d_map c
  ∧ pending_downloads_q c2 = pending_downloads_q c
  ∧ new_events c c2
    = [Log "Schedule at" false; Log "Schedule has been cancelled" false].
Proof.
  intros Hg Hd Ht c1 c2.
  assert (Hc1 : c1 = modify o (set_status Status.scheduled)
                       (modify o (set_sched (Some t))
                          (emit (Log "Schedule at" false) c))).
  { unfold c1, schedule_start. rewrite Hg.
    by rewrite (proj2 (Z.ltb_ge t now)). }
  assert (Hh1 : heap c1 !! o
                = Some (set_status Status.scheduled (set_sched (Some t) d))).
  { rewrite Hc1. rewrite heap_modify, heap_modify. simpl. by rewrite Hd. }
  assert (Hg1 : get_d c1 u video_idx = Some o).
  { by rewrite Hc1, !get_d_modify, get_d_emit. }
  assert (Hc2 : c2 = modify o (set_sched None)
                       (modify o (set_status Status.cancelled)
                          (emit (Log "Schedule has been cancelled" false) c1))).
  { unfold c2, schedule_cancel. rewrite Hg1. unfold status_of. rewrite Hh1.
    done. }
  split; [done|]. split; [|split; [|split]].
  - rewrite Hc2. rewrite heap_modify, heap_modify. simpl. rewrite Hh1.
    simpl. f_equal.
  - by rewrite Hc2, Hc1; autorewrite with ctl; simpl; autorewrite with ctl.
  - by rewrite Hc2, Hc1; autorewrite with ctl; simpl; autorewrite with ctl.
  - unfold new_events. rewrite Hc2, Hc1. autorewrite with ctl. simpl.
    autorewrite with ctl. simpl.
    by rewrite <- app_assoc, drop_app_length.
Qed.

(** ** What the view is sent *)

(** X17.  The keywords [_update_view] passes to the view: the command
    of the event is kept, and is 'update' when the event has none.  When
    the uid of the event is in [d_map] and the event carries a non-zero
    [downloaded], the progress, speed and eta sent are those of the item
    at that moment, whatever the event said; otherwise (an unknown uid,
    or no [downloaded], or [downloaded] zero) every field other than the
    command is sent exactly as the event has it. *)
Theorem view_kwargs_fields c kwargs :
  view_kwargs c kwargs !! "command"
  = Some (default (VStr "update") (kwargs !! "command"))
  ∧ (∀ d, d_map_get c (dict_get kwargs "uid") = Some d →
          truthy (dict_get kwargs "downloaded") = true →
          view_kwargs c kwargs !! "progress" = Some (VInt (progress d))
          ∧ view_kwargs c kwargs !! "speed" = Some (VInt (speed d))
          ∧ view_kwargs c kwargs !! "eta" = Some (VInt (eta d)))
  ∧ (d_map_get c (dict_get kwargs "uid") = None
     ∨ truthy (dict_get kwargs "downloaded") = false →
     ∀ k, k ≠ "command" → view_kwargs c kwargs !! k = kwargs !! k).
Proof.
  set (kw1 := dict_setdefault kwargs "command" (VStr "update")).
  assert (Hcmd : kw1 !! "command"
                 = Some (default (VStr "update") (kwargs !! "command"))).
  { unfold kw1, dict_setdefault.
    destruct (kwargs !! "command") eqn:Hc; [done|].
    by rewrite lookup_insert_eq. }
  assert (Hne : ∀ k, k ≠ "command" → kw1 !! k = kwargs !! k).
  { intros k Hk. unfold kw1, dict_setdefault.
    destruct (kwargs !! "command"); [done|]. by rewrite lookup_insert_ne. }
  assert (Hget : ∀ k, k ≠ "command" → dict_get kw1 k = dict_get kwargs k).
  { intros k Hk. unfold dict_get. by rewrite Hne. }
  unfold view_kwargs. fold kw1. rewrite !Hget by done.
  split; [|split].
  - destruct (d_map_get c _) as [d|]; [|done].
    destruct (truthy _); [|done].
    unfold dict_update, extra. rewrite lookup_union.
    rewrite !lookup_insert_ne, lookup_singleton_ne by done.
    rewrite Hcmd. done.
  - intros d -> ->. unfold dict_update, extra.
    rewrite !lookup_union.
    rewrite lookup_insert_eq.
    rewrite (lookup_insert_ne _ "progress" "speed") by done.
    rewrite lookup_insert_eq.
    rewrite (lookup_insert_ne _ "progress" "eta") by done.
    rewrite (lookup_insert_ne _ "speed" "eta") by done.
    rewrite lookup_singleton_eq.
    repeat split; apply union_Some_l.
  - intros Hor k Hk.
    destruct Hor as [-> | Ht]; [by apply Hne|].
    rewrite Ht. destruct (d_map_get c _); by apply Hne.
Qed.

(** ** A download that recovers *)

(** One attempt whose transfer ends in error, whatever later attempts
    do. *)
Lemma retry_iteration_at E o silent n c d :
  heap c !! o = Some d →
  config.simulator (cfg c) = false →
  (∀ d, status (brain E (Z.to_nat n) d) = Status.error) →
  ∃ c', (run_thread E o n ;;; after_join E o silent n) c = (c', Ret true)
        ∧ d_map c' = d_map c ∧ cfg c' = cfg c
        ∧ is_Some (heap c' !! o)
        ∧ out c' = out c
                   ++ failed_attempt (config.refresh_url_retries (cfg c)) o silent n.
Proof.
  intros Hd Hsim Hbrain.
  unfold run_thread, after_join, bind, act, ask, deref, log, report_d. simpl.
  rewrite Hsim. ctl_simpl. rewrite Hd. simpl.
  rewrite bool_decide_eq_false_2 by (rewrite Hbrain; tauto).
  ctl_simpl. unfold failed_attempt, too_many_errors.
  destruct (n >=? config.refresh_url_retries (cfg c))%Z eqn:Hn.
  - eexists. split; [reflexivity|]. simpl. ctl_simpl. rewrite Hd. simpl.
    rewrite <- app_assoc. eauto 10.
  - unfold auto_refresh_url, bind, act, log, deref, when. simpl.
    ctl_simpl. rewrite Hd. simpl.
    destruct (bool_decide _);
      [destruct (refresh_headers E _) as [eff ct]; destruct (bool_decide _)
      |destruct (refresh_media E _)];
      simpl; (eexists; split; [reflexivity|]); ctl_simpl; rewrite ?Hd; simpl;
      rewrite <- ?app_assoc; repeat split; eauto; congruence.
Qed.

(** One attempt whose transfer does not end in error: the loop is left. *)
Lemma retry_iteration_ok E o silent n c d :
  heap c !! o = Some d →
  config.simulator (cfg c) = false →
  status (brain E (Z.to_nat n) d) ≠ Status.error →
  (run_thread E o n ;;; after_join E o silent n) c
  = (modify o (brain E (Z.to_nat n)) (emit (ThreadStart o) c), Ret false).
Proof.
  intros Hd Hsim Hbrain.
  unfold run_thread, bind, act, ask. simpl. rewrite Hsim.
  apply (after_join_not_error E o silent n _ (brain E (Z.to_nat n) d));
    [|done].
  by apply modify_heap_lookup.
Qed.

(** The loop over failing attempts followed by one that succeeds. *)
Lemma retry_loop_recovers E o silent ns k rest c :
  is_Some (heap c !! o) →
  config.simulator (cfg c) = false →
  (∀ n d, n ∈ ns → status (brain E (Z.to_nat n) d) = Status.error) →
  (∀ d, status (brain E (Z.to_nat k) d) ≠ Status.error) →
  ∃ c', retry_loop E o silent (ns ++ k :: rest) c = (c', Ret tt)
        ∧ d_map c' = d_map c ∧ cfg c' = cfg c
        ∧ (∃ d, heap c' !! o = Some d ∧ status d ≠ Status.error)
        ∧ out c' = out c
                   ++ flat_map (failed_attempt
                                  (config.refresh_url_retries (cfg c)) o silent)
                               ns
                   ++ [ThreadStart o].
Proof.
  intros Hd Hsim Hfail Hok. revert c Hd Hsim.
  induction ns as [|n ns IH]; intros c [d Hd] Hsim.
  - simpl app. rewrite retry_loop_cons.
    rewrite (retry_iteration_ok E o silent k c d) by done.
    eexists. split; [reflexivity|]. autorewrite with ctl. simpl.
    repeat split; try done.
    exists (brain E (Z.to_nat k) d). split; [|done].
    by rewrite Hd.
  - simpl app. rewrite retry_loop_cons.
    destruct (retry_iteration_at E o silent n c d Hd Hsim)
      as (c1 & -> & Hm1 & Hc1 & Hd1 & Ho1).
    { intros d'. apply Hfail. apply list_elem_of_here. }
    destruct (IH) with (c := c1) as (c2 & Hl & Hm2 & Hc2 & Hd2 & Ho2);
      [intros; apply Hfail; by apply list_elem_of_further|done|congruence|].
    exists c2. rewrite Hc1 in *.
    split; [done|]. split; [congruence|]. split; [congruence|].
    split; [done|].
    rewrite Ho2, Ho1. simpl. by rewrite <- !app_assoc.
Qed.

(** [range(r + 1)] up to [k], [k] itself, and the rest. *)
Lemma py_range_split r k :
  0 ≤ k ≤ r →
  ∃ rest, py_range (r + 1) = py_range k ++ k :: rest.
Proof.
  intros Hk. unfold py_range.
  replace (Z.to_nat (r + 1)) with (Z.to_nat k + S (Z.to_nat (r - k)))%nat by lia.
  rewrite seq_app, fmap_app. simpl. rewrite Z2Nat.id by lia. eauto.
Qed.

(** Filtering keeps everything when every element qualifies. *)
Lemma filter_all {A} (P : A → Prop) `{!∀ x, Decision (P x)} (l : list A) :
  (∀ x, x ∈ l → P x) → filter P l = l.
Proof.
  induction l as [|x l IH]; intros Hl; [done|].
  rewrite filter_cons_True by (apply Hl, list_elem_of_here).
  f_equal. apply IH. intros y Hy. by apply Hl, list_elem_of_further.
Qed.


(** ** Downloads in simulator mode *)

(** X13.  With [config.simulator] set, the transfer is played by
    [download_simulator], which no connection can fail: whatever the
    sizes the item starts from, the first attempt of the retry loop
    leaves it completed with [downloaded] equal to [total_size], and the
    loop ends there: one transfer thread, no url refresh. *)
Theorem simulated_download_completes E o silent c d :
  heap c !! o = Some d →
  config.simulator (cfg c) = true →
  0 ≤ config.refresh_url_retries (cfg c) →
  let retries := config.refresh_url_retries (cfg c) in
  ∃ c' d', retry_loop E o silent (py_range (retries + 1)) c = (c', Ret tt)
           ∧ new_events c c' = [ThreadStart o]
           ∧ heap c' !! o = Some d'
           ∧ status d' = Status.completed
           ∧ downloaded d' = total_size d
           ∧ d_map c' = d_map c.
Proof.
  intros Hd Hsim Hr retries.
  destruct (py_range_split retries 0) as (rest & Hsplit); [lia|].
  change (py_range 0) with (@nil Z) in Hsplit. simpl in Hsplit.
  rewrite Hsplit, retry_loop_cons.
  destruct (download_simulator_completes d) as [Hs Hdl].
  assert (Hrun : (run_thread E o 0;;; after_join E o silent 0) c
                 = (modify o download_simulator (emit (ThreadStart o) c),
                    Ret false)).
  { unfold run_thread, bind, act, ask. simpl. rewrite Hsim.
    apply (after_join_not_error E o silent 0 _ (download_simulator d)).
    - by apply modify_heap_lookup.
    - by rewrite Hs. }
  rewrite Hrun. eexists _, (download_simulator d).
  split; [reflexivity|].
  split; [unfold new_events; autorewrite with ctl; simpl;
          by rewrite drop_app_length|].
  autorewrite with ctl. simpl. by rewrite Hd.
Qed.

(** ** The watchdog and the settings *)

(** A poll that fires goes back to a trigger, or to an active item seen
    earlier, with the action configured at every poll since. *)
Lemma watchdog_fires_configured E trigger polls i :
  watchdog_fires E trigger polls !! i = Some true →
  let since j :=
    ∀ k c, (j ≤ k ≤ i)%nat → polls !! k = Some c →
           on_completion_configured c = true
           ∧ config.shutdown (cfg c) = false in
  (trigger = true ∧ since 0%nat)
  ∨ ∃ j c, (j < i)%nat ∧ polls !! j = Some c ∧ any_active c = true ∧ since j.
Proof.
  revert trigger i. induction polls as [|c polls IH]; intros trigger i; [done|].
  simpl. destruct (watchdog_poll E trigger c) as [[c' t']|] eqn:Hp; [|done].
  apply watchdog_poll_spec in Hp as (Hsh & Hf & Ht & _).
  destruct i as [|i]; simpl.
  - intros [= Hfired]. rewrite Hf in Hfired. left.
    destruct (on_completion_configured c) eqn:Hc; [|done].
    destruct trigger; [|by rewrite !andb_false_r in Hfired].
    split; [done|]. intros k c0 Hk Hc0.
    assert (k = 0%nat) as -> by lia. simpl in Hc0. by simplify_eq.
  - intros Hi. apply IH in Hi as [[-> Hsince]|(j & cj & Hj & Hcj & Hact & Hsince)].
    + destruct (on_completion_configured c) eqn:Hc; [|done].
      simpl in Ht.
      assert (Hall : ∀ k c0, (0 ≤ k ≤ S i)%nat → (c :: polls) !! k = Some c0 →
                             on_completion_configured c0 = true
                             ∧ config.shutdown (cfg c0) = false).
      { intros k c0 Hk Hc0. destruct k as [|k]; simpl in Hc0.
        - by simplify_eq.
        - apply (Hsince k c0); [lia|done]. }
      destruct (any_active c) eqn:Hact.
      * right. exists 0%nat, c. split; [lia|]. split; [done|].
        split; [done|exact Hall].
      * left. split; [|exact Hall]. destruct trigger; [done|].
        by rewrite andb_false_l in Ht.
    + right. exists (S j), cj. split; [lia|]. split; [done|].
      split; [done|]. intros k c0 Hk Hc0. destruct k as [|k]; [lia|].
      apply (Hsince k c0); [lia|done].
Qed.

(** X19.  The post-batch action is run only for downloads that were
    seen active while it was configured.  Whenever the watchdog fires at
    a poll, some earlier poll saw an active item, and at that poll and
    at every poll since, the firing one included, an action (command or
    shutdown) was configured and [config.shutdown] was off: a poll
    without any action configured disarms the watchdog, so that an
    action configured only after the downloads have completed is not
    run for them. *)
Theorem watchdog_configured_since_active E polls i :
  watchdog_fires E false polls !! i = Some true →
  ∃ j c, (j < i)%nat ∧ polls !! j = Some c ∧ any_active c = true
         ∧ ∀ k c', (j ≤ k ≤ i)%nat → polls !! k = Some c' →
                   on_completion_configured c' = true
                   ∧ config.shutdown (cfg c') = false.
Proof.
  intros Hi. apply watchdog_fires_configured in Hi as [[? _]|Hi]; [done|].
  exact Hi.
Qed.

(** ** The files that are there *)

#[global] Instance files_guarded_refl E silent : Reflexive (files_guarded E silent).
Proof. by intros c. Qed.

#[global] Instance files_guarded_trans E silent :
  Transitive (files_guarded E silent).
Proof.
  intros c1 c2 c3 [Hc1 Hs1 Hf1] [Hc2 Hs2 Hf2].
  split; [congruence|by etrans|].
  intros H. rewrite Hf2, Hf1; [done|done|by rewrite Hc1].
Qed.

Lemma files_guarded_same E silent c c' :
  cfg c' = cfg c → files c' = files c → files_guarded E silent c c'.
Proof. intros Hc Hf. split; [done|by rewrite Hf|done]. Qed.

Ltac files_act :=
  apply files_guarded_same;
  first [ done | by rewrite ?cfg_modify, ?files_modify ].

Ltac files_tac := keeps_tac files_act.

Section Files.
Context (E : Env) (o : nat) (silent : bool).

Lemma check_ffmpeg_files : M_keeps (files_guarded E silent) (check_ffmpeg E).
Proof. unfold check_ffmpeg. files_tac. Qed.

Lemma rename_files : M_keeps (files_guarded E silent) (rename E o).
Proof. unfold rename. files_tac. Qed.

Lemma check_resumable_files :
  M_keeps (files_guarded E silent) (check_resumable E o silent).
Proof. unfold check_resumable. files_tac. Qed.

Lemma check_d_map_files again :
  M_keeps (files_guarded E silent) again →
  M_keeps (files_guarded E silent) (check_d_map E again o silent).
Proof.
  intros Ha. unfold check_d_map.
  files_tac; auto using check_resumable_files, rename_files.
Qed.

(** A file that is in the way is deleted on the answer 'Overwrite'
    only; otherwise the item is renamed or the download given up. *)
Lemma check_target_file_files again :
  M_keeps (files_guarded E silent) again →
  M_keeps (files_guarded E silent) (check_target_file E again o silent).
Proof.
  intros Ha c c' r. unfold check_target_file. unfold bind at 1. unfold deref.
  destruct (heap c !! o) as [d|]; [|by intros [= <- <-]].
  unfold bind at 1. unfold ask.
  destruct (bool_decide (target_file d ∈ files c));
    [|by apply check_d_map_files].
  destruct (config.auto_rename (cfg c) || silent) eqn:Hauto.
  - (* renamed without asking *)
    unfold bind at 1. unfold ret at 1.
    rewrite bool_decide_eq_false_2
      by (intros Hn; apply Hn; rewrite !elem_of_cons; auto).
    rewrite bool_decide_eq_true_2 by done.
    intros Hrun. by_keeps (files_guarded E silent) Hrun.
    files_tac; auto using rename_files.
  - (* the user is asked *)
    apply orb_false_iff in Hauto as [Hren Hsil].
    unfold bind at 1, bind at 1, act at 1, ret at 1.
    destruct (bool_decide (user_response E 4%nat ∉ ["Overwrite"; "Rename"]))
      eqn:Hin.
    { intros Hrun.
      assert (Hk : files_guarded E silent (emit (Popup 4) c) c').
      { by_keeps (files_guarded E silent) Hrun. files_tac. }
      etrans; [|exact Hk]. by apply files_guarded_same. }
    destruct (bool_decide (user_response E 4%nat = "Rename")) eqn:Hrn.
    { intros Hrun.
      assert (Hk : files_guarded E silent (emit (Popup 4) c) c').
      { by_keeps (files_guarded E silent) Hrun.
        files_tac; auto using rename_files. }
      etrans; [|exact Hk]. by apply files_guarded_same. }
    (* the answer is 'Overwrite' *)
    assert (Hover : user_response E 4%nat = "Overwrite").
    { apply bool_decide_eq_false in Hin, Hrn.
      apply dec_stable in Hin. rewrite !elem_of_cons in Hin.
      destruct Hin as [?|[?|Hin]]; [done|done|by apply elem_of_nil in Hin]. }
    unfold bind at 1, delete_file, act at 1.
    intros Hrun.
    set (c1 := emit (DeleteFile (target_file d))
                 (with_files (files (emit (Popup 4) c) ∖ {[target_file d]})
                             (emit (Popup 4) c))) in Hrun.
    assert (Hk : files_guarded E silent c1 c').
    { by_keeps (files_guarded E silent) Hrun. by apply check_d_map_files. }
    destruct Hk as [Hc Hs Hf]. split.
    + by rewrite Hc.
    + etrans; [exact Hs|]. unfold c1. simpl. apply subseteq_difference_l.
      done.
    + intros [?|[?|?]]; [congruence|congruence|done].
Qed.

Lemma check_folder_files again :
  M_keeps (files_guarded E silent) again →
  M_keeps (files_guarded E silent) (check_folder E again o silent).
Proof.
  intros Ha. unfold check_folder. cbv zeta.
  files_tac; auto using check_target_file_files.
Qed.

Lemma pre_download_checks_body_files again :
  M_keeps (files_guarded E silent) again →
  M_keeps (files_guarded E silent) (pre_download_checks_body E again o silent).
Proof.
  intros Ha. unfold pre_download_checks_body. cbv zeta.
  files_tac; auto using check_folder_files, check_ffmpeg_files.
Qed.

Lemma pre_download_checks_files :
  M_keeps (files_guarded E silent) (_pre_download_checks E o silent).
Proof.
  unfold _pre_download_checks.
  induction (recursion_limit E) as [|depth IH]; simpl.
  - refine (M_keeps_raise _).
  - by apply pre_download_checks_body_files.
Qed.

End Files.


(** ** Items stay in the list *)

#[global] Instance listed_refl : Reflexive listed.
Proof. intros c. split; try done. exists []. by rewrite app_nil_r. Qed.

#[global] Instance listed_trans : Transitive listed.
Proof.
  intros c1 c2 c3 [Hm1 Hp1 (e1 & Ho1)] [Hm2 Hp2 (e2 & Ho2)].
  split; [auto|congruence|].
  exists (e1 ++ e2). by rewrite Ho2, Ho1, <- app_assoc.
Qed.

Lemma frame_listed n c c' : frame n c c' → listed c c'.
Proof.
  intros [_ Hp _ _ Hm Ho]. split; try done.
  intros u [o Hu]. destruct (Hm u o Hu) as (o' & Hu' & _). eauto.
Qed.

Lemma listed_modify o f c : listed c (modify o f c).
Proof. apply (frame_listed 0). apply frame_modify. lia. Qed.

Lemma listed_emit e c : listed c (emit e c).
Proof. apply (frame_listed 0), frame_emit. Qed.

Lemma listed_with_pending q c : listed c (with_pending q c).
Proof. split; try done. exists []. by rewrite app_nil_r. Qed.

Lemma begin_attempt_frame n o :
  (n ≤ o)%nat → M_keeps (frame n) (begin_attempt o).
Proof. intros Hle. unfold begin_attempt. frame_tac. Qed.

Lemma next_attempt_frame E n o silent ns :
  (n ≤ o)%nat → M_keeps (frame n) (next_attempt E o silent ns).
Proof.
  intros Hle. unfold next_attempt.
  frame_tac; auto using download_done_frame.
Qed.

(** The thread of a call of [download], up to the head of its loop,
    leaves the older objects alone, as the whole call does. *)
Lemma submit_frame E d u video_idx silent download_later kwargs c c' r :
  submit E d u video_idx silent download_later kwargs c = (c', r) →
  frame (length (heap c)) c c'.
Proof.
  unfold submit. unfold bind at 1.
  destruct (download_begin E d u video_idx silent download_later kwargs c)
    as [c1 r1] eqn:Hb.
  destruct (download_begin_frame _ _ _ _ _ _ _ _ _ _ Hb) as [Hf Ho].
  destruct r1 as [[o|]|]; try (by intros [= <- <-]).
  intros Hrun. etrans; [exact Hf|].
  by_keeps (frame (length (heap c))) Hrun.
  frame_tac; [apply next_attempt_frame|apply download_except_frame].
  by rewrite (Ho o eq_refl).
Qed.

Lemma resume_frame E o silent ns : M_keeps (frame 0) (resume E o silent ns).
Proof.
  unfold resume.
  frame_tac;
    auto using after_join_frame, next_attempt_frame, download_except_frame
    with lia.
Qed.

(** Every step other than [delete] keeps the list. *)
Lemma exec_listed E a s s' :
  exec E a s = Some s' → is_delete a = false → listed (ctl s) (ctl s').
Proof.
  intros Hexec Hdel.
  destruct a as [d u video_idx silent download_later kwargs|i|i|i st|i| |now
                |u|u|now u video_idx target_date|u video_idx];
    simpl in Hexec; try done.
  - injection Hexec as <-. reflexivity.
  - destruct (threads s !! i) as [[d u video_idx silent download_later kwargs
                                  | |]|]; try done.
    destruct (submit E d u video_idx silent download_later kwargs (ctl s))
      as [c r] eqn:Hsub.
    injection Hexec as <-. simpl. by eapply frame_listed, submit_frame.
  - destruct (threads s !! i) as [[|o silent ns [| |]|]|]; try done.
    injection Hexec as <-. unfold begin_attempt, bind, act. simpl.
    etrans; [apply listed_emit|apply listed_modify].
  - destruct (threads s !! i) as [[|o silent ns [| |]|]|]; try done.
    destruct (bool_decide (st ∈ terminal_states)); [|done].
    injection Hexec as <-. simpl. apply listed_modify.
  - destruct (threads s !! i) as [[|o silent ns [| |]|]|]; try done.
    destruct (resume E o silent ns (ctl s)) as [c r] eqn:Hres.
    injection Hexec as <-. simpl.
    by eapply (frame_listed 0), resume_frame.
  - destruct (drain_pc s).
    + unfold drain_check in Hexec.
      destruct (_ <? _)%Z; injection Hexec as <-; simpl;
        [reflexivity|apply listed_emit].
    + unfold drain_take in Hexec.
      destruct (pending_downloads_q (ctl s)) as [|o q]; [done|].
      injection Hexec as <-. simpl.
      etrans; [apply (listed_with_pending q)|apply listed_emit].
  - unfold scheduled_turn in Hexec. injection Hexec as <-. simpl.
    apply listed_emit.
  - injection Hexec as <-. simpl. unfold stop_download.
    destruct (d_map (ctl s) !! u) as [o|]; [|reflexivity].
    destruct (status_of (ctl s) o); [|reflexivity].
    destruct (bool_decide _); [apply listed_modify|reflexivity].
  - injection Hexec as <-. simpl. unfold schedule_start.
    destruct (get_d (ctl s) u video_idx) as [o|]; [|reflexivity].
    destruct target_date as [t|v]; [|reflexivity].
    destruct (t <? now)%Z; [apply listed_emit|].
    etrans; [apply listed_emit|].
    etrans; [apply listed_modify|apply listed_modify].
  - injection Hexec as <-. simpl. unfold schedule_cancel.
    destruct (get_d (ctl s) u video_idx) as [o|]; [|reflexivity].
    destruct (bool_decide _); [|reflexivity].
    etrans; [apply listed_emit|].
    etrans; [apply listed_modify|apply listed_modify].
Qed.

(** X21.  An item leaves the download list through [delete] only.  Along
    any run of the application that contains no call of [delete] (calls
    of [download] and the steps of their threads, starts and ends of
    transfers, returns from [t.join()] with their url refreshes, turns
    of the two handlers, stops and schedulings), every uid that is in
    [d_map] at the start is in [d_map] at the end; the playlist is
    unchanged and nothing is taken back from the trace. *)
Theorem run_keeps_items E acts s s' :
  forallb (λ a, negb (is_delete a)) acts = true →
  run E acts s = Some s' →
  (∀ u, is_Some (d_map (ctl s) !! u) → is_Some (d_map (ctl s') !! u))
  ∧ playlist (ctl s') = playlist (ctl s)
  ∧ ∃ evs, out (ctl s') = out (ctl s) ++ evs.
Proof.
  intros Hacts Hrun.
  assert (Hl : listed (ctl s) (ctl s')).
  { revert s Hacts Hrun. induction acts as [|a acts IH]; intros s Hacts Hrun.
    - simpl in Hrun. simplify_eq. reflexivity.
    - simpl in Hrun, Hacts. apply andb_true_iff in Hacts as [Ha Hacts].
      destruct (exec E a s) as [s1|] eqn:Hexec; [|done].
      etrans; [|by apply (IH s1)].
      eapply exec_listed; [exact Hexec|]. by apply negb_true_iff. }
  by destruct Hl.
Qed.

Lemma run_keeps_items_witness :
  ∃ s', run demo_env demo_refresh_run demo_sys = Some s'
        ∧ playlist (ctl s') = playlist (ctl demo_sys).
Proof.
  destruct (run demo_env demo_refresh_run demo_sys) as [s'|] eqn:Hrun.
  2:{ vm_compute in Hrun. discriminate. }
  exists s'. split; [reflexivity|].
  apply (run_keeps_items demo_env demo_refresh_run demo_sys s').
  - vm_compute. reflexivity.
  - exact Hrun.
Defined.

(** ** How a call of [download] ends up *)

(** X22.  A call of [download] (without [download_later]) comes out of
    its checks and its admission in one of three ways, with [o] the copy
    it has made.  Admitted: the copy is in [d_map], the pending queue is
    as it was, the number of active downloads is below the ceiling, and
    the call goes on to transfer [o].  Queued: the copy is in [d_map]
    with status pending and is the new last element of the pending
    queue, and the call is over.  Turned down (nothing to download,
    checks that fail or raise): [d_map] and the pending queue are as
    they were, and the call is over. *)
Theorem download_begin_outcome E d u video_idx silent kwargs c :
  let o := length (heap c) in
  let '(c', r) := download_begin E d u video_idx silent false kwargs c in
  (r = Ret (Some o)
   ∧ (∃ k, d_map c' !! k = Some o)
   ∧ pending_downloads_q c' = pending_downloads_q c
   ∧ active_downloads c' < config.max_concurrent_downloads (cfg c'))
  ∨ (r = Ret None
     ∧ (∃ k, d_map c' !! k = Some o)
     ∧ pending_downloads_q c' = pending_downloads_q c ++ [o]
     ∧ status_of c' o = Some Status.pending)
  ∨ ((r = Ret None ∨ r = Raise)
     ∧ d_map c' = d_map c
     ∧ pending_downloads_q c' = pending_downloads_q c).
Proof.
  intros o.
  destruct (download_begin E d u video_idx silent false kwargs c)
    as [c' r] eqn:Hrun.
  destruct (match d with Some o => Some o | None => get_d c u video_idx end)
    as [o0|] eqn:Ht.
  2:{ unfold download_begin, bind, ask in Hrun. rewrite Ht in Hrun.
      unfold log, act, ret in Hrun. injection Hrun as <- <-.
      right. right. by split; [left|]. }
  destruct (heap c !! o0) as [d0|] eqn:Hd0.
  2:{ unfold download_begin, copy, bind, ask, deref in Hrun.
      rewrite Ht, Hd0 in Hrun. injection Hrun as <- <-.
      right. right. by split; [right|]. }
  rewrite (download_begin_eq _ _ _ _ _ _ _ _ o0 d0), modify_copy in Hrun
    by done.
  fold o in Hrun.
  set (c1 := with_heap (heap c ++ [update_object E d0 kwargs]) c) in Hrun.
  unfold try_except, check_and_admit in Hrun. unfold bind at 1 in Hrun.
  destruct (_pre_download_checks E o silent c1) as [c2 r2] eqn:Hchk.
  pose proof (pre_download_checks_quiet _ _ _ _ _ _ Hchk)
    as [Hm2 Hc2 Hq2 Hl2 Hs2 _ _].
  change (d_map c1) with (d_map c) in Hm2.
  change (pending_downloads_q c1) with (pending_downloads_q c) in Hq2.
  assert (Hturned : ∀ c3 r3, (download_except;;; ret None) c2 = (c3, r3) →
                    (r3 = Ret (@None nat) ∨ r3 = Raise)
                    ∧ d_map c3 = d_map c
                    ∧ pending_downloads_q c3 = pending_downloads_q c).
  { intros c3 r3 Hex. split; [by eapply download_except_result|].
    apply (download_except_quiet (@None nat)) in Hex as [Hm3 _ Hq3 _ _ _ _].
    split; congruence. }
  destruct r2 as [[|]|].
  - assert (Hd2 : is_Some (heap c2 !! o)).
    { apply lookup_lt_is_Some. rewrite Hl2. unfold c1, o. simpl.
      rewrite length_app. simpl. lia. }
    destruct Hd2 as [d2 Hd2].
    unfold bind at 1 in Hrun. rewrite (register_eq o c2 d2) in Hrun by done.
    set (c3 := with_d_map _ _) in Hrun. simpl in Hrun.
    unfold bind at 1 in Hrun. rewrite admission_eq in Hrun.
    assert (Hin : d_map c3 !! uid d2 = Some o)
      by (unfold c3; simpl; apply lookup_insert_eq).
    assert (Hq3 : pending_downloads_q c3 = pending_downloads_q c).
    { unfold c3. simpl. rewrite pending_modify. simpl. by rewrite Hq2. }
    destruct (active_downloads c3 >=? config.max_concurrent_downloads (cfg c3))%Z
      eqn:Hge.
    + injection Hrun as <- <-. right. left. split; [done|].
      split; [exists (uid d2); by simpl; rewrite d_map_modify|].
      split; [by simpl; rewrite pending_modify; simpl; rewrite Hq2|].
      change (status_of (with_pending ?q ?c0) o) with (status_of c0 o).
      rewrite status_of_modify. unfold c3. simpl.
      rewrite heap_modify. simpl. by rewrite Hd2.
    + injection Hrun as <- <-. left. split; [done|]. split; [eauto|].
      split; [done|]. rewrite Z.geb_leb in Hge. by apply Z.leb_gt in Hge.
  - injection Hrun as <- <-. right. right. split; [by left|].
    split; congruence.
  - right. right. by apply Hturned.
Qed.

(** ** The further properties at work *)

Lemma keyedb_keyed c : keyedb c = true → keyed c.
Proof.
  unfold keyedb. rewrite forallb_forall. intros H u o Hu.
  apply elem_of_map_to_list, list_elem_of_In, H in Hu.
  by apply bool_decide_eq_true in Hu.
Qed.


Lemma download_active_item_refused_witness :
  download demo_env None (Some "uid_a") None true false ∅
           (demo_one Status.downloading)
  = (emit (Log "download is already in progress for this item" false)
          (with_heap (heap (demo_one Status.downloading)
                      ++ [demo_job "a" Status.downloading])
                     (demo_one Status.downloading)), Ret tt).
Proof.
  apply (download_active_item_refused demo_env None (Some "uid_a") None true
           false ∅ (demo_one Status.downloading) 0%nat
           (demo_job "a" Status.downloading)).
  - vm_compute. reflexivity.
  - reflexivity.
  - vm_compute. reflexivity.
  - vm_compute. discriminate.
  - vm_compute. discriminate.
  - vm_compute. discriminate.
Defined.

Lemma reset_forgets_playlist_witness :
  get_d (controller (reset (mkApp demo_ctl false))) None (Some 1) = None
  ∧ get_d demo_ctl None (Some 1) = Some 1%nat.
Proof.
  split; [|vm_compute; reflexivity].
  apply (proj2 (proj2 (proj2 (proj2 (proj2 (proj2 (proj2
           (reset_forgets_playlist demo_env (mkApp demo_ctl false) (Some 1)
              true false ∅))))))) None).
  by left.
Defined.

Lemma item_flags_guarded_witness :
  scedule_shutdown "uid_a" (demo_one Status.completed)
  = (demo_one Status.completed, Ret tt)
  ∧ scedule_shutdown "uid_b" (demo_one Status.completed)
    = (demo_one Status.completed, Raise).
Proof.
  split.
  - apply (proj2 (item_flags_guarded "uid_a" "" (demo_one Status.completed))
             0%nat (demo_job "a" Status.completed)).
    + vm_compute. reflexivity.
    + reflexivity.
    + reflexivity.
  - apply (proj1 (item_flags_guarded "uid_b" "" (demo_one Status.completed))).
    vm_compute. reflexivity.
Defined.

Lemma item_flags_round_trip_witness :
  (toggle_shutdown "uid_a" ;;; toggle_shutdown "uid_a")
    (demo_one Status.pending)
  = (demo_one Status.pending, Ret tt).
Proof.
  apply (item_flags_round_trip "uid_a" "" (demo_one Status.pending) 0%nat
           (demo_job "a" Status.pending)).
  - vm_compute. reflexivity.
  - reflexivity.
  - vm_compute. discriminate.
Defined.

Lemma post_download_shutdown_once_witness :
  ∃ c', _post_download demo_env 0%nat demo_shutdown = (c', Ret tt)
        ∧ SaveSettings ∈ new_events demo_shutdown c'
        ∧ SaveSettings ∉ new_events c' (_post_download demo_env 0%nat c').1.
Proof.
  destruct (_post_download demo_env 0%nat demo_shutdown) as [c' r] eqn:Hrun.
  assert (Hr : r = Ret tt).
  { apply (f_equal snd) in Hrun. vm_compute in Hrun. congruence. }
  subst r. exists c'. split; [reflexivity|].
  destruct (proj2 (post_download_shutdown_once demo_env 0%nat demo_shutdown
                     (set_shutdown_pc true (demo_job "a" Status.completed))
                     eq_refl) eq_refl c' Hrun)
    as (_ & Hon & _ & Hagain).
  split; [by apply Hon|exact Hagain].
Defined.

Lemma quit_stops_everything_witness :
  active_downloads (controller (quit (mkApp demo_queued false))) = 0
  ∧ status_of (controller (quit (mkApp demo_queued false))) 1%nat
    = Some Status.cancelled.
Proof.
  destruct (quit_stops_everything (mkApp demo_queued false))
    as (_ & _ & _ & _ & _ & Hh & _ & Ha & _).
  - apply keyedb_keyed. vm_compute. reflexivity.
  - split; [exact Ha|]. unfold status_of.
    by rewrite (Hh "uid_b" 1%nat (demo_job "b" Status.pending) eq_refl eq_refl).
Defined.

Lemma scheduled_turn_waits_witness :
  scheduled_turn 100 (demo_scheduled 200)
  = (emit (Sleep sched_interval) (demo_scheduled 200), []).
Proof.
  apply (proj1 (scheduled_turn_waits 100 (demo_scheduled 200))).
  intros u o d Hu Hd Hs.
  change (d_map (demo_scheduled 200))
    with ({[ "uid_a" := 0%nat ]} : gmap string nat) in Hu.
  apply lookup_singleton_Some in Hu as [_ <-].
  injection Hd as <-. reflexivity.
Defined.

Lemma get_d_lookup_witness :
  get_d demo_ctl None (Some (-1)) = reverse (playlist demo_ctl) !! 0%nat
  ∧ get_d demo_ctl None (Some (-1)) = Some 1%nat.
Proof.
  split; [|vm_compute; reflexivity].
  apply (proj1 (proj2 (proj2 (proj2 (get_d_lookup demo_ctl None (Some (-1)))
                                      (or_introl eq_refl)) (-1) eq_refl))).
  lia.
Defined.

Lemma simulated_download_completes_witness :
  ∃ c' d', retry_loop demo_env 0%nat true (py_range (1 + 1)) demo_simulated
           = (c', Ret tt)
           ∧ new_events demo_simulated c' = [ThreadStart 0%nat]
           ∧ heap c' !! 0%nat = Some d'
           ∧ status d' = Status.completed
           ∧ downloaded d' = 1000.
Proof.
  destruct (simulated_download_completes demo_env 0%nat true demo_simulated
              (demo_job "a" Status.pending))
    as (c' & d' & Hrun & Hev & Hd' & Hs & Hdl & _).
  - reflexivity.
  - reflexivity.
  - vm_compute. discriminate.
  - exists c', d'. by repeat split.
Defined.

Lemma delete_removes_item_witness :
  Controller_delete "uid_b" (demo_one Status.downloading)
  = (demo_one Status.downloading, Raise)
  ∧ ∃ c', Controller_delete "uid_a" (demo_one Status.downloading) = (c', Ret tt)
          ∧ d_map c' = delete "uid_a" (d_map (demo_one Status.downloading))
          ∧ new_events (demo_one Status.downloading) c' = [DeleteTempfiles 0%nat].
Proof.
  split.
  - apply (proj1 (delete_removes_item "uid_b" (demo_one Status.downloading))).
    vm_compute. reflexivity.
  - destruct (proj2 (delete_removes_item "uid_a" (demo_one Status.downloading))
                0%nat)
      as (c' & Hrun & Hm & _ & _ & Hev & _).
    + vm_compute. reflexivity.
    + exists c'. by repeat split.
Defined.

Lemma cancelled_while_pending_not_started_witness :
  drain_take (stop_download "uid_b" demo_queued)
  = Some (emit (Sleep drain_interval)
               (with_pending [] (stop_download "uid_b" demo_queued)), []).
Proof.
  apply (cancelled_while_pending_not_started "uid_b" demo_queued
           1%nat [] (demo_job "b" Status.pending)).
  - vm_compute. reflexivity.
  - reflexivity.
  - reflexivity.
  - reflexivity.
Defined.

Lemma schedule_start_then_cancel_witness :
  let c1 := schedule_start 100 (Some "uid_a") None (PyDatetime 200)
                           (demo_one Status.completed) in
  status_of c1 0%nat = Some Status.scheduled
  ∧ status_of (schedule_cancel (Some "uid_a") None c1) 0%nat
    = Some Status.cancelled.
Proof.
  destruct (schedule_start_then_cancel 100 (Some "uid_a") None 200
              (demo_one Status.completed) 0%nat
              (demo_job "a" Status.completed))
    as (H1 & H2 & _).
  - vm_compute. reflexivity.
  - reflexivity.
  - lia.
  - unfold status_of. split; [by rewrite H1|by rewrite H2].
Defined.

Lemma view_kwargs_fields_witness :
  view_kwargs (demo_one Status.downloading) demo_progress !! "progress"
  = Some (VInt 0)
  ∧ view_kwargs (demo_one Status.downloading) demo_progress !! "command"
    = Some (VStr "update").
Proof.
  split.
  - apply (proj1 (proj2 (view_kwargs_fields (demo_one Status.downloading)
                           demo_progress))
             (demo_job "a" Status.downloading)).
    + vm_compute. reflexivity.
    + vm_compute. reflexivity.
  - apply (proj1 (view_kwargs_fields (demo_one Status.downloading)
                    demo_progress)).
Defined.


Lemma watchdog_configured_since_active_witness :
  ∃ j c, (j < 1)%nat
         ∧ [demo_watched Status.downloading; demo_watched Status.completed] !! j
           = Some c
         ∧ any_active c = true.
Proof.
  destruct (watchdog_configured_since_active demo_env
              [demo_watched Status.downloading; demo_watched Status.completed]
              1%nat)
    as (j & c & Hj & Hc & Hact & _).
  - vm_compute. reflexivity.
  - by exists j, c.
Defined.


Lemma check_ffmpeg_search_witness :
  (check_ffmpeg demo_env demo_ctl).2 = Ret true.
Proof.
  destruct (check_ffmpeg_search demo_env demo_ctl)
    as (c' & found & Hrun & _ & _ & _ & _ & Hlinux & _).
  destruct (Hlinux eq_refl) as [-> _]. by rewrite Hrun.
Defined.
